(** * conda-build: the recipe build scheduler of [conda_build/main_build.py]

    A shallow embedding of [execute], [handle_binstar_upload] and
    [args_func], with the collaborators (build engine, metadata parser,
    file system) gathered in one record of oracles, and the properties of
    the scheduling loop, the dependency rediscovery and the version matrix
    expansion. *)

From Stdlib Require Import String Ascii List ZArith Lia Bool Arith.
From Stdlib Require Import DecimalString.
Import ListNotations.

Local Open Scope string_scope.
Local Open Scope list_scope.

(** ** Python strings

    A string of Python 3 is held as the bytes of its UTF-8 encoding, so a
    text of ASCII characters is held as it is written. *)

Module PyStr.

(** [s.startswith(p)] *)
Definition startswith (s p : string) : bool := String.prefix p s.

(** [s.endswith(suf)] *)
Definition endswith (s suf : string) : bool :=
  let n := String.length s in
  let k := String.length suf in
  (k <=? n)%nat && String.eqb (String.substring (n - k) k s) suf.

(** [sub in s], for a non-empty [sub] *)
Fixpoint contains (sub s : string) : bool :=
  String.prefix sub s ||
  match s with
  | EmptyString => false
  | String _ s' => contains sub s'
  end.

(** [s.split(sep)] for a non-empty separator: the pieces between the
    occurrences of [sep], found from the left and not overlapping.  [skip]
    counts the characters of the occurrence being stepped over, [acc] is
    the piece under construction. *)
Fixpoint split_go (sep s : string) (skip : nat) (acc : string) : list string :=
  match s with
  | EmptyString => [acc]
  | String c s' =>
      match skip with
      | S k => split_go sep s' k acc
      | O =>
          if String.prefix sep s
          then acc :: split_go sep s' (String.length sep - 1) ""
          else split_go sep s' 0 (acc ++ String c "")
      end
  end.

Definition split (sep s : string) : list string := split_go sep s 0 "".

(** [s.replace(old, new)] for a non-empty [old], which is
    [new.join(s.split(old))]. *)
Definition replace (old new s : string) : string :=
  String.concat new (split old s).

(** A text is held as the bytes of its UTF-8 encoding.  [decode s] is the
    list of its characters, as code points.  It is [None] when the bytes
    are no UTF-8: such bytes stand for characters without an encoding (the
    surrogates that Python 3 makes of the undecodable bytes of a command
    line), which are neither digits nor white space. *)
Definition byte (c : ascii) : Z := Z.of_N (N_of_ascii c).

(** The text that has the bytes [l]. *)
Definition of_bytes (l : list Z) : string :=
  string_of_list_ascii (map (fun b => ascii_of_N (Z.to_N b)) l).

(** The six bits of a continuation byte. *)
Definition continuation (c : ascii) : option Z :=
  let b := byte c in
  if (128 <=? b)%Z && (b <? 192)%Z then Some (b - 128)%Z else None.

(** A code point read from a sequence whose shortest form starts at [lo]:
    no overlong form, no surrogate, nothing above U+10FFFF. *)
Definition scalar (lo cp : Z) : option Z :=
  if (lo <=? cp)%Z && (cp <=? 1114111)%Z
     && negb ((55296 <=? cp)%Z && (cp <=? 57343)%Z)
  then Some cp else None.

Definition push (cp : option Z) (l : option (list Z)) : option (list Z) :=
  match cp, l with
  | Some c, Some l' => Some (c :: l')
  | _, _ => None
  end.

Fixpoint decode (s : string) : option (list Z) :=
  match s with
  | EmptyString => Some []
  | String c0 s1 =>
      let b0 := byte c0 in
      if (b0 <? 128)%Z then push (Some b0) (decode s1)
      else if (b0 <? 192)%Z then None
      else if (b0 <? 224)%Z then
        match s1 with
        | String c1 s2 =>
            match continuation c1 with
            | Some x1 => push (scalar 128 ((b0 - 192) * 64 + x1)) (decode s2)
            | None => None
            end
        | _ => None
        end
      else if (b0 <? 240)%Z then
        match s1 with
        | String c1 (String c2 s3) =>
            match continuation c1, continuation c2 with
            | Some x1, Some x2 =>
                push (scalar 2048 (((b0 - 224) * 64 + x1) * 64 + x2))
                     (decode s3)
            | _, _ => None
            end
        | _ => None
        end
      else if (b0 <? 248)%Z then
        match s1 with
        | String c1 (String c2 (String c3 s4)) =>
            match continuation c1, continuation c2, continuation c3 with
            | Some x1, Some x2, Some x3 =>
                push (scalar 65536
                        ((((b0 - 240) * 64 + x1) * 64 + x2) * 64 + x3))
                     (decode s4)
            | _, _, _ => None
            end
        | _ => None
        end
      else None
  end.

(** The decimal digits of Unicode 14.0 (the characters of the category
    Nd), as the first and the last code point of each run of consecutive
    digits; the value of a digit is its place in its run modulo ten. *)
Definition decimal_runs : list (Z * Z) :=
  [(48, 57); (1632, 1641); (1776, 1785); (1984, 1993); (2406, 2415);
   (2534, 2543); (2662, 2671); (2790, 2799); (2918, 2927); (3046, 3055);
   (3174, 3183); (3302, 3311); (3430, 3439); (3558, 3567); (3664, 3673);
   (3792, 3801); (3872, 3881); (4160, 4169); (4240, 4249); (6112, 6121);
   (6160, 6169); (6470, 6479); (6608, 6617); (6784, 6793); (6800, 6809);
   (6992, 7001); (7088, 7097); (7232, 7241); (7248, 7257); (42528, 42537);
   (43216, 43225); (43264, 43273); (43472, 43481); (43504, 43513);
   (43600, 43609); (44016, 44025); (65296, 65305); (66720, 66729);
   (68912, 68921); (69734, 69743); (69872, 69881); (69942, 69951);
   (70096, 70105); (70384, 70393); (70736, 70745); (70864, 70873);
   (71248, 71257); (71360, 71369); (71472, 71481); (71904, 71913);
   (72016, 72025); (72784, 72793); (73040, 73049); (73120, 73129);
   (92768, 92777); (92864, 92873); (93008, 93017); (120782, 120831);
   (123200, 123209); (123632, 123641); (125264, 125273);
   (130032, 130041)]%Z.

Definition digit_of (cp : Z) : option Z :=
  match find (fun r => (fst r <=? cp)%Z && (cp <=? snd r)%Z) decimal_runs with
  | Some r => Some ((cp - fst r) mod 10)%Z
  | None => None
  end.

(** The white space that [int] drops around a literal: the six of ASCII
    and the spaces of Unicode beyond it. *)
Definition is_space (cp : Z) : bool :=
  ((9 <=? cp)%Z && (cp <=? 13)%Z) || (cp =? 32)%Z
  || (cp =? 133)%Z || (cp =? 160)%Z || (cp =? 5760)%Z
  || ((8192 <=? cp)%Z && (cp <=? 8202)%Z)
  || (cp =? 8232)%Z || (cp =? 8233)%Z || (cp =? 8239)%Z
  || (cp =? 8287)%Z || (cp =? 12288)%Z.

Fixpoint skip_spaces (l : list Z) : list Z :=
  match l with
  | c :: l' => if is_space c then skip_spaces l' else l
  | [] => []
  end.

(** The digits of a literal, one underscore being allowed between two
    digits.  [digits l after_digit acc n] reads [l] after [n] digits of
    value [acc], [after_digit] telling whether the character before was a
    digit; the result is the value, the number of digits and what follows
    the last digit. *)
Fixpoint digits (l : list Z) (after_digit : bool) (acc n : Z)
  : option (Z * Z * list Z) :=
  match l with
  | [] => if after_digit then Some (acc, n, []) else None
  | c :: l' =>
      match digit_of c with
      | Some d => digits l' true (10 * acc + d)%Z (n + 1)%Z
      | None =>
          if (c =? 95)%Z
          then (if after_digit then digits l' false acc n else None)
          else if after_digit then Some (acc, n, l) else None
      end
  end.

(** [sys.int_info.default_max_str_digits] *)
Definition max_str_digits : Z := 4300.

Definition unsigned_value (l : list Z) : option Z :=
  match digits l false 0 0 with
  | Some (v, n, rest) =>
      match skip_spaces rest with
      | [] => if (n <=? max_str_digits)%Z then Some v else None
      | _ :: _ => None
      end
  | None => None
  end.

(** [int(s)] on a string, as CPython 3.11 reads it: white space around,
    an optional sign, then decimal digits of any script with single
    underscores allowed between them, at most [max_str_digits] digits;
    [None] stands for the [ValueError] of any other text. *)
Definition int (s : string) : option Z :=
  match decode s with
  | None => None
  | Some l =>
      match skip_spaces l with
      | c :: t =>
          if (c =? 45)%Z then option_map Z.opp (unsigned_value t)
          else if (c =? 43)%Z then unsigned_value t
          else unsigned_value (c :: t)
      | [] => None
      end
  end.

(** [str(n)] on an integer *)
Definition str (n : Z) : string := NilZero.string_of_int (Z.to_int n).

(** [x in l] on a list of strings *)
Definition mem (x : string) (l : list string) : bool :=
  existsb (String.eqb x) l.

End PyStr.

(** ** The standard library's [glob] on the current directory

    [glob(pathname)] is library code; its part that the scheduler reaches
    is modelled here: a pathname without directory part that contains a
    magic character is matched, by the rules of [fnmatch.translate],
    against the visible entries of the current directory. *)

Module Glob.

Inductive Item : Type :=
| IStar                                 (* [*]: any text *)
| IAny                                  (* [?]: any one character *)
| IClass (negated : bool) (body : string) (* [[...]] and [[!...]] *)
| ILit (c : ascii).

Definition ascii_le (a b : ascii) : bool :=
  (nat_of_ascii a <=? nat_of_ascii b)%nat.

(** Membership in the body of a character class: [a-b] is a range, any
    other character stands for itself. *)
Fixpoint class_mem (body : list ascii) (c : ascii) : bool :=
  match body with
  | [] => false
  | a :: rest =>
      match rest with
      | dash :: b :: rest' =>
          if Ascii.eqb dash "-"
          then (ascii_le a c && ascii_le c b) || class_mem rest' c
          else Ascii.eqb a c || class_mem rest c
      | _ => Ascii.eqb a c || class_mem rest c
      end
  end.

Fixpoint close_at (s : string) (j : nat) : option nat :=
  match s with
  | EmptyString => None
  | String c s' => if Ascii.eqb c "]" then Some j else close_at s' (S j)
  end.

Fixpoint drop (n : nat) (s : string) : string :=
  match n, s with
  | S k, String _ s' => drop k s'
  | _, _ => s
  end.

(** The index, in the text that follows an opening bracket, of the bracket
    that closes the class: a leading [!] and a [ ] ] right after it do not
    close it. *)
Definition class_end (s : string) : option nat :=
  let j0 := match String.get 0 s with Some "!"%char => 1 | _ => 0 end in
  let j1 := match String.get j0 s with Some "]"%char => S j0 | _ => j0 end in
  close_at (drop j1 s) j1.

Fixpoint translate_go (pat : string) (skip : nat) : list Item :=
  match pat with
  | EmptyString => []
  | String c pat' =>
      match skip with
      | S k => translate_go pat' k
      | O =>
          if Ascii.eqb c "*" then IStar :: translate_go pat' 0
          else if Ascii.eqb c "?" then IAny :: translate_go pat' 0
          else if Ascii.eqb c "[" then
            match class_end pat' with
            | None => ILit "[" :: translate_go pat' 0
            | Some j =>
                let stuff := String.substring 0 j pat' in
                match stuff with
                | String "!" body => IClass true body
                | _ => IClass false stuff
                end :: translate_go pat' (S j)
            end
          else ILit c :: translate_go pat' 0
      end
  end.

Definition translate (pat : string) : list Item := translate_go pat 0.

Fixpoint match_items (items : list Item) (s : string) {struct items} : bool :=
  match items with
  | [] => match s with EmptyString => true | _ => false end
  | IStar :: rest =>
      (fix star (t : string) : bool :=
         match_items rest t ||
         match t with
         | EmptyString => false
         | String _ t' => star t'
         end) s
  | IAny :: rest =>
      match s with
      | String _ s' => match_items rest s'
      | EmptyString => false
      end
  | IClass neg body :: rest =>
      match s with
      | String c s' =>
          xorb neg (class_mem (list_ascii_of_string body) c)
          && match_items rest s'
      | EmptyString => false
      end
  | ILit a :: rest =>
      match s with
      | String c s' => Ascii.eqb a c && match_items rest s'
      | EmptyString => false
      end
  end.

(** [fnmatch.fnmatchcase(name, pat)] *)
Definition fnmatch (name pat : string) : bool :=
  match_items (translate pat) name.

Definition has_magic (s : string) : bool :=
  PyStr.contains "*" s || PyStr.contains "?" s || PyStr.contains "[" s.

Definition hidden (name : string) : bool := PyStr.startswith name ".".

(** [glob1(os.curdir, pattern)] over the listing [names] of the directory *)
Definition glob1 (names : list string) (pattern : string) : list string :=
  let names' :=
    if hidden pattern then names else filter (fun x => negb (hidden x)) names in
  filter (fun x => fnmatch x pattern) names'.

End Glob.

(** ** Data of [main_build.py] *)

Inductive Lang : Type := python | numpy | perl | R.

Definition lang_name (lang : Lang) : string :=
  match lang with
  | python => "python" | numpy => "numpy" | perl => "perl" | R => "R"
  end.

Definition lang_eqb (a b : Lang) : bool :=
  match a, b with
  | python, python | numpy, numpy | perl, perl | R, R => true
  | _, _ => false
  end.

(** The module constant [all_versions]. *)
Definition all_versions (lang : Lang) : option (list Z) :=
  match lang with
  | python => Some [26; 27; 33; 34]%Z
  | numpy => Some [16; 17; 18; 19]%Z
  | perl => None
  | R => None
  end.

(** The local table [conda_version] of [execute]. *)
Definition conda_version (lang : Lang) : string :=
  match lang with
  | python => "CONDA_PY" | numpy => "CONDA_NPY"
  | perl => "CONDA_PERL" | R => "CONDA_R"
  end.

(** A requested version: the command line gives strings, [all_versions]
    gives integers, and [execute] stores both in [args]. *)
Inductive Ver : Type := VStr (s : string) | VInt (n : Z).

Definition ver_str (v : Ver) : string :=
  match v with VStr s => s | VInt n => PyStr.str n end.

Definition ver_eqb (a b : Ver) : bool :=
  match a, b with
  | VStr s, VStr t => String.eqb s t
  | VInt n, VInt m => Z.eqb n m
  | _, _ => false
  end.

(** The [args] namespace that the parser of [main] builds.  A version
    axis that was not given is [None] in Python; the code only tests its
    truth, so it is the empty list here. *)
Module Args.
Record t : Type := mk {
  recipe : list string;
  check : bool;
  binstar_upload : option bool;
  include_recipe : bool;
  output : bool;
  source : bool;
  test : bool;
  notest : bool;
  build_only : bool;
  post : bool;
  skip_existing : bool;
  quiet : bool;
  py : list Ver;
  npy : list Ver;
  pl : list Ver;
  r : list Ver;
  channel : list string;
  override_channels : bool;
  yes : option bool;
  dry_run : option bool
}.

Definition getattr (a : t) (lang : Lang) : list Ver :=
  match lang with
  | python => py a | numpy => npy a | perl => pl a | R => r a
  end.

Definition setattr (a : t) (lang : Lang) (vs : list Ver) : t :=
  match lang with
  | python =>
      mk (recipe a) (check a) (binstar_upload a) (include_recipe a) (output a)
         (source a) (test a) (notest a) (build_only a) (post a)
         (skip_existing a) (quiet a) vs (npy a) (pl a) (r a)
         (channel a) (override_channels a) (yes a) (dry_run a)
  | numpy =>
      mk (recipe a) (check a) (binstar_upload a) (include_recipe a) (output a)
         (source a) (test a) (notest a) (build_only a) (post a)
         (skip_existing a) (quiet a) (py a) vs (pl a) (r a)
         (channel a) (override_channels a) (yes a) (dry_run a)
  | perl =>
      mk (recipe a) (check a) (binstar_upload a) (include_recipe a) (output a)
         (source a) (test a) (notest a) (build_only a) (post a)
         (skip_existing a) (quiet a) (py a) (npy a) vs (r a)
         (channel a) (override_channels a) (yes a) (dry_run a)
  | R =>
      mk (recipe a) (check a) (binstar_upload a) (include_recipe a) (output a)
         (source a) (test a) (notest a) (build_only a) (post a)
         (skip_existing a) (quiet a) (py a) (npy a) (pl a) vs
         (channel a) (override_channels a) (yes a) (dry_run a)
  end.

(** [args.notest = True; args.binstar_upload = False] *)
Definition no_test_no_upload (a : t) : t :=
  mk (recipe a) (check a) (Some false) (include_recipe a) (output a)
     (source a) (test a) true (build_only a) (post a)
     (skip_existing a) (quiet a) (py a) (npy a) (pl a) (r a)
     (channel a) (override_channels a) (yes a) (dry_run a).

(** [args.yes = False; args.dry_run = False] *)
Definition no_yes_no_dry_run (a : t) : t :=
  mk (recipe a) (check a) (binstar_upload a) (include_recipe a) (output a)
     (source a) (test a) (notest a) (build_only a) (post a)
     (skip_existing a) (quiet a) (py a) (npy a) (pl a) (r a)
     (channel a) (override_channels a) (Some false) (Some false).
End Args.

(** The fields of the global [conda_build.config.config] that [execute]
    writes.  [None] is a key still at the default of that module. *)
Module Config.
Record t : Type := mk {
  CONDA_PY : option Z;
  CONDA_NPY : option Z;
  CONDA_PERL : option Z;
  CONDA_R : option Z;
  noarch : bool
}.

Definition get (c : t) (lang : Lang) : option Z :=
  match lang with
  | python => CONDA_PY c | numpy => CONDA_NPY c
  | perl => CONDA_PERL c | R => CONDA_R c
  end.

(** [setattr(config, conda_version[lang], version)] *)
Definition set (c : t) (lang : Lang) (version : Z) : t :=
  match lang with
  | python => mk (Some version) (CONDA_NPY c) (CONDA_PERL c) (CONDA_R c) (noarch c)
  | numpy => mk (CONDA_PY c) (Some version) (CONDA_PERL c) (CONDA_R c) (noarch c)
  | perl => mk (CONDA_PY c) (CONDA_NPY c) (Some version) (CONDA_R c) (noarch c)
  | R => mk (CONDA_PY c) (CONDA_NPY c) (CONDA_PERL c) (Some version) (noarch c)
  end.

Definition set_noarch (c : t) : t :=
  mk (CONDA_PY c) (CONDA_NPY c) (CONDA_PERL c) (CONDA_R c) true.
End Config.

(** Exceptions, by the classes that the code tells apart.  [SystemExit] is
    what [sys.exit] and [parser.error] raise; it is no [Exception], so
    [args_func] lets it through.  The texts of [ValueError], [IndexError]
    and [AttributeError] are not kept: the code never reads them. *)
Inductive Exn : Type :=
| RuntimeError (msg : string)
| SystemExit (status : string)
| YamlParsingError (error_msg : string)
| ValueError
| IndexError
| AttributeError
| OtherException (class_name msg : string).

(** What the run does to the outside, in order. *)
Inductive Event (Meta : Type) : Type :=
| EvPrint (msg : string)
| EvStderr (msg : string)
| EvUpdateIndex
| EvLocked
| EvUnlocked
| EvUnpack (arg : string)
| EvBuild (m : Meta) (post : option bool)
| EvTest (m : Meta)
| EvProvide (m : Meta)
| EvRmtree (dir : string)
| EvUpload (path : string).

Arguments EvPrint {Meta} msg.
Arguments EvStderr {Meta} msg.
Arguments EvUpdateIndex {Meta}.
Arguments EvLocked {Meta}.
Arguments EvUnlocked {Meta}.
Arguments EvUnpack {Meta} arg.
Arguments EvBuild {Meta} m post.
Arguments EvTest {Meta} m.
Arguments EvProvide {Meta} m.
Arguments EvRmtree {Meta} dir.
Arguments EvUpload {Meta} path.

(** An operation of a collaborator on the world [W]: it may change the
    world and either returns or raises. *)
Definition Eff (W A : Type) : Type := W -> W * (Exn + A).

(** The collaborators of [execute]: [os.path], [tempfile], [tarfile] and
    [shutil], [conda.lock], and the build engine of [conda_build]
    ([MetaData], [build], [source], [index], [external]). *)
Record Collab (W Meta : Type) : Type := {
  isfile : W -> string -> bool;
  isdir : W -> string -> bool;
  path_exists : W -> string -> bool;
  abspath : W -> string -> string;
  listdir_cwd : W -> list string;
  (* [glob] on a pathname with a directory part or without magic *)
  glob_other : W -> string -> list string;
  (* [tempfile.mkdtemp()], [tarfile.open(arg)], [extractall], [close] *)
  unpack : string -> Eff W string;
  rmtree : string -> Eff W unit;
  (* [check_external()] and, on Windows, the assertion and [delete_trash] *)
  startup : Eff W unit;
  MetaData : Config.t -> string -> Eff W Meta;
  noarch_python : Meta -> bool;
  m_path : Meta -> string;
  check_fields : Meta -> Eff W unit;
  pkg_fn : Config.t -> Meta -> string;
  dist : Config.t -> Meta -> string;
  bldpkg_path : Config.t -> Meta -> string;
  build_build : Config.t -> Args.t -> option bool -> Meta -> Eff W unit;
  build_test : Config.t -> Args.t -> Meta -> Eff W unit;
  (* [source.provide(...)] then [source.get_dir()] *)
  source_provide : Config.t -> Meta -> Eff W string;
  update_index : Config.t -> Eff W unit;
  get_build_index : Config.t -> Args.t -> Eff W (list string);
  lock_acquire : Config.t -> Eff W unit;
  lock_release : Config.t -> W -> W;
  find_executable : W -> string -> option string;
  subprocess_call : list string -> Eff W unit
}.

Arguments isfile {W Meta} _ _ _.
Arguments isdir {W Meta} _ _ _.
Arguments path_exists {W Meta} _ _ _.
Arguments abspath {W Meta} _ _ _.
Arguments listdir_cwd {W Meta} _ _.
Arguments glob_other {W Meta} _ _ _.
Arguments unpack {W Meta} _ _ _.
Arguments rmtree {W Meta} _ _ _.
Arguments startup {W Meta} _ _.
Arguments MetaData {W Meta} _ _ _ _.
Arguments noarch_python {W Meta} _ _.
Arguments m_path {W Meta} _ _.
Arguments check_fields {W Meta} _ _ _.
Arguments pkg_fn {W Meta} _ _ _.
Arguments dist {W Meta} _ _ _.
Arguments bldpkg_path {W Meta} _ _ _.
Arguments build_build {W Meta} _ _ _ _ _ _.
Arguments build_test {W Meta} _ _ _ _ _.
Arguments source_provide {W Meta} _ _ _ _.
Arguments update_index {W Meta} _ _ _.
Arguments get_build_index {W Meta} _ _ _ _.
Arguments lock_acquire {W Meta} _ _ _.
Arguments lock_release {W Meta} _ _ _.
Arguments find_executable {W Meta} _ _ _.
Arguments subprocess_call {W Meta} _ _ _.

(** ** The state of a run and its monad *)

(** What the whole invocation shares: the outside world, the global
    [config], the [args] object (one object, mutated in place and seen by
    every sub-run) and the events so far. *)
Record Globals (W Meta : Type) : Type := mkGlobals {
  world : W;
  config : Config.t;
  args : Args.t;
  trace : list (Event Meta)
}.

Arguments mkGlobals {W Meta} _ _ _ _.
Arguments world {W Meta} _.
Arguments config {W Meta} _.
Arguments args {W Meta} _.
Arguments trace {W Meta} _.

(** The local variables [recipes] (the deque) and [already_built]. *)
Record Locals : Type := mkLocals {
  recipes : list string;
  already_built : list string
}.

Section Monad.
Context {W Meta : Type}.

Definition M (A : Type) : Type := Globals W Meta -> Globals W Meta * (Exn + A).

Definition ret {A} (a : A) : M A := fun g => (g, inr a).

Definition bind {A B} (m : M A) (k : A -> M B) : M B :=
  fun g =>
    match m g with
    | (g', inr a) => k a g'
    | (g', inl e) => (g', inl e)
    end.

Definition raise {A} (e : Exn) : M A := fun g => (g, inl e).

(** [try: m  except Exception/BaseException as e: h e] *)
Definition catch {A} (m : M A) (h : Exn -> M A) : M A :=
  fun g =>
    match m g with
    | (g', inl e) => h e g'
    | r => r
    end.

Definition emit (e : Event Meta) : M unit :=
  fun g => (mkGlobals (world g) (config g) (args g) (trace g ++ [e]), inr tt).

Definition call {A} (f : Eff W A) : M A :=
  fun g =>
    let (w', r) := f (world g) in
    (mkGlobals w' (config g) (args g) (trace g), r).

Definition ask {A} (f : W -> A) : M A := fun g => (g, inr (f (world g))).

Definition get_args : M Args.t := fun g => (g, inr (args g)).

Definition set_args (a : Args.t) : M unit :=
  fun g => (mkGlobals (world g) (config g) a (trace g), inr tt).

Definition get_config : M Config.t := fun g => (g, inr (config g)).

Definition set_config (c : Config.t) : M unit :=
  fun g => (mkGlobals (world g) c (args g) (trace g), inr tt).

Definition when (b : bool) (m : M unit) : M unit := if b then m else ret tt.

End Monad.

Notation "x <- m ;; k" := (bind m (fun x => k))
  (at level 61, m at next level, right associativity).
Notation "m ;;; k" := (bind m (fun _ => k))
  (at level 61, right associativity).

(** ** The scheduler *)

Section Scheduler.
Context {W Meta : Type} (E : Collab W Meta).

Local Abbreviation M := (@M W Meta).

Definition no_upload_message (path : string) : string :=
  "# If you want to upload this package to anaconda.org later, type:
#
# $ binstar upload " ++ path ++ "
#
# To have conda build upload to binstar automatically, use
# $ conda config --set binstar_upload yes
".

(** [handle_binstar_upload(path, args)] *)
Definition handle_binstar_upload (path : string) : M unit :=
  a <- get_args ;;
  upload <- match Args.binstar_upload a with
            | None => set_args (Args.no_yes_no_dry_run a) ;;; ret false
            | Some b => ret b
            end ;;
  if negb upload then emit (EvPrint (no_upload_message path))
  else
    binstar <- ask (fun w => find_executable E w "anaconda") ;;
    match binstar with
    | None =>
        emit (EvPrint (no_upload_message path)) ;;;
        raise (SystemExit "Error: cannot locate anaconda command (required for upload)")
    | Some b =>
        emit (EvPrint "Uploading to anaconda.org") ;;;
        emit (EvUpload path) ;;;
        catch (call (subprocess_call E [b; "upload"; path]))
              (fun e => emit (EvPrint (no_upload_message path)) ;;; raise e)
    end.

(** [glob(pathname)] *)
Definition glob (w : W) (pathname : string) : list string :=
  if Glob.has_magic pathname && negb (PyStr.contains "/" pathname)
  then Glob.glob1 (listdir_cwd E w) pathname
  else glob_other E w pathname.

(** The test of lines 386: is this the error of a missing dependency? *)
Definition is_missing_dependency (error_str : string) : bool :=
  PyStr.startswith error_str "No packages found"
  || PyStr.startswith error_str "Could not find some".

(** Lines 390-391: drop what follows the first space. *)
Definition dep_name (dep_pkg : string) : string :=
  if PyStr.contains " " dep_pkg
  then hd "" (PyStr.split " " dep_pkg)
  else dep_pkg.

(** Lines 392-394: the list [recipe_glob]. *)
Definition find_recipes (w : W) (dep_pkg : string) : list string :=
  let recipe_glob := glob w (dep_pkg ++ "-[v0-9][0-9.]*") in
  if path_exists E w dep_pkg then recipe_glob ++ [dep_pkg] else recipe_glob.

Definition missing_message (dep_pkg : string) : string :=
  "Missing dependency " ++ dep_pkg ++ ", but found recipe directory, so building "
  ++ dep_pkg ++ " first".

(** Lines 398-402: the loop over [recipe_glob], on the deque [q]. *)
Fixpoint requeue (dep_pkg : string) (recipe_glob : list string)
  (q : list string) : M (list string) :=
  match recipe_glob with
  | [] => ret q
  | recipe_dir :: more =>
      emit (EvPrint (missing_message dep_pkg)) ;;;
      requeue dep_pkg more (recipe_dir :: q)
  end.

(** Lines 380-406: [build.build] under its [try]; the result is
    [try_again] and the deque. *)
Definition build_or_requeue (m : Meta) (post : option bool) (arg : string)
  (rest : list string) : M (bool * list string) :=
  c <- get_config ;;
  a <- get_args ;;
  emit (EvBuild m post) ;;;
  catch (call (build_build E c a post m) ;;; ret (false, rest))
    (fun e =>
       match e with
       | RuntimeError error_str =>
           if is_missing_dependency error_str then
             match nth_error (PyStr.split ": " error_str) 1 with
             | None => raise IndexError
             | Some dep_pkg0 =>
                 let dep_pkg := dep_name dep_pkg0 in
                 recipe_glob <- ask (fun w => find_recipes w dep_pkg) ;;
                 match recipe_glob with
                 | [] => raise e
                 | _ :: _ =>
                     q <- requeue dep_pkg recipe_glob (arg :: rest) ;;
                     ret (true, q)
                 end
             end
           else raise e
       | _ => raise e
       end).

(** Lines 415-421: the end of the loop body. *)
Definition finish (m : Meta) (recipe_dir : string)
  (need_cleanup binstar_upload : bool) (rest already : list string) : M Locals :=
  when need_cleanup (emit (EvRmtree recipe_dir) ;;; call (rmtree E recipe_dir)) ;;;
  when binstar_upload
    (c <- get_config ;; handle_binstar_upload (bldpkg_path E c m)) ;;;
  c <- get_config ;;
  ret (mkLocals rest (already ++ [pkg_fn E c m])).

Definition is_archive (arg : string) : bool :=
  PyStr.endswith arg ".tar" || PyStr.endswith arg ".tar.gz"
  || PyStr.endswith arg ".tgz" || PyStr.endswith arg ".tar.bz2".

Inductive Resolved : Type :=
| Ignored
| RecipeDir (recipe_dir : string) (need_cleanup : bool).

(** Lines 325-337.  (The decoding of [arg] under Python 2 leaves the path
    the same.) *)
Definition resolve (arg : string) : M Resolved :=
  f <- ask (fun w => isfile E w arg) ;;
  if f then
    if is_archive arg then
      emit (EvUnpack arg) ;;;
      recipe_dir <- call (unpack E arg) ;;
      ret (RecipeDir recipe_dir true)
    else
      emit (EvPrint ("Ignoring non-recipe: " ++ arg)) ;;; ret Ignored
  else
    d <- ask (fun w => abspath E w arg) ;;
    ret (RecipeDir d false).

(** Lines 342-348. *)
Definition load_metadata (recipe_dir : string) : M Meta :=
  c <- get_config ;;
  catch (m <- call (MetaData E c recipe_dir) ;;
         when (noarch_python E m)
              (c' <- get_config ;; set_config (Config.set_noarch c')) ;;;
         ret m)
        (fun e =>
           match e with
           | YamlParsingError msg => emit (EvStderr msg) ;;; raise (SystemExit "1")
           | _ => raise e
           end).

(** Lines 370-379: the value of [post] and what becomes of [args]. *)
Definition build_mode (a : Args.t) : Args.t * option bool :=
  if Args.build_only a then (Args.no_test_no_upload a, Some false)
  else if Args.post a then (Args.no_test_no_upload a, Some true)
  else (a, None).

(** Lines 369-413: the full build. *)
Definition full_build (m : Meta) (arg recipe_dir : string) (need_cleanup : bool)
  (rest already : list string) : M Locals :=
  a <- get_args ;;
  set_args (fst (build_mode a)) ;;;
  let post := snd (build_mode a) in
  r <- build_or_requeue m post arg rest ;;
  if fst r then ret (mkLocals (snd r) already)
  else
    a' <- get_args ;;
    c <- get_config ;;
    when (negb (Args.notest a'))
         (emit (EvTest m) ;;; call (build_test E c a' m)) ;;;
    finish m recipe_dir need_cleanup true rest already.

(** Lines 349-421: what is done with the metadata [m]. *)
Definition act (m : Meta) (arg recipe_dir : string) (need_cleanup : bool)
  (index rest already : list string) : M Locals :=
  a <- get_args ;;
  c <- get_config ;;
  when (Args.check a && (1 <? List.length (Args.recipe a))%nat)
       (emit (EvPrint (m_path E m))) ;;;
  call (check_fields E m) ;;;
  if Args.check a then ret (mkLocals rest already)
  else if Args.skip_existing a
          && (PyStr.mem (pkg_fn E c m) index || PyStr.mem (pkg_fn E c m) already)
  then
    emit (EvPrint (dist E c m ++ " is already built, skipping.")) ;;;
    ret (mkLocals rest already)
  else if Args.output a then
    emit (EvPrint (bldpkg_path E c m)) ;;; ret (mkLocals rest already)
  else if Args.test a then
    emit (EvTest m) ;;;
    call (build_test E c a m) ;;;
    finish m recipe_dir need_cleanup false rest already
  else if Args.source a then
    emit (EvProvide m) ;;;
    d <- call (source_provide E c m) ;;
    emit (EvPrint ("Source tree in: " ++ d)) ;;;
    finish m recipe_dir need_cleanup false rest already
  else full_build m arg recipe_dir need_cleanup rest already.

(** Lines 320-421: one pass of the [while] loop, on the task [arg] taken
    from the left of the deque, [rest] being what the deque still holds. *)
Definition iteration (index : list string) (arg : string)
  (rest already : list string) : M Locals :=
  r <- resolve arg ;;
  match r with
  | Ignored => ret (mkLocals rest already)
  | RecipeDir recipe_dir need_cleanup =>
      d <- ask (fun w => isdir E w recipe_dir) ;;
      if negb d then raise (SystemExit ("Error: no such directory: " ++ recipe_dir))
      else
        m <- load_metadata recipe_dir ;;
        act m arg recipe_dir need_cleanup index rest already
  end.

(** Lines 319-421: [while recipes: ...].  [None] is a loop that has not
    ended within [fuel] passes. *)
Fixpoint while_recipes (fuel : nat) (index : list string) (l : Locals)
  (g : Globals W Meta) : option (Globals W Meta * (Exn + Locals)) :=
  match recipes l with
  | [] => Some (g, inr l)
  | arg :: rest =>
      match fuel with
      | O => None
      | S fuel' =>
          match iteration index arg rest (already_built l) g with
          | (g', inl e) => Some (g', inl e)
          | (g', inr l') => while_recipes fuel' index l' g'
          end
      end
  end.

(** ** The version matrix: lines 283-308 *)

(** What one pass of [for lang in ...] decides: go on to the next axis,
    or run [execute] once per version and return. *)
Inductive LangStep : Type :=
| Next
| Expand (versions : list Ver).

(** [versions == ['all']] *)
Definition is_all (versions : list Ver) : bool :=
  match versions with
  | [VStr s] => String.eqb s "all"
  | _ => false
  end.

Definition two_digit_axis (lang : Lang) : bool :=
  lang_eqb lang python || lang_eqb lang numpy.

(** [n/10] as the message shows it, for the two-digit [n] of
    [all_versions]. *)
Definition tenth (n : Z) : string :=
  PyStr.str (n / 10) ++ "." ++ PyStr.str (n mod 10).

Definition width_message (lang : Lang) (version : Z) : string :=
  match all_versions lang with
  | Some (v :: vs) =>
      conda_version lang ++ " must be major.minor, like "
      ++ tenth (last (v :: vs) 0%Z) ++ ", not " ++ PyStr.str version
  | _ => conda_version lang ++ " must be major.minor, not " ++ PyStr.str version
  end.

Definition lang_step (lang : Lang) : M LangStep :=
  a <- get_args ;;
  match Args.getattr a lang with
  | [] => ret Next
  | v0 :: vs0 =>
      versions <-
        (if is_all (v0 :: vs0) then
           match all_versions lang with
           | Some (v :: vs) => ret (map VInt (v :: vs))
           | _ => raise (SystemExit ("'all' is not supported for --" ++ lang_name lang))
           end
         else ret (v0 :: vs0)) ;;
      if (1 <? List.length versions)%nat then ret (Expand versions)
      else
        match versions with
        | VStr s :: _ =>
            match PyStr.int (PyStr.replace "." "" s) with
            | None => raise ValueError
            | Some version =>
                c <- get_config ;;
                set_config (Config.set c lang version) ;;;
                if negb (String.length (PyStr.str version) =? 2)%nat
                   && two_digit_axis lang
                then raise (RuntimeError (width_message lang version))
                else ret Next
            end
        | VInt _ :: _ => raise AttributeError
        | [] => raise IndexError
        end
  end.

Definition Run : Type :=
  Globals W Meta -> option (Globals W Meta * (Exn + unit)).

Definition with_lang (g : Globals W Meta) (lang : Lang) (vs : list Ver)
  : Globals W Meta :=
  mkGlobals (world g) (config g) (Args.setattr (args g) lang vs) (trace g).

(** Lines 293-297: [for ver in versions[:]], [rec] being [execute]. *)
Fixpoint for_versions (rec : Run) (lang : Lang) (versions todo : list Ver)
  (g : Globals W Meta) : option (Globals W Meta * (Exn + unit)) :=
  match todo with
  | [] => Some (g, inr tt)
  | ver :: more =>
      match rec (with_lang g lang [VStr (ver_str ver)]) with
      | None => None
      | Some (g1, inl e) => Some (g1, inl e)
      | Some (g1, inr _) =>
          for_versions rec lang versions more (with_lang g1 lang versions)
      end
  end.

(** Lines 283-308: [for lang in ...]; the result [true] is the [return]
    of line 298. *)
Fixpoint for_langs (rec : Run) (langs : list Lang) (g : Globals W Meta)
  : option (Globals W Meta * (Exn + bool)) :=
  match langs with
  | [] => Some (g, inr false)
  | lang :: more =>
      match lang_step lang g with
      | (g1, inl e) => Some (g1, inl e)
      | (g1, inr Next) => for_langs rec more g1
      | (g1, inr (Expand versions)) =>
          match for_versions rec lang versions versions g1 with
          | None => None
          | Some (g2, inl e) => Some (g2, inl e)
          | Some (g2, inr _) => Some (g2, inr true)
          end
      end
  end.

(** Lines 310-314. *)
Definition prepare_index : M (list string) :=
  a <- get_args ;;
  if Args.skip_existing a then
    c <- get_config ;;
    emit EvUpdateIndex ;;;
    call (update_index E c) ;;;
    call (get_build_index E c a)
  else ret [].

Definition unlock (g : Globals W Meta) : Globals W Meta :=
  mkGlobals (lock_release E (config g) (world g)) (config g) (args g)
            (trace g ++ [EvUnlocked]).

(** Lines 316-421: the loop under [with Locked(config.croot)]. *)
Definition locked_loop (fuel : nat) (index : list string) (g : Globals W Meta)
  : option (Globals W Meta * (Exn + unit)) :=
  match (call (lock_acquire E (config g)) ;;; emit EvLocked) g with
  | (g1, inl e) => Some (g1, inl e)
  | (g1, inr _) =>
      match while_recipes fuel index (mkLocals (Args.recipe (args g1)) []) g1 with
      | None => None
      | Some (g2, inl e) => Some (unlock g2, inl e)
      | Some (g2, inr _) => Some (unlock g2, inr tt)
      end
  end.

Definition all_langs : list Lang := [python; numpy; perl; R].

(** [execute(args, parser)].  [depth] bounds the nesting of the calls of
    [execute] by itself, [fuel] the passes of each [while] loop. *)
Fixpoint execute (depth fuel : nat) (g : Globals W Meta)
  : option (Globals W Meta * (Exn + unit)) :=
  match depth with
  | O => None
  | S depth' =>
      match call (startup E) g with
      | (g1, inl e) => Some (g1, inl e)
      | (g1, inr _) =>
          match for_langs (execute depth' fuel) all_langs g1 with
          | None => None
          | Some (g2, inl e) => Some (g2, inl e)
          | Some (g2, inr true) => Some (g2, inr tt)
          | Some (g2, inr false) =>
              match prepare_index g2 with
              | (g3, inl e) => Some (g3, inl e)
              | (g3, inr index) => locked_loop fuel index g3
              end
          end
      end
  end.

Definition class_name (e : Exn) : string :=
  match e with
  | RuntimeError _ => "RuntimeError"
  | SystemExit _ => "SystemExit"
  | YamlParsingError _ => "YamlParsingError"
  | ValueError => "ValueError"
  | IndexError => "IndexError"
  | AttributeError => "AttributeError"
  | OtherException c _ => c
  end.

Definition issue_message : string :=
  "An unexpected error has occurred, please consider sending the
following traceback to the conda GitHub issue tracker at:

    https://github.com/conda/conda-build/issues

Include the output of the command 'conda info' in your report.

".

Definition print_issue_message (e : Exn) : M unit :=
  when (negb (PyStr.mem (class_name e) ["ScannerError"; "ParserError"]))
       (emit (EvStderr issue_message)).

(** [args_func(args, p)], [args.func] being [execute]. *)
Definition args_func (depth fuel : nat) (g : Globals W Meta)
  : option (Globals W Meta * (Exn + unit)) :=
  match execute depth fuel g with
  | None => None
  | Some (g1, inr _) => Some (g1, inr tt)
  | Some (g1, inl e) =>
      Some
        (match e with
         | RuntimeError msg =>
             if PyStr.contains "maximum recursion depth exceeded" msg
             then (print_issue_message e ;;; raise e) g1
             else raise (SystemExit ("Error: " ++ msg)) g1
         | SystemExit _ => (g1, inl e)
         | _ => (print_issue_message e ;;; raise e) g1
         end)
  end.

End Scheduler.

(** ** A small concrete world

    Recipes are given by a table; a build succeeds once every package
    that the recipe needs has been built, and fails before that with the
    message of the build engine for a missing package. *)

Module Sim.

Local Open Scope string_scope.

Record Recipe : Type := mkRecipe {
  r_dir : string;             (* the recipe directory *)
  r_pkg : string;             (* the package it builds *)
  r_needs : list string;      (* requirement specifications *)
  r_broken : option Exn       (* an error that its build always raises *)
}.

Record World : Type := mkWorld {
  table : list Recipe;
  files : list string;        (* regular files *)
  listing : list string;      (* entries of the current directory *)
  built : list string         (* packages built so far *)
}.

Definition lookup (w : World) (dir : string) : option Recipe :=
  find (fun rc => String.eqb (r_dir rc) dir) (table w).

Definition missing_error (spec : string) : Exn :=
  RuntimeError ("No packages found in current linux-64 channels matching: " ++ spec).

(** The first requirement whose package is not built yet. *)
Definition unmet (w : World) (rc : Recipe) : option string :=
  find (fun spec => negb (PyStr.mem (hd "" (PyStr.split " " spec)) (built w)))
       (r_needs rc).

Definition build (rc : Recipe) : Eff World unit :=
  fun w =>
    match r_broken rc with
    | Some e => (w, inl e)
    | None =>
        match unmet w rc with
        | Some spec => (w, inl (missing_error spec))
        | None =>
            (mkWorld (table w) (files w) (listing w) (built w ++ [r_pkg rc])%list, inr tt)
        end
    end.

Definition ok {A} (a : A) : Eff World A := fun w => (w, inr a).

Definition collab : Collab World Recipe := {|
  isfile := fun w p => PyStr.mem p (files w);
  isdir := fun w p =>
    match lookup w p with Some _ => true | None => PyStr.mem p (listing w) end;
  path_exists := fun w p => PyStr.mem p (listing w);
  abspath := fun _ p => p;
  listdir_cwd := listing;
  glob_other := fun _ _ => [];
  unpack := fun arg => ok ("/tmp/" ++ arg)%string;
  rmtree := fun _ => ok tt;
  startup := ok tt;
  MetaData := fun _ dir w =>
    match lookup w dir with
    | Some rc => (w, inr rc)
    | None => (w, inl (SystemExit ("Error: meta.yaml or conda.yaml not found in " ++ dir)))
    end;
  noarch_python := fun _ => false;
  m_path := r_dir;
  check_fields := fun _ => ok tt;
  pkg_fn := fun _ rc => r_pkg rc ++ ".tar.bz2";
  dist := fun _ rc => r_pkg rc;
  bldpkg_path := fun _ rc => "/bld/" ++ r_pkg rc ++ ".tar.bz2";
  build_build := fun _ _ _ rc => build rc;
  build_test := fun _ _ _ => ok tt;
  source_provide := fun _ _ => ok "/work";
  update_index := fun _ => ok tt;
  get_build_index := fun _ _ => ok [];
  lock_acquire := fun _ => ok tt;
  lock_release := fun _ w => w;
  find_executable := fun _ _ => None;
  subprocess_call := fun _ => ok tt
|}.

Definition default_args (recipe : list string) : Args.t :=
  Args.mk recipe false (Some false) true false false false false false false
          false false [] [] [] [] [] false None None.

Definition default_config : Config.t := Config.mk None None None None false.

Definition start (w : World) (a : Args.t) : Globals World Recipe :=
  mkGlobals w default_config a [].

(** The builds of a trace, by recipe directory. *)
Definition builds (tr : list (Event Recipe)) : list string :=
  flat_map (fun e => match e with EvBuild m _ => [r_dir m] | _ => [] end) tr.

End Sim.

(** ** Conditions on a pass of the loop *)

Section Conditions.
Context {W Meta : Type} (E : Collab W Meta).

Definition with_world (g : Globals W Meta) (w : W) : Globals W Meta :=
  mkGlobals w (config g) (args g) (trace g).

(** Lines 325-348 succeed on the task [arg]: it resolves to the recipe
    directory [d], temporary or not, and [m] is its metadata; [g2] is the
    state after that. *)
Definition resolves_to (arg : string) (g : Globals W Meta) (d : string)
  (need_cleanup : bool) (m : Meta) (g2 : Globals W Meta) : Prop :=
  exists g1,
    resolve E arg g = (g1, inr (RecipeDir d need_cleanup))
    /\ isdir E (world g1) d = true
    /\ load_metadata E d g1 = (g2, inr m).

(** Lines 350-358 let the task through: no [--check], the fields are
    valid (which leaves the world [w3]) and the package is not skipped. *)
Definition passes_checks (index already : list string) (m : Meta)
  (g2 : Globals W Meta) (w3 : W) : Prop :=
  Args.check (args g2) = false
  /\ check_fields E m (world g2) = (w3, inr tt)
  /\ Args.skip_existing (args g2)
     && (PyStr.mem (pkg_fn E (config g2) m) index
         || PyStr.mem (pkg_fn E (config g2) m) already) = false.

(** Lines 359-368 select the full build. *)
Definition full_build_selected (a : Args.t) : Prop :=
  Args.output a = false /\ Args.test a = false /\ Args.source a = false.

(** The state in which [build.build] has raised [error_str] and the
    messages for the candidates [cands] are printed. *)
Definition after_failed_build (g2 : Globals W Meta) (w4 : W) (m : Meta)
  (dep_pkg : string) (cands : list string) : Globals W Meta :=
  mkGlobals w4 (config g2) (fst (build_mode (args g2)))
    (trace g2 ++ EvBuild m (snd (build_mode (args g2)))
       :: map (fun _ => EvPrint (missing_message dep_pkg)) cands).

End Conditions.

(** ** Scenarios in the concrete world *)

Module Scenario.
Import Sim.

Local Open Scope string_scope.

(** [A] needs the package [c], whose recipe is the directory [c]; [B]
    needs nothing. *)
Definition abc : World :=
  mkWorld [mkRecipe "A" "a" ["c >=1.0"] None;
           mkRecipe "B" "b" [] None;
           mkRecipe "c" "c" [] None]
          [] ["A"; "B"; "c"] [].

(** [A] needs the package [zlib], for which there is no recipe. *)
Definition orphan : World :=
  mkWorld [mkRecipe "A" "a" ["zlib"] None;
           mkRecipe "B" "b" [] None]
          [] ["A"; "B"] [].

End Scenario.

Module Cycle.
Import Sim.

Local Open Scope string_scope.

(** Two recipes that need each other: the build of [a] asks for the
    package [b] and the build of [b] for the package [a]; both recipe
    directories are in the current directory. *)
Definition cycle : World :=
  mkWorld [mkRecipe "a" "a" ["b"] None;
           mkRecipe "b" "b" ["a"] None]
          [] ["a"; "b"] [].

Definition request : Args.t := default_args ["a"].

Definition state (tr : list (Event Recipe)) : Globals World Recipe :=
  mkGlobals cycle default_config request tr.

Definition other (arg : string) : string :=
  if String.eqb arg "a" then "b" else "a".

End Cycle.

(** ** Events and outcome of a computation *)

Section Outcomes.
Context {W Meta : Type}.

(** The events of a computation all satisfy [P], however it ends. *)
Definition emits_only (P : Event Meta -> Prop) {A} (m : @M W Meta A) : Prop :=
  forall g g' r, m g = (g', r) ->
    exists evs, trace g' = trace g ++ evs /\ Forall P evs.

(** A computation that returns has emitted events [evs] and returned a
    value [a] with [Q evs a]. *)
Definition post {A} (m : @M W Meta A)
  (Q : list (Event Meta) -> A -> Prop) : Prop :=
  forall g g' a, m g = (g', inr a) ->
    exists evs, trace g' = trace g ++ evs /\ Q evs a.

Definition not_rmtree (e : Event Meta) : Prop :=
  match e with EvRmtree _ => False | _ => True end.

(** No directory is removed but [d], and [d] only if it is temporary. *)
Definition only_rmtree (nc : bool) (d : string) (e : Event Meta) : Prop :=
  match e with
  | EvRmtree d' => nc = true /\ d' = d
  | _ => True
  end.

(** What a pass that returns has done: either [already_built] is as it
    was, or it has one more element and, for a temporary recipe
    directory, the directory was removed during the pass. *)
Definition pass_outcome (nc : bool) (d : string) (already : list string)
  (evs : list (Event Meta)) (l' : Locals) : Prop :=
  already_built l' = already
  \/ ((exists x, already_built l' = already ++ [x])
      /\ (nc = true -> In (EvRmtree d) evs)).

End Outcomes.

Section Outcome_states.
Context {W Meta : Type} (E : Collab W Meta).

(** The state after the notice of lines 357: the task with metadata [m]
    was skipped as already built. *)
Definition skipped (g2 : Globals W Meta) (w3 : W) (m : Meta) : Globals W Meta :=
  mkGlobals w3 (config g2) (args g2)
    (trace g2 ++ [EvPrint (dist E (config g2) m ++ " is already built, skipping.")]).



(** The cleanup of lines 415-416 succeeds from [w4] and leaves [w5]. *)
Definition cleaned (d : string) (nc : bool) (w4 w5 : W) : Prop :=
  if nc then rmtree E d w4 = (w5, inr tt) else w5 = w4.


End Outcome_states.

Module Scenario2.
Import Sim.

Local Open Scope string_scope.

(** An archive whose recipe fails to build, with an error that is not
    a missing dependency. *)
Definition broken_archive : World :=
  mkWorld [mkRecipe "/tmp/A.tar" "a" [] (Some (RuntimeError "compiler crashed"))]
          ["A.tar"] ["A.tar"] [].

(** An archive whose recipe builds. *)
Definition good_archive : World :=
  mkWorld [mkRecipe "/tmp/A.tar" "a" [] None] ["A.tar"] ["A.tar"] [].

(** One recipe, given as a task as often as one likes. *)
Definition single : World :=
  mkWorld [mkRecipe "A" "a" [] None] [] ["A"] [].

(** [--skip-existing] *)
Definition skip_args (recipe : list string) : Args.t :=
  Args.mk recipe false (Some false) true false false false false false false
          true false [] [] [] [] [] false None None.

(** [--test --skip-existing] *)
Definition test_args (recipe : list string) : Args.t :=
  Args.mk recipe false (Some false) true false false true false false false
          true false [] [] [] [] [] false None None.

End Scenario2.

(** ** Conditions on the version axes *)

Definition lang_index (lang : Lang) : nat :=
  match lang with python => 0 | numpy => 1 | perl => 2 | R => 3 end.

(** [l] comes before [lang] in the loop of line 283. *)
Definition earlier (l lang : Lang) : Prop := lang_index l < lang_index lang.

(** The axis [lang] of [a] passes lines 284-308 without error and without
    expansion: it is not given, or it holds one value that reads as an
    integer, of two digits where the axis asks for it. *)
Definition accepted (a : Args.t) (lang : Lang) : Prop :=
  Args.getattr a lang = []
  \/ exists s v,
       Args.getattr a lang = [VStr s]
       /\ PyStr.int (PyStr.replace "." "" s) = Some v
       /\ (two_digit_axis lang = true -> String.length (PyStr.str v) = 2).

Section Expansion.
Context {W Meta : Type}.

(** [sub_runs rec lang versions todo g g']: the runs [rec] for the
    versions [todo], one after the other, each on [args] with the single
    value of its version for the axis [lang], have all returned, and [g']
    is the state after the last one. *)
Inductive sub_runs (rec : @Run W Meta) (lang : Lang) (versions : list Ver)
  : list Ver -> Globals W Meta -> Globals W Meta -> Prop :=
| sub_runs_nil g : sub_runs rec lang versions [] g g
| sub_runs_cons ver more g g1 u g' :
    rec (with_lang g lang [VStr (ver_str ver)]) = Some (g1, inr u) ->
    sub_runs rec lang versions more (with_lang g1 lang versions) g' ->
    sub_runs rec lang versions (ver :: more) g g'.

(** [failed_sub_run rec lang versions todo g g' e]: the runs for a
    proper prefix [done] of [todo] have returned and the next one has
    raised [e], leaving [g']; [skipped] are the versions never run. *)
Inductive failed_sub_run (rec : @Run W Meta) (lang : Lang) (versions : list Ver)
  : list Ver -> Globals W Meta -> Globals W Meta -> Exn -> Prop :=
| failed_here ver more g g' e :
    rec (with_lang g lang [VStr (ver_str ver)]) = Some (g', inl e) ->
    failed_sub_run rec lang versions (ver :: more) g g' e
| failed_later ver more g g1 u g' e :
    rec (with_lang g lang [VStr (ver_str ver)]) = Some (g1, inr u) ->
    failed_sub_run rec lang versions more (with_lang g1 lang versions) g' e ->
    failed_sub_run rec lang versions (ver :: more) g g' e.

End Expansion.

Module Scenario3.
Import Sim.

Local Open Scope string_scope.

(** [--python 2.7 --python 3.10] *)
Definition two_pythons (recipe : list string) : Args.t :=
  Args.mk recipe false (Some false) true false false false false false false
          false false [VStr "2.7"; VStr "3.10"] [] [] [] [] false None None.

(** [--python all] *)
Definition all_pythons (recipe : list string) : Args.t :=
  Args.mk recipe false (Some false) true false false false false false false
          false false [VStr "all"] [] [] [] [] false None None.

(** [--python 3.10] *)
Definition wide_python (recipe : list string) : Args.t :=
  Args.mk recipe false (Some false) true false false false false false false
          false false [VStr "3.10"] [] [] [] [] false None None.

(** [--perl 5.18.2] and [--perl 5.x] *)
Definition one_perl (v : string) (recipe : list string) : Args.t :=
  Args.mk recipe false (Some false) true false false false false false false
          false false [] [] [VStr v] [] [] false None None.

(** A recipe whose build fails. *)
Definition broken : World :=
  mkWorld [mkRecipe "A" "a" [] (Some (RuntimeError "compiler crashed"))]
          [] ["A"] [].

(** The number of runs that reached the loop under the lock. *)
Definition locked_runs (tr : list (Event Recipe)) : nat :=
  List.length (filter (fun e => match e with EvLocked => true | _ => false end) tr).

End Scenario3.

Section Axis_states.
Context {W Meta : Type}.

(** The state after [setattr(config, conda_version[lang], version)]. *)
Definition with_version (g : Globals W Meta) (lang : Lang) (version : Z)
  : Globals W Meta :=
  mkGlobals (world g) (Config.set (config g) lang version) (args g) (trace g).

(** The state in which only the world and [config] differ from [g]. *)
Definition with_world_config (g : Globals W Meta) (w : W) (c : Config.t)
  : Globals W Meta :=
  mkGlobals w c (args g) (trace g).

End Axis_states.

(** The axes from [lang] on, in the order of line 283. *)
Definition langs_from (lang : Lang) : list Lang :=
  match lang with
  | python => [python; numpy; perl; R]
  | numpy => [numpy; perl; R]
  | perl => [perl; R]
  | R => [R]
  end.

(** Some axis without known versions is asked for [all]. *)
Definition unsupported_all (a : Args.t) : Prop :=
  exists lang, all_versions lang = None /\ Args.getattr a lang = [VStr "all"].

Section No_event.
Context {W Meta : Type}.

(** The outcome of a run that ended from [g]: an error, and no new event. *)
Definition error_without_event (g : Globals W Meta)
  {A} (r : option (Globals W Meta * (Exn + A))) : Prop :=
  match r with
  | None => True
  | Some (g', r') => trace g' = trace g /\ exists e, r' = inl e
  end.

End No_event.

Section Keeps.
Context {W Meta : Type}.

(** A computation that leaves the world, [args] and the trace as they
    are, however it ends. *)
Definition keeps {A} (m : @M W Meta A) : Prop :=
  forall g g' r, m g = (g', r) ->
    world g' = world g /\ args g' = args g /\ trace g' = trace g.

End Keeps.

(** ** Names of candidate recipes *)

Module Pattern.

Definition is_digit (c : ascii) : bool :=
  Glob.ascii_le "0" c && Glob.ascii_le c "9".

Fixpoint all_chars (p : ascii -> bool) (s : string) : bool :=
  match s with
  | EmptyString => true
  | String c s' => p c && all_chars p s'
  end.

(** What the glob of line 392 asks of the text that follows the name of
    the dependency: a dash, then [v] or a digit, then a digit or a dot,
    then anything. *)
Definition glob_suffix (s : string) : bool :=
  match s with
  | String d (String c1 (String c2 _)) =>
      Ascii.eqb "-" d
      && (Ascii.eqb "v" c1 || is_digit c1)
      && (is_digit c2 || Ascii.eqb "." c2)
  | _ => false
  end.

(** The pattern in the words of the specification, [-v?[0-9][0-9.]*]
    read as a regular expression on the whole of the text that follows
    the name: a dash, an optional [v], a digit, then digits and dots. *)
Definition spec_suffix (s : string) : bool :=
  match s with
  | String d t =>
      Ascii.eqb "-" d
      && let t' := match t with
                   | String v u => if Ascii.eqb "v" v then u else t
                   | EmptyString => t
                   end in
         match t' with
         | String c u =>
             is_digit c && all_chars (fun x => is_digit x || Ascii.eqb "." x) u
         | EmptyString => false
         end
  | EmptyString => false
  end.

(** [name] is [dep] followed by a text that [suffix] accepts. *)
Definition matches (suffix : string -> bool) (dep name : string) : bool :=
  String.prefix dep name && suffix (Glob.drop (String.length dep) name).

(** A name without the magic characters of [glob] and without slash. *)
Definition plain (dep : string) : Prop :=
  Glob.has_magic dep = false /\ PyStr.contains "/" dep = false.

(** The items of the pattern [-[v0-9][0-9.]*]. *)
Definition version_items : list Glob.Item :=
  [Glob.ILit "-"; Glob.IClass false "v0-9"; Glob.IClass false "0-9."; Glob.IStar].

End Pattern.

Module Scenario4.
Import Sim.

Local Open Scope string_scope.

(** The current directory holds [foo-v.x] and [foo-1]. *)
Definition foo_dirs : World :=
  mkWorld [] [] ["foo-v.x"; "foo-1"] [].

(** The current directory holds [foo-1.2], [foo-v2], [foo] and others. *)
Definition foo_recipes : World :=
  mkWorld [] [] ["foo-1.2"; "bar-1.0"; "foo-v2"; "foo"; "foobar-1.0"] [].

End Scenario4.

(** ** Further conditions and observations *)

Section Observations.
Context {W Meta : Type}.

(** A computation that relates the state it starts from to the state it
    leaves by [R], however it ends. *)
Definition preserves (R : Globals W Meta -> Globals W Meta -> Prop)
  {A} (m : @M W Meta A) : Prop :=
  forall g g' r, m g = (g', r) -> R g g'.

(** The events of the work on one task: all but those of the index and
    of the lock. *)
Definition task_event (e : Event Meta) : Prop :=
  match e with
  | EvUpdateIndex | EvLocked | EvUnlocked => False
  | _ => True
  end.

(** The events that neither build, test, fetch, remove nor upload. *)
Definition quiet_event (e : Event Meta) : Prop :=
  match e with
  | EvPrint _ | EvStderr _ | EvUnpack _ => True
  | _ => False
  end.

(** The lock along a trace: [held] tells whether it is held at the start.
    The result is [None] when the lock is taken while held or released
    while free, or when a recipe is unpacked, built, tested, fetched,
    removed or uploaded while the lock is free; else it tells whether the
    lock is held at the end. *)
Fixpoint lock_after (held : bool) (tr : list (Event Meta)) : option bool :=
  match tr with
  | [] => Some held
  | EvLocked :: more => if held then None else lock_after true more
  | EvUnlocked :: more => if held then lock_after false more else None
  | (EvUnpack _ | EvBuild _ _ | EvTest _ | EvProvide _ | EvRmtree _
     | EvUpload _) :: more =>
      if held then lock_after true more else None
  | (EvPrint _ | EvStderr _ | EvUpdateIndex) :: more => lock_after held more
  end.

(** The state differs from [g] by the events [evs] only in its trace. *)
Definition with_events (g : Globals W Meta) (evs : list (Event Meta))
  : Globals W Meta :=
  mkGlobals (world g) (config g) (args g) (trace g ++ evs).

End Observations.

Section Returns.
Context {W Meta : Type}.

(** The values that a computation can return satisfy [Q]. *)
Definition returns {A} (Q : A -> Prop) (m : @M W Meta A) : Prop :=
  forall g g' a, m g = (g', inr a) -> Q a.

(** What a pass can make of the deque [arg :: rest]: the task is gone
    and the rest is as it was, or candidates have been put before the
    task, which is still there and not recorded as built. *)
Definition deque_outcome (arg : string) (rest already : list string)
  (l' : Locals) : Prop :=
  recipes l' = rest
  \/ exists cands,
       cands <> []
       /\ recipes l' = rev cands ++ arg :: rest
       /\ already_built l' = already.

(** Some mode other than the full build is asked for. *)
Definition without_build (a : Args.t) : bool :=
  Args.check a || Args.output a || Args.test a || Args.source a.

End Returns.

Section Unrecorded_def.
Context {Meta : Type}.

(** No removal when [already_built] is as it was. *)
Definition unrecorded (already : list string) (evs : list (Event Meta))
  (l' : Locals) : Prop :=
  already_built l' = already -> Forall not_rmtree evs.

End Unrecorded_def.

(** The part of [args] that the scheduler never writes: all the fields
    but [notest], [binstar_upload], [yes] and [dry_run]. *)
Definition request_of (a : Args.t) : Args.t :=
  Args.mk (Args.recipe a) (Args.check a) None (Args.include_recipe a)
          (Args.output a) (Args.source a) (Args.test a) false
          (Args.build_only a) (Args.post a) (Args.skip_existing a)
          (Args.quiet a) (Args.py a) (Args.npy a) (Args.pl a) (Args.r a)
          (Args.channel a) (Args.override_channels a) None None.

Section Frames.
Context {W Meta : Type}.

(** What the loop over the tasks may change in [config] and [args]:
    [noarch] from false to true, and in [args] the four fields that
    [request_of] leaves out. *)
Definition loop_frame (g g' : Globals W Meta) : Prop :=
  (forall lang, Config.get (config g') lang = Config.get (config g) lang)
  /\ (Config.noarch (config g) = true -> Config.noarch (config g') = true)
  /\ request_of (args g') = request_of (args g).

(** The events that need no lock. *)
Definition idle_event (e : Event Meta) : Prop :=
  match e with EvPrint _ | EvStderr _ | EvUpdateIndex => True | _ => False end.

(** From [g] to [g'] the trace has only grown, by events in which the
    lock, free at first, is free at the end, was never taken twice
    without a release in between, and was held at each piece of work on
    a recipe. *)
Definition lock_balanced (g g' : Globals W Meta) : Prop :=
  exists evs, trace g' = trace g ++ evs /\ lock_after false evs = Some false.

End Frames.

Section Build_states.
Context {W Meta : Type} (E : Collab W Meta).

(** An error of [build.build] from which the loop recovers: the
    [RuntimeError] of a missing dependency. *)
Definition recoverable (e : Exn) : bool :=
  match e with
  | RuntimeError error_str => is_missing_dependency error_str
  | _ => false
  end.

(** The state in which [build.build] has just been called on [m] and
    has left the world [w4]. *)
Definition after_build (g : Globals W Meta) (w4 : W) (m : Meta) : Globals W Meta :=
  mkGlobals w4 (config g) (fst (build_mode (args g)))
    (trace g ++ [EvBuild m (snd (build_mode (args g)))]).

(** The test that follows a build, lines 410-412, succeeds from [w4] and
    leaves [w5] and the events [evs]; [a] is [args] at that point. *)
Definition tested (a : Args.t) (c : Config.t) (m : Meta) (w4 w5 : W)
  (evs : list (Event Meta)) : Prop :=
  if Args.notest a then w5 = w4 /\ evs = []
  else build_test E c a m w4 = (w5, inr tt) /\ evs = [EvTest m].

End Build_states.

Module Scenario5.
Import Sim.

Local Open Scope string_scope.

(** An archive whose recipe needs the package [c]; the recipe of [c] is
    in the current directory. *)
Definition archive_needs_c : World :=
  mkWorld [mkRecipe "/tmp/A.tar" "a" ["c"] None; mkRecipe "c" "c" [] None]
          ["A.tar"] ["A.tar"; "c"] [].

(** A recipe whose build fails with an error without colon. *)
Definition no_colon : World :=
  mkWorld [mkRecipe "A" "a" [] (Some (RuntimeError "No packages found"))]
          [] ["A"] [].

(** A recipe whose metadata does not parse, and what [MetaData] does
    with it. *)
Definition bad_yaml : Collab World Recipe := {|
  isfile := isfile collab;
  isdir := fun _ _ => true;
  path_exists := path_exists collab;
  abspath := abspath collab;
  listdir_cwd := listdir_cwd collab;
  glob_other := glob_other collab;
  unpack := unpack collab;
  rmtree := rmtree collab;
  startup := startup collab;
  MetaData := fun _ dir w =>
    (w, inl (YamlParsingError ("Error: Invalid yaml in " ++ dir)));
  noarch_python := noarch_python collab;
  m_path := m_path collab;
  check_fields := check_fields collab;
  pkg_fn := pkg_fn collab;
  dist := dist collab;
  bldpkg_path := bldpkg_path collab;
  build_build := build_build collab;
  build_test := build_test collab;
  source_provide := source_provide collab;
  update_index := update_index collab;
  get_build_index := get_build_index collab;
  lock_acquire := lock_acquire collab;
  lock_release := lock_release collab;
  find_executable := find_executable collab;
  subprocess_call := subprocess_call collab
|}.

(** A file that is no archive, beside the recipe [B]. *)
Definition readme : World :=
  mkWorld [mkRecipe "B" "b" [] None] ["README.txt"] ["README.txt"; "B"] [].

(** [--check] *)
Definition check_args (recipe : list string) : Args.t :=
  Args.mk recipe true (Some false) true false false false false false false
          false false [] [] [] [] [] false None None.

(** [--build-only] *)
Definition build_only_args (recipe : list string) : Args.t :=
  Args.mk recipe false (Some true) true false false false false true false
          false false [] [] [] [] [] false None None.

(** An upload is asked for ([binstar_upload: yes] in the configuration). *)
Definition upload_args (recipe : list string) : Args.t :=
  Args.mk recipe false (Some true) true false false false false false false
          false false [] [] [] [] [] false None None.

End Scenario5.

(** ** The completers of the command line *)

(** [PythonVersionCompleter._get_items] and
    [NumPyVersionCompleter._get_items]:
    [['all'] + [str(i/10) for i in all_versions[...]]]. *)
Definition offered_versions (lang : Lang) : list string :=
  "all" :: map tenth (match all_versions lang with Some l => l | None => [] end).

Definition PythonVersionCompleter : list string := offered_versions python.

Definition NumPyVersionCompleter : list string := offered_versions numpy.

(** [RVersionsCompleter._get_items] *)
Definition RVersionsCompleter : list string :=
  ["3.1.2"; "3.1.3"; "3.2.0"; "3.2.1"].

(** The completions that the parser offers for the axis [lang]; [--perl]
    has none. *)
Definition completions (lang : Lang) : list string :=
  match lang with
  | python => PythonVersionCompleter
  | numpy => NumPyVersionCompleter
  | perl => []
  | R => RVersionsCompleter
  end.

Section Index_states.
Context {W Meta : Type}.

Definition not_index (e : Event Meta) : Prop :=
  match e with EvUpdateIndex => False | _ => True end.

(** From [g] to [g'], [--skip-existing] is as it was and, where it is
    not given, the trace has grown by events none of which is an update
    of the index. *)
Definition index_untouched (g g' : Globals W Meta) : Prop :=
  Args.skip_existing (args g') = Args.skip_existing (args g)
  /\ (Args.skip_existing (args g) = false ->
      exists evs, trace g' = trace g ++ evs /\ Forall not_index evs).

End Index_states.

(** * Properties *)

(** ** The string and glob models on examples *)

Example split_colon :
  PyStr.split ": " "No packages found in current linux-64 channels matching: foo >=1.0"
  = ["No packages found in current linux-64 channels matching"; "foo >=1.0"].
Proof. reflexivity. Qed.

Example split_overlap : PyStr.split "aa" "aaa" = [""; "a"].
Proof. reflexivity. Qed.

Example replace_dots : PyStr.replace "." "" "3.1.2" = "312".
Proof. reflexivity. Qed.

Example int_310 : PyStr.int (PyStr.replace "." "" "3.10") = Some 310%Z.
Proof. reflexivity. Qed.

Example int_bad : PyStr.int "3x" = None.
Proof. reflexivity. Qed.

(** What [int] reads beyond plain digits: a sign, white space around, one
    underscore between two digits, the digits and the spaces of other
    scripts (here ARABIC-INDIC DIGIT THREE and FOUR, U+0663 and U+0664,
    and NO-BREAK SPACE, U+00A0), and no more than 4300 digits. *)
Example int_signed : PyStr.int " -7 " = Some (-7)%Z.
Proof. vm_compute. reflexivity. Qed.

Example int_sign_then_space : PyStr.int "- 7" = None.
Proof. vm_compute. reflexivity. Qed.

Example int_underscore : PyStr.int "5_18" = Some 518%Z.
Proof. vm_compute. reflexivity. Qed.

Example int_underscores :
  PyStr.int "5__18" = None /\ PyStr.int "_518" = None /\ PyStr.int "518_" = None.
Proof. vm_compute. repeat split; reflexivity. Qed.

Example int_other_script :
  PyStr.int (PyStr.of_bytes [217; 163; 217; 164]%Z) = Some 34%Z.
Proof. vm_compute. reflexivity. Qed.

Example int_no_break_space :
  PyStr.int (PyStr.of_bytes [51; 52; 194; 160]%Z) = Some 34%Z.
Proof. vm_compute. reflexivity. Qed.

Example int_separator_is_no_space : PyStr.int (PyStr.of_bytes [28; 53]%Z) = None.
Proof. vm_compute. reflexivity. Qed.

Example int_overlong_digit : PyStr.int (PyStr.of_bytes [192; 181]%Z) = None.
Proof. vm_compute. reflexivity. Qed.

Example int_digit_limit :
  PyStr.int (string_of_list_ascii (repeat "0"%char 4300)) = Some 0%Z
  /\ PyStr.int (string_of_list_ascii (repeat "0"%char 4301)) = None.
Proof. vm_compute. split; reflexivity. Qed.

Example str_34 : PyStr.str 34 = "34".
Proof. reflexivity. Qed.

Example endswith_tgz : PyStr.endswith "pkg.tar.gz" ".tar.gz" = true.
Proof. reflexivity. Qed.

Example translate_version_glob :
  Glob.translate "foo-[v0-9][0-9.]*"
  = [Glob.ILit "f"; Glob.ILit "o"; Glob.ILit "o"; Glob.ILit "-";
     Glob.IClass false "v0-9"; Glob.IClass false "0-9."; Glob.IStar].
Proof. reflexivity. Qed.

Example glob1_versions :
  Glob.glob1 ["foo-1.2"; "foo-v1"; "foo-1"; "foo"; "foo-v.x"; "bar-1.0"; "foo-x1"]
             "foo-[v0-9][0-9.]*"
  = ["foo-1.2"; "foo-v1"; "foo-v.x"].
Proof. reflexivity. Qed.

(** ** One pass of the loop, step by step *)

Section Passes.
Context {W Meta : Type} (E : Collab W Meta).

Lemma iteration_act index arg rest already g g2 d nc m :
  resolves_to E arg g d nc m g2 ->
  iteration E index arg rest already g = act E m arg d nc index rest already g2.
Proof.
  intros (g1 & H1 & H2 & H3). unfold iteration, bind at 1. rewrite H1.
  unfold bind at 1. unfold ask at 1. rewrite H2. cbn [negb].
  unfold bind at 1. rewrite H3. reflexivity.
Qed.

Lemma act_full_build index arg rest already g2 w3 d nc m :
  passes_checks E index already m g2 w3 ->
  full_build_selected (args g2) ->
  act E m arg d nc index rest already g2
  = full_build E m arg d nc rest already (with_world g2 w3).
Proof.
  intros (Hc & Hf & Hs) (Ho & Ht & Hsrc).
  destruct g2 as [w c a tr]; cbn in *.
  unfold act, bind, get_args, get_config, when, call, ret; cbn.
  rewrite Hc; cbn. rewrite Hf; cbn. rewrite Hs, Ho, Ht, Hsrc. reflexivity.
Qed.

Lemma requeue_eq dep cands q (g : Globals W Meta) :
  requeue dep cands q g =
  (mkGlobals (world g) (config g) (args g)
     (trace g ++ map (fun _ => EvPrint (missing_message dep)) cands),
   inr (rev cands ++ q)).
Proof.
  revert q g. induction cands as [|c cands IH]; intros q g.
  - destruct g; cbn. rewrite app_nil_r. reflexivity.
  - cbn [requeue]. unfold bind, emit. rewrite IH. cbn.
    rewrite <- !app_assoc. reflexivity.
Qed.

(** Pushing the candidates one by one on the left of the deque leaves
    them in the reverse of the order of discovery. *)
Lemma push_left_rev (cands q : list string) :
  fold_left (fun q' c => c :: q') cands q = rev cands ++ q.
Proof.
  revert q. induction cands as [|c cands IH]; intro q; cbn; [reflexivity|].
  rewrite IH, <- app_assoc. reflexivity.
Qed.

(** The full build when [build.build] raises the error of a missing
    dependency for which recipes are found. *)
Lemma full_build_requeue m arg d nc rest already g w4 error_str field cands :
  build_build E (config g) (fst (build_mode (args g))) (snd (build_mode (args g)))
    m (world g) = (w4, inl (RuntimeError error_str)) ->
  is_missing_dependency error_str = true ->
  nth_error (PyStr.split ": " error_str) 1 = Some field ->
  find_recipes E w4 (dep_name field) = cands ->
  cands <> [] ->
  full_build E m arg d nc rest already g
  = (after_failed_build g w4 m (dep_name field) cands,
     inr (mkLocals (rev cands ++ arg :: rest) already)).
Proof.
  intros Hb Hm Hn Hf Hne.
  destruct g as [w c a tr]; cbn in *.
  unfold full_build, build_or_requeue, bind, get_args, set_args, get_config,
    emit, catch, call, ask, ret, raise; cbn.
  rewrite Hb; cbn. rewrite Hm, Hn; cbn. rewrite Hf.
  destruct cands as [|c0 cands]; [congruence|].
  rewrite requeue_eq. cbn. unfold after_failed_build; cbn.
  rewrite <- !app_assoc. reflexivity.
Qed.

(** The same when no recipe is found: the error is raised again. *)
Lemma full_build_reraise m arg d nc rest already g w4 error_str field :
  build_build E (config g) (fst (build_mode (args g))) (snd (build_mode (args g)))
    m (world g) = (w4, inl (RuntimeError error_str)) ->
  is_missing_dependency error_str = true ->
  nth_error (PyStr.split ": " error_str) 1 = Some field ->
  find_recipes E w4 (dep_name field) = [] ->
  full_build E m arg d nc rest already g
  = (after_failed_build g w4 m (dep_name field) [],
     inl (RuntimeError error_str)).
Proof.
  intros Hb Hm Hn Hf.
  destruct g as [w c a tr]; cbn in *.
  unfold full_build, build_or_requeue, bind, get_args, set_args, get_config,
    emit, catch, call, ask, ret, raise; cbn.
  rewrite Hb; cbn. rewrite Hm, Hn; cbn. rewrite Hf. reflexivity.
Qed.

End Passes.

(** ** Rediscovery of a missing dependency *)

Section Rediscovery.
Context {W Meta : Type} (E : Collab W Meta).

(** C1: when the deque holds [A :: rest] and the build of [A] raises the
    error of a missing dependency for which the candidates [cands] are
    found (at least one), the pass puts [A] back on the left of the deque
    and then each candidate on the left of it, in the order of discovery.
    The deque is then the candidates, last found first, followed by [A]
    and by [rest] unchanged, so each candidate is attempted before [A] is
    retried; with one candidate [C] it is [C :: A :: rest].  [A] is not
    recorded as built, and the loop goes on from that deque. *)
Theorem requeue_dependencies_first
  index A rest already g d nc m g2 w3 w4 error_str field cands fuel :
  resolves_to E A g d nc m g2 ->
  passes_checks E index already m g2 w3 ->
  full_build_selected (args g2) ->
  build_build E (config g2) (fst (build_mode (args g2)))
    (snd (build_mode (args g2))) m w3 = (w4, inl (RuntimeError error_str)) ->
  is_missing_dependency error_str = true ->
  nth_error (PyStr.split ": " error_str) 1 = Some field ->
  find_recipes E w4 (dep_name field) = cands ->
  cands <> [] ->
  let g4 := after_failed_build g2 w4 m (dep_name field) cands in
  let queue := fold_left (fun q c => c :: q) cands (A :: rest) in
  iteration E index A rest already g = (g4, inr (mkLocals queue already))
  /\ queue = rev cands ++ A :: rest
  /\ (forall C, cands = [C] -> queue = C :: A :: rest)
  /\ while_recipes E (S fuel) index (mkLocals (A :: rest) already) g
     = while_recipes E fuel index (mkLocals queue already) g4.
Proof.
  intros Hr Hp Hs Hb Hm Hn Hf Hne g4 queue.
  assert (Hq : queue = rev cands ++ A :: rest) by apply push_left_rev.
  assert (Hi : iteration E index A rest already g
               = (g4, inr (mkLocals queue already))).
  { rewrite (iteration_act E _ _ _ _ _ _ _ _ _ Hr).
    rewrite (act_full_build E _ _ _ _ _ _ _ _ _ Hp Hs).
    rewrite Hq.
    apply (full_build_requeue E m A d nc rest already (with_world g2 w3) w4
             error_str field cands); assumption. }
  repeat split.
  - exact Hi.
  - exact Hq.
  - intros C HC. rewrite Hq, HC. reflexivity.
  - cbn [while_recipes recipes already_built]. rewrite Hi. reflexivity.
Qed.

(** C6: when the build raises the error of a missing dependency and
    neither the glob nor the name itself finds a recipe, the pass raises
    the same error again; the loop ends with it, and nothing of the tasks
    [rest] still in the deque is attempted: the only event after the
    resolution of [A] is its build. *)
Theorem missing_dependency_without_recipe_is_fatal
  index A rest already g d nc m g2 w3 w4 error_str field fuel :
  resolves_to E A g d nc m g2 ->
  passes_checks E index already m g2 w3 ->
  full_build_selected (args g2) ->
  build_build E (config g2) (fst (build_mode (args g2)))
    (snd (build_mode (args g2))) m w3 = (w4, inl (RuntimeError error_str)) ->
  is_missing_dependency error_str = true ->
  nth_error (PyStr.split ": " error_str) 1 = Some field ->
  glob E w4 (dep_name field ++ "-[v0-9][0-9.]*") = [] ->
  path_exists E w4 (dep_name field) = false ->
  exists g4,
    while_recipes E (S fuel) index (mkLocals (A :: rest) already) g
    = Some (g4, inl (RuntimeError error_str))
    /\ trace g4 = trace g2 ++ [EvBuild m (snd (build_mode (args g2)))]
    /\ world g4 = w4.
Proof.
  intros Hr Hp Hs Hb Hm Hn Hg He.
  exists (after_failed_build g2 w4 m (dep_name field) []).
  split; [|split; reflexivity].
  cbn [while_recipes recipes already_built].
  rewrite (iteration_act E _ _ _ _ _ _ _ _ _ Hr).
  rewrite (act_full_build E _ _ _ _ _ _ _ _ _ Hp Hs).
  rewrite (full_build_reraise E m A d nc rest already (with_world g2 w3) w4
             error_str field); try assumption; [reflexivity|].
  unfold find_recipes. rewrite Hg, He. reflexivity.
Qed.

End Rediscovery.

Lemma requeue_dependencies_first_witness :
  iteration Sim.collab [] "A" ["B"] []
    (Sim.start Scenario.abc (Sim.default_args ["A"; "B"]))
  = (after_failed_build (Sim.start Scenario.abc (Sim.default_args ["A"; "B"]))
       Scenario.abc (Sim.mkRecipe "A" "a" ["c >=1.0"] None) "c" ["c"],
     inr (mkLocals ["c"; "A"; "B"] [])).
Proof.
  refine (proj1 (requeue_dependencies_first Sim.collab [] "A" ["B"] []
    (Sim.start Scenario.abc (Sim.default_args ["A"; "B"])) "A" false
    (Sim.mkRecipe "A" "a" ["c >=1.0"] None)
    (Sim.start Scenario.abc (Sim.default_args ["A"; "B"]))
    Scenario.abc Scenario.abc
    "No packages found in current linux-64 channels matching: c >=1.0"
    "c >=1.0" ["c"] 0 _ _ _ _ _ _ _ _)).
  - exists (Sim.start Scenario.abc (Sim.default_args ["A"; "B"])).
    repeat split; vm_compute; reflexivity.
  - repeat split; vm_compute; reflexivity.
  - repeat split; vm_compute; reflexivity.
  - vm_compute; reflexivity.
  - vm_compute; reflexivity.
  - vm_compute; reflexivity.
  - vm_compute; reflexivity.
  - discriminate.
Defined.

Lemma missing_dependency_without_recipe_is_fatal_witness :
  exists g4,
    while_recipes Sim.collab 1 [] (mkLocals ["A"; "B"] [])
      (Sim.start Scenario.orphan (Sim.default_args ["A"; "B"]))
    = Some (g4, inl (RuntimeError
        "No packages found in current linux-64 channels matching: zlib"))
    /\ trace g4 = [EvBuild (Sim.mkRecipe "A" "a" ["zlib"] None) None]
    /\ world g4 = Scenario.orphan.
Proof.
  refine (missing_dependency_without_recipe_is_fatal Sim.collab [] "A" ["B"] []
    (Sim.start Scenario.orphan (Sim.default_args ["A"; "B"])) "A" false
    (Sim.mkRecipe "A" "a" ["zlib"] None)
    (Sim.start Scenario.orphan (Sim.default_args ["A"; "B"]))
    Scenario.orphan Scenario.orphan
    "No packages found in current linux-64 channels matching: zlib"
    "zlib" 0 _ _ _ _ _ _ _ _).
  - exists (Sim.start Scenario.orphan (Sim.default_args ["A"; "B"])).
    repeat split; vm_compute; reflexivity.
  - repeat split; vm_compute; reflexivity.
  - repeat split; vm_compute; reflexivity.
  - vm_compute; reflexivity.
  - vm_compute; reflexivity.
  - vm_compute; reflexivity.
  - vm_compute; reflexivity.
  - vm_compute; reflexivity.
Defined.

(** The whole run of the scenario [abc] on the tasks [A; B]: the builds
    are attempted in the order [A] (which fails), [c], [A], [B]. *)
Example abc_processing_order :
  option_map (fun r => (Sim.builds (trace (fst r)), snd r))
    (execute Sim.collab 1 4
       (Sim.start Scenario.abc (Sim.default_args ["A"; "B"])))
  = Some (["A"; "c"; "A"; "B"], inr tt).
Proof. vm_compute. reflexivity. Qed.

(** ** A circular dependency *)

Lemma cycle_pass arg rest already tr :
  arg = "a" \/ arg = "b" ->
  exists tr',
    iteration Sim.collab [] arg rest already (Cycle.state tr)
    = (Cycle.state tr', inr (mkLocals (Cycle.other arg :: arg :: rest) already)).
Proof.
  intros [-> | ->]; unfold Cycle.state; vm_compute; eexists; reflexivity.
Qed.

Lemma cycle_loop fuel :
  forall arg rest already tr,
    arg = "a" \/ arg = "b" ->
    while_recipes Sim.collab fuel [] (mkLocals (arg :: rest) already)
      (Cycle.state tr) = None.
Proof.
  induction fuel as [|fuel IH]; intros arg rest already tr Harg.
  - reflexivity.
  - cbn [while_recipes recipes already_built].
    destruct (cycle_pass arg rest already tr Harg) as [tr' ->].
    apply IH. unfold Cycle.other.
    destruct Harg as [-> | ->]; cbn; auto.
Qed.

(** C8: there is no cycle detection.  In the scenario [cycle] the build
    of [a] fails for want of [b], the build of [b] fails for want of [a],
    and a recipe directory is found for each: every pass puts the failed
    task back behind the other one, the [while] loop is still running
    after any number of passes, and [execute] never returns. *)
Theorem circular_dependency_never_terminates :
  (forall w, Sim.built w = [] ->
     Sim.build (Sim.mkRecipe "a" "a" ["b"] None) w = (w, inl (Sim.missing_error "b"))
     /\ Sim.build (Sim.mkRecipe "b" "b" ["a"] None) w = (w, inl (Sim.missing_error "a")))
  /\ find_recipes Sim.collab Cycle.cycle "a" = ["a"]
  /\ find_recipes Sim.collab Cycle.cycle "b" = ["b"]
  /\ (forall fuel,
        while_recipes Sim.collab fuel [] (mkLocals ["a"] []) (Cycle.state []) = None)
  /\ (forall depth fuel,
        execute Sim.collab depth fuel (Sim.start Cycle.cycle Cycle.request) = None).
Proof.
  split; [|split; [|split; [|split]]].
  - intros w Hw. unfold Sim.build, Sim.unmet; cbn. rewrite Hw. split; reflexivity.
  - reflexivity.
  - reflexivity.
  - intro fuel. apply cycle_loop. auto.
  - intros [|depth] fuel; [reflexivity|].
    cbn -[while_recipes].
    change (mkGlobals Cycle.cycle Sim.default_config Cycle.request [EvLocked])
      with (Cycle.state [EvLocked]).
    rewrite cycle_loop by auto. reflexivity.
Qed.

(** ** Events of the scheduler functions *)

Section MonadFacts.
Context {W Meta : Type}.
Local Abbreviation M := (@M W Meta).
Local Abbreviation emits_only P m := (@emits_only W Meta P _ m).

Lemma bind_ok {A B} (m : M A) (k : A -> M B) g g' b :
  bind m k g = (g', inr b) ->
  exists g1 a, m g = (g1, inr a) /\ k a g1 = (g', inr b).
Proof.
  unfold bind. destruct (m g) as [g1 [e|a]]; intro H; [discriminate|eauto].
Qed.

Lemma emits_only_silent P {A} (m : M A) :
  (forall g g' r, m g = (g', r) -> trace g' = trace g) -> emits_only P m.
Proof.
  intros H g g' r Hm. exists []. rewrite app_nil_r. split; [eauto|constructor].
Qed.

Lemma emits_only_ret P {A} (a : A) : emits_only P (ret a).
Proof. apply emits_only_silent. intros g g' r [= <- _]. reflexivity. Qed.

Lemma emits_only_raise P {A} e : emits_only P (@raise W Meta A e).
Proof. apply emits_only_silent. intros g g' r [= <- _]. reflexivity. Qed.

Lemma emits_only_ask P {A} (f : W -> A) : emits_only P (ask f).
Proof. apply emits_only_silent. intros g g' r [= <- _]. reflexivity. Qed.

Lemma emits_only_call P {A} (f : Eff W A) : emits_only P (call f).
Proof.
  apply emits_only_silent. intros g g' r. unfold call.
  destruct (f (world g)). intros [= <- _]. reflexivity.
Qed.

Lemma emits_only_get_args P : emits_only P get_args.
Proof. apply emits_only_silent. intros g g' r [= <- _]. reflexivity. Qed.

Lemma emits_only_set_args P a : emits_only P (set_args a).
Proof. apply emits_only_silent. intros g g' r [= <- _]. reflexivity. Qed.

Lemma emits_only_get_config P : emits_only P get_config.
Proof. apply emits_only_silent. intros g g' r [= <- _]. reflexivity. Qed.

Lemma emits_only_set_config P c : emits_only P (set_config c).
Proof. apply emits_only_silent. intros g g' r [= <- _]. reflexivity. Qed.

Lemma emits_only_emit (P : Event Meta -> Prop) e : P e -> emits_only P (emit e).
Proof.
  intros He g g' r [= <- _]. exists [e]. split; [reflexivity|]. repeat constructor. exact He.
Qed.

Lemma emits_only_bind P {A B} (m : M A) (k : A -> M B) :
  emits_only P m -> (forall a, emits_only P (k a)) -> emits_only P (bind m k).
Proof.
  intros Hm Hk g g' r. unfold bind.
  destruct (m g) as [g1 [e|a]] eqn:E1.
  - intros [= <- _]. eapply Hm; eauto.
  - intro E2. destruct (Hm _ _ _ E1) as (ev1 & T1 & F1).
    destruct (Hk a _ _ _ E2) as (ev2 & T2 & F2).
    exists (ev1 ++ ev2). rewrite T2, T1, app_assoc. split; [reflexivity|].
    apply Forall_app; auto.
Qed.

Lemma emits_only_catch P {A} (m : M A) (h : Exn -> M A) :
  emits_only P m -> (forall e, emits_only P (h e)) -> emits_only P (catch m h).
Proof.
  intros Hm Hh g g' r. unfold catch.
  destruct (m g) as [g1 [e|a]] eqn:E1.
  - intro E2. destruct (Hm _ _ _ E1) as (ev1 & T1 & F1).
    destruct (Hh e _ _ _ E2) as (ev2 & T2 & F2).
    exists (ev1 ++ ev2). rewrite T2, T1, app_assoc. split; [reflexivity|].
    apply Forall_app; auto.
  - intros [= <- _]. eapply Hm; eauto.
Qed.

Lemma emits_only_when P b (m : M unit) :
  emits_only P m -> emits_only P (when b m).
Proof. destruct b; cbn; [auto|]. intros _. apply emits_only_ret. Qed.

End MonadFacts.

Ltac emits_step :=
  lazymatch goal with
  | |- emits_only _ (ret _) => apply emits_only_ret
  | |- emits_only _ (raise _) => apply emits_only_raise
  | |- emits_only _ (ask _) => apply emits_only_ask
  | |- emits_only _ (call _) => apply emits_only_call
  | |- emits_only _ get_args => apply emits_only_get_args
  | |- emits_only _ (set_args _) => apply emits_only_set_args
  | |- emits_only _ get_config => apply emits_only_get_config
  | |- emits_only _ (set_config _) => apply emits_only_set_config
  | |- emits_only _ (when _ _) => unfold when; cbv iota
  | |- emits_only _ (bind _ _) => apply emits_only_bind; [|intro]
  | |- emits_only _ (catch _ _) => apply emits_only_catch; [|intro]
  | |- emits_only _ (emit _) => apply emits_only_emit
  | |- emits_only _ (if ?b then _ else _) => destruct b
  | |- emits_only _ (match ?x with _ => _ end) => destruct x
  end.

Section Facts.
Context {W Meta : Type} (E : Collab W Meta).
Local Abbreviation M := (@M W Meta).
Local Abbreviation emits_only P m := (@emits_only W Meta P _ m).
Local Abbreviation post m Q := (@post W Meta _ m Q).
Local Abbreviation pass_outcome := (@pass_outcome Meta).

Lemma emits_only_weaken (P Q : Event Meta -> Prop) {A} (m : M A) :
  (forall e, P e -> Q e) -> emits_only P m -> emits_only Q m.
Proof.
  intros HPQ Hm g g' r Hr. destruct (Hm _ _ _ Hr) as (evs & T & F).
  exists evs. split; [exact T|]. eapply Forall_impl; eauto.
Qed.

Lemma resolve_emits P arg :
  (forall e : Event Meta, not_rmtree e -> P e) ->
  emits_only P (resolve E arg).
Proof.
  intro HP. unfold resolve. repeat emits_step; apply HP; exact I.
Qed.

Lemma load_metadata_emits P d :
  (forall e : Event Meta, not_rmtree e -> P e) ->
  emits_only P (load_metadata E d).
Proof.
  intro HP. unfold load_metadata. repeat emits_step; apply HP; exact I.
Qed.

Lemma requeue_emits P dep cands q :
  (forall e : Event Meta, not_rmtree e -> P e) ->
  emits_only P (requeue dep cands q).
Proof.
  intro HP. revert q. induction cands as [|c cands IH]; intro q; cbn [requeue].
  - apply emits_only_ret.
  - apply emits_only_bind; [apply emits_only_emit, HP; exact I|intro; apply IH].
Qed.

Lemma handle_upload_emits P path :
  (forall e : Event Meta, not_rmtree e -> P e) ->
  emits_only P (handle_binstar_upload E path).
Proof. intro HP. unfold handle_binstar_upload. repeat emits_step; apply HP; exact I. Qed.

Lemma build_or_requeue_emits P m post arg rest :
  (forall e : Event Meta, not_rmtree e -> P e) ->
  emits_only P (build_or_requeue E m post arg rest).
Proof.
  intro HP. unfold build_or_requeue.
  repeat first
    [ emits_step
    | lazymatch goal with
      | |- emits_only _ (requeue _ _ _) => apply requeue_emits; exact HP
      end ]; apply HP; exact I.
Qed.

Lemma not_rmtree_only nc d (e : Event Meta) : not_rmtree e -> only_rmtree nc d e.
Proof. destruct e; cbn; tauto. Qed.

Ltac emits_all :=
  repeat first
    [ emits_step
    | lazymatch goal with
      | |- emits_only _ (build_or_requeue _ _ _ _ _) => apply build_or_requeue_emits
      | |- emits_only _ (handle_binstar_upload _ _) => apply handle_upload_emits
      | |- emits_only _ (requeue _ _ _) => apply requeue_emits
      | |- emits_only _ (resolve _ _) => apply resolve_emits
      | |- emits_only _ (load_metadata _ _) => apply load_metadata_emits
      end ];
  auto using not_rmtree_only.

Lemma finish_emits nc d m bu rest already :
  emits_only (only_rmtree nc d) (finish E m d nc bu rest already).
Proof.
  unfold finish. destruct nc; emits_all; cbn; auto.
Qed.

Lemma full_build_emits nc d m arg rest already :
  emits_only (only_rmtree nc d) (full_build E m arg d nc rest already).
Proof.
  unfold full_build.
  repeat first
    [ progress emits_all
    | lazymatch goal with
      | |- emits_only _ (finish _ _ _ _ _ _ _) => apply finish_emits
      end ];
    cbn; auto.
Qed.

Lemma act_emits nc d m arg index rest already :
  emits_only (only_rmtree nc d) (act E m arg d nc index rest already).
Proof.
  unfold act.
  repeat first
    [ progress emits_all
    | lazymatch goal with
      | |- emits_only _ (full_build _ _ _ _ _ _ _) => apply full_build_emits
      | |- emits_only _ (finish _ _ _ _ _ _ _) => apply finish_emits
      end ];
    cbn; auto.
Qed.

Lemma post_ret {A} (a : A) (Q : list (Event Meta) -> A -> Prop) :
  Q [] a -> post (ret a) Q.
Proof.
  intros HQ g g' a' [= <- <-]. exists []. rewrite app_nil_r. auto.
Qed.

Lemma post_bind_prefix {A B} (m : M A) (k : A -> M B) Q :
  emits_only (fun _ => True) m ->
  (forall a, post (k a) Q) ->
  (forall e1 e2 b, Q e2 b -> Q (e1 ++ e2) b) ->
  post (bind m k) Q.
Proof.
  intros Hm Hk HQ g g' b Hb.
  apply bind_ok in Hb as (g1 & a & H1 & H2).
  destruct (Hm _ _ _ H1) as (e1 & T1 & _).
  destruct (Hk a _ _ _ H2) as (e2 & T2 & Q2).
  exists (e1 ++ e2). rewrite T2, T1, app_assoc. auto.
Qed.

Lemma pass_outcome_prefix nc d already e1 e2 l' :
  pass_outcome nc d already e2 l' -> pass_outcome nc d already (e1 ++ e2) l'.
Proof.
  intros [H|[H1 H2]]; [left; exact H|right]. split; [exact H1|].
  intro Hn. apply in_or_app. right. auto.
Qed.

Lemma finish_post m d nc bu rest already :
  post (finish E m d nc bu rest already) (pass_outcome nc d already).
Proof.
  intros g g' l' H. unfold finish in H.
  apply bind_ok in H as (g1 & [] & H1 & H).
  apply bind_ok in H as (g2 & [] & H2 & H).
  apply bind_ok in H as (g3 & c & H3 & H).
  unfold ret in H. unfold get_config in H3.
  injection H as <- <-. injection H3 as <- <-.
  assert (T2 : exists e2, trace g2 = trace g1 ++ e2).
  { assert (Hu : emits_only (fun _ => True)
              (c <- get_config ;; handle_binstar_upload E (bldpkg_path E c m))).
    { emits_all. }
    destruct (emits_only_when _ bu _ Hu g1 g2 (inr tt) H2) as (e2 & T & _).
    eauto. }
  destruct T2 as (e2 & T2).
  destruct nc; unfold when in H1.
  - apply bind_ok in H1 as (g0 & [] & He & Hc).
    unfold emit in He. injection He as <-.
    unfold call in Hc. cbn in Hc.
    destruct (rmtree E d (world g)) as [w' [e|[]]]; [discriminate|].
    injection Hc as <-. cbn in T2.
    exists ([EvRmtree d] ++ e2). rewrite T2, <- app_assoc. split; [reflexivity|].
    right. split; [eexists; reflexivity|]. intros _. cbn. auto.
  - unfold ret in H1. injection H1 as <-. exists e2. split; [exact T2|].
    right. split; [eexists; reflexivity|discriminate].
Qed.

Ltac post_step :=
  lazymatch goal with
  | |- post (ret _) _ => apply post_ret; left; reflexivity
  | |- post (finish _ _ _ _ _ _ _) _ => apply finish_post
  | |- post (bind _ _) _ =>
      apply post_bind_prefix;
      [ emits_all | intro | intros; apply pass_outcome_prefix; assumption ]
  | |- post (if ?b then _ else _) _ => destruct b
  end.

Lemma full_build_post m arg d nc rest already :
  post (full_build E m arg d nc rest already) (pass_outcome nc d already).
Proof. unfold full_build. repeat post_step. Qed.

Lemma act_post m arg d nc index rest already :
  post (act E m arg d nc index rest already) (pass_outcome nc d already).
Proof.
  unfold act.
  repeat first
    [ post_step
    | lazymatch goal with
      | |- post (full_build _ _ _ _ _ _ _) _ => apply full_build_post
      end ].
Qed.

End Facts.

(** ** What a pass of the loop removes and records *)

Section PassFacts.
Context {W Meta : Type} (E : Collab W Meta).

(** The part of a pass that follows the resolution of the task. *)
Lemma after_resolve_emits index arg rest already d nc :
  emits_only (W:=W) (only_rmtree nc d)
    (ok <- ask (fun w => isdir E w d) ;;
     if negb ok then raise (SystemExit ("Error: no such directory: " ++ d))
     else
       m <- load_metadata E d ;;
       act E m arg d nc index rest already).
Proof.
  repeat first
    [ emits_step
    | lazymatch goal with
      | |- emits_only _ (load_metadata _ _) =>
          apply load_metadata_emits, not_rmtree_only
      | |- emits_only _ (act _ _ _ _ _ _ _ _) => apply act_emits
      end ].
Qed.

(** In any pass, however it ends, the only directory that is removed is
    the temporary directory into which the task was unpacked. *)
Lemma iteration_emits index arg rest already g g' r :
  iteration E index arg rest already g = (g', r) ->
  exists evs,
    trace g' = trace g ++ evs
    /\ forall d', In (EvRmtree d') evs ->
         exists g1, resolve E arg g = (g1, inr (RecipeDir d' true)).
Proof.
  unfold iteration. unfold bind at 1.
  destruct (resolve E arg g) as [g1 [e|[|d nc]]] eqn:Hr; intro H.
  - injection H as <- <-.
    destruct (resolve_emits E not_rmtree arg (fun _ h => h) _ _ _ Hr)
      as (evs & T & F).
    exists evs. split; [exact T|]. intros d' Hin.
    rewrite Forall_forall in F. destruct (F _ Hin).
  - injection H as <- <-.
    destruct (resolve_emits E not_rmtree arg (fun _ h => h) _ _ _ Hr)
      as (evs & T & F).
    exists evs. split; [exact T|]. intros d' Hin.
    rewrite Forall_forall in F. destruct (F _ Hin).
  - destruct (resolve_emits E not_rmtree arg (fun _ h => h) _ _ _ Hr)
      as (e1 & T1 & F1).
    destruct (after_resolve_emits index arg rest already d nc _ _ _ H)
      as (e2 & T2 & F2).
    exists (e1 ++ e2). rewrite T2, T1, app_assoc. split; [reflexivity|].
    intros d' Hin. rewrite Forall_forall in F1, F2.
    apply in_app_or in Hin as [Hin|Hin].
    + destruct (F1 _ Hin).
    + destruct (F2 _ Hin) as [-> ->]. eauto.
Qed.

(** A pass that returns leaves [already_built] as it was or adds one
    element to it, and in the second case a temporary recipe directory
    has been removed. *)
Lemma iteration_post index arg rest already g g' l' :
  iteration E index arg rest already g = (g', inr l') ->
  exists evs,
    trace g' = trace g ++ evs
    /\ (already_built l' = already
        \/ ((exists x, already_built l' = already ++ [x])
            /\ forall g1 d, resolve E arg g = (g1, inr (RecipeDir d true)) ->
                 In (EvRmtree d) evs)).
Proof.
  unfold iteration. intro H.
  apply bind_ok in H as (g1 & rr & Hr & H).
  destruct (resolve_emits E (fun _ => True) arg (fun _ _ => I) _ _ _ Hr)
    as (e1 & T1 & _).
  destruct rr as [|d nc].
  - injection H as <- <-. exists e1. split; [exact T1|]. left. reflexivity.
  - apply bind_ok in H as (g1' & ok & Ha & H). injection Ha as <- <-.
    destruct (negb (isdir E (world g1) d)); [discriminate|].
    apply bind_ok in H as (g2 & m & Hm & H).
    destruct (load_metadata_emits E (fun _ => True) d (fun _ _ => I) _ _ _ Hm)
      as (e2 & T2 & _).
    destruct (act_post E m arg d nc index rest already _ _ _ H)
      as (e3 & T3 & Q3).
    exists (e1 ++ e2 ++ e3). rewrite T3, T2, T1, <- !app_assoc.
    split; [reflexivity|].
    destruct Q3 as [Q3|[Q3 Q4]]; [left; exact Q3|right].
    split; [exact Q3|].
    intros g1' d' Hr'. rewrite Hr in Hr'. injection Hr' as _ <- ->.
    apply in_or_app. right. apply in_or_app. right. auto.
Qed.


End PassFacts.

(** ** Cleanup of temporary recipe directories *)

Section Cleanup.
Context {W Meta : Type} (E : Collab W Meta).

(** C2, as the code has it: whatever the outcome of a pass, the only
    directory it removes is the temporary directory into which the task
    was unpacked, so a directory that is used as it is is never removed;
    and a pass that runs the action of the task to its end, recording the
    package in [already_built], has removed the temporary directory. *)
Theorem temporary_dir_removed_when_task_completes
  index arg rest already g g' r :
  iteration E index arg rest already g = (g', r) ->
  exists evs,
    trace g' = trace g ++ evs
    /\ (forall d', In (EvRmtree d') evs ->
          exists g1, resolve E arg g = (g1, inr (RecipeDir d' true)))
    /\ (forall l', r = inr l' -> already_built l' <> already ->
          forall g1 d, resolve E arg g = (g1, inr (RecipeDir d true)) ->
            In (EvRmtree d) evs).
Proof.
  intro H.
  destruct (iteration_emits E _ _ _ _ _ _ _ H) as (evs & T & Hrm).
  exists evs. split; [exact T|]. split; [exact Hrm|].
  intros l' -> Hne g1 d Hr.
  destruct (iteration_post E _ _ _ _ _ _ _ H) as (evs' & T' & [Ha|[_ Hin]]).
  - contradiction.
  - rewrite T in T'. apply app_inv_head in T'. subst evs'. eauto.
Qed.

End Cleanup.

Lemma temporary_dir_removed_when_task_completes_witness :
  exists evs,
    [EvUnpack "A.tar"; EvTest (Sim.mkRecipe "/tmp/A.tar" "a" [] None);
     EvRmtree "/tmp/A.tar"] = [] ++ evs
    /\ In (@EvRmtree Sim.Recipe "/tmp/A.tar") evs.
Proof.
  assert (H : iteration Sim.collab [] "A.tar" [] []
                (Sim.start Scenario2.good_archive (Scenario2.test_args ["A.tar"]))
              = (mkGlobals Scenario2.good_archive Sim.default_config
                   (Scenario2.test_args ["A.tar"])
                   [EvUnpack "A.tar";
                    EvTest (Sim.mkRecipe "/tmp/A.tar" "a" [] None);
                    EvRmtree "/tmp/A.tar"],
                 inr (mkLocals [] ["a.tar.bz2"])))
    by (vm_compute; reflexivity).
  destruct (temporary_dir_removed_when_task_completes Sim.collab _ _ _ _ _ _ _ H)
    as (evs & T & _ & Hin).
  exists evs. split; [exact T|].
  apply (Hin (mkLocals [] ["a.tar.bz2"]) eq_refl
           ltac:(discriminate)
           (mkGlobals Scenario2.good_archive Sim.default_config
              (Scenario2.test_args ["A.tar"]) [EvUnpack "A.tar"])
           "/tmp/A.tar").
  vm_compute. reflexivity.
Defined.

(** C2 as stated fails on a failing build: the task [A.tar] is unpacked
    into a temporary directory, its build raises an error, the run ends
    with that error and the directory has not been removed. *)
Lemma failed_build_leaves_temporary_dir :
  snd (resolve Sim.collab "A.tar"
         (Sim.start Scenario2.broken_archive (Sim.default_args ["A.tar"])))
  = inr (RecipeDir "/tmp/A.tar" true)
  /\ exists g',
       execute Sim.collab 1 1
         (Sim.start Scenario2.broken_archive (Sim.default_args ["A.tar"]))
       = Some (g', inl (RuntimeError "compiler crashed"))
       /\ trace g'
          = [EvLocked; EvUnpack "A.tar";
             EvBuild (Sim.mkRecipe "/tmp/A.tar" "a" []
                        (Some (RuntimeError "compiler crashed"))) None;
             EvUnlocked]
       /\ ~ In (EvRmtree "/tmp/A.tar") (trace g').
Proof.
  split; [vm_compute; reflexivity|].
  exists (mkGlobals Scenario2.broken_archive Sim.default_config
            (Sim.default_args ["A.tar"])
            [EvLocked; EvUnpack "A.tar";
             EvBuild (Sim.mkRecipe "/tmp/A.tar" "a" []
                        (Some (RuntimeError "compiler crashed"))) None;
             EvUnlocked]).
  split; [vm_compute; reflexivity|]. split; [reflexivity|].
  cbn. intros [H|[H|[H|[H|[]]]]]; discriminate H.
Qed.

(** ** The packages already built *)

Lemma mem_In x l : PyStr.mem x l = true <-> In x l.
Proof.
  unfold PyStr.mem. rewrite existsb_exists. split.
  - intros (y & Hy & He). apply String.eqb_eq in He. subst. exact Hy.
  - intro H. exists x. split; [exact H|apply String.eqb_refl].
Qed.

Section AlreadyBuilt.
Context {W Meta : Type} (E : Collab W Meta).

(** Lines 355-358: under [--skip-existing] a package that is in the
    index or in [already_built] is skipped. *)
Lemma act_skips index arg rest already g2 w3 d nc m :
  Args.check (args g2) = false ->
  check_fields E m (world g2) = (w3, inr tt) ->
  Args.skip_existing (args g2) = true ->
  PyStr.mem (pkg_fn E (config g2) m) index
  || PyStr.mem (pkg_fn E (config g2) m) already = true ->
  act E m arg d nc index rest already g2
  = (skipped E g2 w3 m, inr (mkLocals rest already)).
Proof.
  intros Hc Hf Hs Hm. destruct g2 as [w c a tr]; cbn in *.
  unfold act, bind, get_args, get_config, when, call, emit, ret; cbn.
  rewrite Hc; cbn. rewrite Hf; cbn. rewrite Hs, Hm. reflexivity.
Qed.




End AlreadyBuilt.




(** The run of the task [A] given twice under [--test --skip-existing]:
    one test, no build, and the second task is skipped. *)
Example test_only_then_skipped :
  option_map (fun r => (trace (fst r), snd r))
    (execute Sim.collab 1 2
       (Sim.start Scenario2.single (Scenario2.test_args ["A"; "A"])))
  = Some ([EvUpdateIndex; EvLocked;
           EvTest (Sim.mkRecipe "A" "a" [] None);
           EvPrint "a is already built, skipping.";
           EvUnlocked], inr tt).
Proof. vm_compute. reflexivity. Qed.

(** ** The version axes *)

Lemma int_not_all s v :
  PyStr.int (PyStr.replace "." "" s) = Some v -> String.eqb s "all" = false.
Proof.
  intro H. destruct (String.eqb_spec s "all") as [->|]; [|reflexivity].
  vm_compute in H. discriminate H.
Qed.

Section Axes.
Context {W Meta : Type}.

Lemma lang_step_empty lang (g : Globals W Meta) :
  Args.getattr (args g) lang = [] -> lang_step lang g = (g, inr Next).
Proof.
  intro H. unfold lang_step, bind, get_args, ret. rewrite H. reflexivity.
Qed.

Lemma lang_step_single lang s v (g : Globals W Meta) :
  Args.getattr (args g) lang = [VStr s] ->
  PyStr.int (PyStr.replace "." "" s) = Some v ->
  lang_step lang g
  = (with_version g lang v,
     if negb (String.length (PyStr.str v) =? 2)%nat && two_digit_axis lang
     then inl (RuntimeError (width_message lang v))
     else inr Next).
Proof.
  intros H Hv. pose proof (int_not_all s v Hv) as Hall.
  unfold lang_step, bind, get_args, get_config, set_config, ret, raise.
  rewrite H. cbn [is_all]. rewrite Hall. cbn. rewrite Hv.
  unfold with_version.
  destruct (negb (String.length (PyStr.str v) =? 2)%nat && two_digit_axis lang);
    reflexivity.
Qed.

Lemma lang_step_unparsed lang s (g : Globals W Meta) :
  Args.getattr (args g) lang = [VStr s] ->
  s <> "all" ->
  PyStr.int (PyStr.replace "." "" s) = None ->
  lang_step lang g = (g, inl ValueError).
Proof.
  intros H Hall Hv. apply String.eqb_neq in Hall.
  unfold lang_step, bind, get_args, get_config, set_config, ret, raise.
  rewrite H. cbn [is_all]. rewrite Hall. cbn. rewrite Hv. reflexivity.
Qed.

Lemma lang_step_all_unsupported lang (g : Globals W Meta) :
  Args.getattr (args g) lang = [VStr "all"] ->
  all_versions lang = None ->
  lang_step lang g
  = (g, inl (SystemExit ("'all' is not supported for --" ++ lang_name lang))).
Proof.
  intros H Hn.
  unfold lang_step, bind, get_args, get_config, set_config, ret, raise.
  rewrite H. cbn. rewrite Hn. reflexivity.
Qed.

Lemma lang_step_all lang vs (g : Globals W Meta) :
  Args.getattr (args g) lang = [VStr "all"] ->
  all_versions lang = Some vs ->
  lang_step lang g = (g, inr (Expand (map VInt vs))).
Proof.
  intros H Hs.
  unfold lang_step, bind, get_args, get_config, set_config, ret, raise.
  rewrite H. cbn.
  destruct lang; cbn in Hs; try discriminate Hs;
    injection Hs as <-; reflexivity.
Qed.

Lemma lang_step_accepted lang (g : Globals W Meta) :
  accepted (args g) lang ->
  exists c',
    lang_step lang g = (with_world_config g (world g) c', inr Next).
Proof.
  intros [H|(s & v & H & Hv & Hw)].
  - exists (config g). rewrite (lang_step_empty _ _ H).
    destruct g; reflexivity.
  - exists (Config.set (config g) lang v).
    rewrite (lang_step_single _ _ _ _ H Hv).
    destruct (two_digit_axis lang).
    + rewrite (Hw eq_refl). reflexivity.
    + rewrite andb_false_r. reflexivity.
Qed.

(** The loop of line 283 reaches the axis [lang] when the axes before it
    are accepted; only [config] has changed by then. *)
Lemma for_langs_reaches (rec : @Run W Meta) lang (g : Globals W Meta) :
  (forall l, earlier l lang -> accepted (args g) l) ->
  exists c1,
    for_langs rec all_langs g
    = for_langs rec (langs_from lang) (with_world_config g (world g) c1).
Proof.
  intro Hacc. destruct g as [w c a tr].
  assert (Hstep : forall l c0, earlier l lang ->
            exists c',
              lang_step l (mkGlobals w c0 a tr) = (mkGlobals w c' a tr, inr Next)).
  { intros l c0 Hl.
    destruct (lang_step_accepted l (mkGlobals w c0 a tr) (Hacc l Hl))
      as (c' & Hc').
    exists c'. exact Hc'. }
  unfold earlier in Hstep. unfold with_world_config. cbn [world args trace].
  destruct lang; unfold all_langs; cbn [langs_from].
  - exists c. reflexivity.
  - destruct (Hstep python c) as (c1 & H1); [cbn; lia|].
    exists c1. cbn [for_langs]. rewrite H1. reflexivity.
  - destruct (Hstep python c) as (c1 & H1); [cbn; lia|].
    destruct (Hstep numpy c1) as (c2 & H2); [cbn; lia|].
    exists c2. cbn [for_langs]. rewrite H1. cbn [for_langs]. rewrite H2.
    reflexivity.
  - destruct (Hstep python c) as (c1 & H1); [cbn; lia|].
    destruct (Hstep numpy c1) as (c2 & H2); [cbn; lia|].
    destruct (Hstep perl c2) as (c3 & H3); [cbn; lia|].
    exists c3. cbn [for_langs]. rewrite H1. cbn [for_langs]. rewrite H2.
    cbn [for_langs]. rewrite H3. reflexivity.
Qed.

End Axes.

Section AxisErrors.
Context {W Meta : Type} (E : Collab W Meta).

(** [execute] ends with the error that the axis [lang] raises, before
    the index, the lock and the first task, when the axes before [lang]
    are accepted. *)
Lemma execute_axis_error depth fuel (g : Globals W Meta) w1 lang e :
  startup E (world g) = (w1, inr tt) ->
  (forall l, earlier l lang -> accepted (args g) l) ->
  (forall c, exists c',
      lang_step lang (with_world_config g w1 c)
      = (with_world_config g w1 c', inl e)) ->
  exists c',
    execute E (S depth) fuel g = Some (with_world_config g w1 c', inl e).
Proof.
  intros Hs Hacc Hstep. destruct g as [w c a tr]. cbn in Hs.
  cbn [execute]. unfold call. cbn [world config args trace]. rewrite Hs.
  destruct (for_langs_reaches (execute E depth fuel) lang
              (mkGlobals w1 c a tr) Hacc) as (c1 & ->).
  destruct (Hstep c1) as (c' & Hc'). exists c'.
  unfold with_world_config in *. cbn [world args trace] in *.
  destruct lang; cbn [langs_from for_langs]; rewrite Hc'; reflexivity.
Qed.

(** C4, as the code has it: in a run in which the axis [lang] (python or
    numpy) holds one value, whose integer after the removal of the dots
    is not written with two characters, and in which the axes before
    [lang] are accepted, [execute] raises the [RuntimeError] of the axis
    before any task begins: the world is the one that the start-up checks
    left, and the trace and [args] are as they were.  (The runs that an
    expansion has made for the values before are over by then.) *)
Theorem width_error_before_any_task depth fuel (g : Globals W Meta) w1 lang s v :
  two_digit_axis lang = true ->
  startup E (world g) = (w1, inr tt) ->
  (forall l, earlier l lang -> accepted (args g) l) ->
  Args.getattr (args g) lang = [VStr s] ->
  PyStr.int (PyStr.replace "." "" s) = Some v ->
  String.length (PyStr.str v) <> 2 ->
  exists c',
    execute E (S depth) fuel g
    = Some (with_world_config g w1 c', inl (RuntimeError (width_message lang v))).
Proof.
  intros Htwo Hs Hacc Hget Hv Hlen.
  apply (execute_axis_error depth fuel g w1 lang); try assumption.
  intro c. exists (Config.set c lang v).
  rewrite (lang_step_single lang s v (with_world_config g w1 c) Hget Hv).
  rewrite Htwo. apply Nat.eqb_neq in Hlen. rewrite Hlen. reflexivity.
Qed.

(** C10: the width is checked on the python and numpy axes only.  One
    value given for the perl or R axis, other than [all], is accepted
    whatever the number of its digits when [int] reads it as an integer
    once its dots are removed, and that integer is stored; when [int]
    does not, it raises a [ValueError], which [args_func] does not turn
    into an [Error: ...] exit: it prints the request for an issue report
    and raises the error again. *)
Theorem perl_and_R_width_unchecked depth fuel (g : Globals W Meta) w1 lang s :
  lang = perl \/ lang = R ->
  s <> "all" ->
  startup E (world g) = (w1, inr tt) ->
  (forall l, earlier l lang -> accepted (args g) l) ->
  Args.getattr (args g) lang = [VStr s] ->
  (forall v, PyStr.int (PyStr.replace "." "" s) = Some v ->
     lang_step lang g = (with_version g lang v, inr Next))
  /\ (PyStr.int (PyStr.replace "." "" s) = None ->
      exists c',
        execute E (S depth) fuel g
        = Some (with_world_config g w1 c', inl ValueError)
        /\ args_func E (S depth) fuel g
           = Some (mkGlobals w1 c' (args g) (trace g ++ [EvStderr issue_message]),
                   inl ValueError)).
Proof.
  intros Hlang Hall Hs Hacc Hget. split.
  - intros v Hv. rewrite (lang_step_single lang s v g Hget Hv).
    destruct Hlang as [-> | ->]; cbn [two_digit_axis lang_eqb orb];
      rewrite andb_false_r; reflexivity.
  - intro Hv.
    destruct (execute_axis_error depth fuel g w1 lang ValueError Hs Hacc)
      as (c' & Hex).
    { intro c. exists c.
      apply (lang_step_unparsed lang s (with_world_config g w1 c) Hget Hall Hv). }
    exists c'. split; [exact Hex|].
    unfold args_func. rewrite Hex. reflexivity.
Qed.

End AxisErrors.

Lemma width_error_before_any_task_witness :
  exists c',
    execute Sim.collab 1 0
      (Sim.start Scenario2.single (Scenario3.wide_python ["A"]))
    = Some (with_world_config
              (Sim.start Scenario2.single (Scenario3.wide_python ["A"]))
              Scenario2.single c',
            inl (RuntimeError "CONDA_PY must be major.minor, like 3.4, not 310")).
Proof.
  refine (width_error_before_any_task Sim.collab 0 0
    (Sim.start Scenario2.single (Scenario3.wide_python ["A"]))
    Scenario2.single python "3.10" 310 _ _ _ _ _ _).
  - reflexivity.
  - vm_compute; reflexivity.
  - intros l Hl. unfold earlier in Hl. cbn in Hl. lia.
  - vm_compute; reflexivity.
  - vm_compute; reflexivity.
  - vm_compute. discriminate.
Defined.

(** C4 as stated fails when the axis holds several values: with
    [--python 2.7 --python 3.10] the run for 2.7 builds the recipe before
    the run for 3.10 raises the error of the width. *)
Lemma build_before_width_error :
  let r := execute Sim.collab 2 1
             (Sim.start Scenario2.single (Scenario3.two_pythons ["A"])) in
  option_map snd r
  = Some (inl (RuntimeError "CONDA_PY must be major.minor, like 3.4, not 310"))
  /\ option_map (fun x => Sim.builds (trace (fst x))) r = Some ["A"].
Proof. vm_compute. split; reflexivity. Qed.

Lemma perl_and_R_width_unchecked_witness :
  lang_step perl (Sim.start Scenario2.single (Scenario3.one_perl "5.18.2" ["A"]))
  = (with_version (Sim.start Scenario2.single (Scenario3.one_perl "5.18.2" ["A"]))
       perl 5182,
     inr Next).
Proof.
  refine (proj1 (perl_and_R_width_unchecked Sim.collab 0 0
    (Sim.start Scenario2.single (Scenario3.one_perl "5.18.2" ["A"]))
    Scenario2.single perl "5.18.2" _ _ _ _ _) 5182%Z _).
  - left. reflexivity.
  - discriminate.
  - vm_compute; reflexivity.
  - intros l Hl. unfold earlier in Hl.
    destruct l; cbn in Hl; try lia; left; reflexivity.
  - vm_compute; reflexivity.
  - vm_compute; reflexivity.
Defined.

(** A perl version with an underscore reads as an integer and is stored. *)
Example perl_underscore :
  lang_step perl (Sim.start Scenario2.single (Scenario3.one_perl "5_18" ["A"]))
  = (with_version (Sim.start Scenario2.single (Scenario3.one_perl "5_18" ["A"]))
       perl 518,
     inr Next).
Proof. vm_compute. reflexivity. Qed.

(** A perl version that does not read as an integer: the [ValueError]
    goes through [args_func], after the request for an issue report. *)
Example perl_value_error :
  option_map (fun r => (trace (fst r), snd r))
    (args_func Sim.collab 1 1
       (Sim.start Scenario2.single (Scenario3.one_perl "5.x" ["A"])))
  = Some ([EvStderr issue_message],
          inl ValueError).
Proof. vm_compute. reflexivity. Qed.

(** ** The expansion of an axis *)

Lemma getattr_setattr_same a lang vs :
  Args.getattr (Args.setattr a lang vs) lang = vs.
Proof. destruct lang; reflexivity. Qed.

Lemma getattr_setattr_other a lang lang' vs :
  lang <> lang' ->
  Args.getattr (Args.setattr a lang vs) lang' = Args.getattr a lang'.
Proof. destruct lang, lang'; intro H; try reflexivity; congruence. Qed.

Section ExpansionFacts.
Context {W Meta : Type}.

Lemma for_versions_returns (rec : @Run W Meta) lang versions todo g g' :
  for_versions rec lang versions todo g = Some (g', inr tt)
  <-> sub_runs rec lang versions todo g g'.
Proof.
  split.
  - revert g. induction todo as [|ver more IH]; intros g H; cbn in H.
    + injection H as <-. constructor.
    + destruct (rec (with_lang g lang [VStr (ver_str ver)]))
        as [[g1 [e|u]]|] eqn:Hr; try discriminate H.
      econstructor; [exact Hr|]. apply IH. exact H.
  - induction 1 as [g|ver more g g1 u g' Hr _ IH]; cbn.
    + reflexivity.
    + rewrite Hr. exact IH.
Qed.

Lemma for_versions_raises (rec : @Run W Meta) lang versions todo g g' e :
  for_versions rec lang versions todo g = Some (g', inl e)
  <-> failed_sub_run rec lang versions todo g g' e.
Proof.
  split.
  - revert g. induction todo as [|ver more IH]; intros g H; cbn in H.
    + discriminate H.
    + destruct (rec (with_lang g lang [VStr (ver_str ver)]))
        as [[g1 [e1|u]]|] eqn:Hr; try discriminate H.
      * injection H as <- <-. constructor. exact Hr.
      * eapply failed_later; [exact Hr|]. apply IH. exact H.
  - induction 1 as [ver more g g' e Hr|ver more g g1 u g' e Hr _ IH]; cbn.
    + rewrite Hr. reflexivity.
    + rewrite Hr. exact IH.
Qed.

(** The runs that have all returned are as many as the versions. *)
Lemma sub_runs_count (rec : @Run W Meta) lang versions todo g g' :
  sub_runs rec lang versions todo g g' ->
  exists starts : list (Globals W Meta),
    List.length starts = List.length todo
    /\ Forall2 (fun g0 ver =>
                  Args.getattr (args g0) lang = [VStr (ver_str ver)]
                  /\ exists g1 u, rec g0 = Some (g1, inr u))
               starts todo.
Proof.
  induction 1 as [g|ver more g g1 u g' Hr _ (starts & Hlen & Hall)].
  - exists []. split; [reflexivity|constructor].
  - exists (with_lang g lang [VStr (ver_str ver)] :: starts).
    split; [cbn; rewrite Hlen; reflexivity|].
    constructor; [|exact Hall].
    split; [apply getattr_setattr_same|eauto].
Qed.

End ExpansionFacts.

Section AllSentinel.
Context {W Meta : Type} (E : Collab W Meta).

Lemma keeps_ret {A} (a : A) : keeps (W:=W) (Meta:=Meta) (ret a).
Proof. intros g g' r [= <- _]. auto. Qed.

Lemma keeps_raise {A} e : keeps (@raise W Meta A e).
Proof. intros g g' r [= <- _]. auto. Qed.

Lemma keeps_get_args : keeps (@get_args W Meta).
Proof. intros g g' r [= <- _]. auto. Qed.

Lemma keeps_get_config : keeps (@get_config W Meta).
Proof. intros g g' r [= <- _]. auto. Qed.

Lemma keeps_set_config c : keeps (@set_config W Meta c).
Proof. intros g g' r [= <- _]. auto. Qed.

Lemma keeps_bind {A B} (m : @M W Meta A) (k : A -> @M W Meta B) :
  keeps m -> (forall a, keeps (k a)) -> keeps (bind m k).
Proof.
  intros Hm Hk g g' r. unfold bind.
  destruct (m g) as [g1 [e|a]] eqn:E1.
  - intros [= <- _]. eapply Hm; eauto.
  - intro E2. destruct (Hm _ _ _ E1) as (H1 & H2 & H3).
    destruct (Hk a _ _ _ E2) as (H4 & H5 & H6).
    repeat split; congruence.
Qed.

(** A pass of the loop over the axes changes [config] at most. *)
Lemma lang_step_keeps lang : keeps (@lang_step W Meta lang).
Proof.
  unfold lang_step.
  repeat lazymatch goal with
         | |- keeps (ret _) => apply keeps_ret
         | |- keeps (raise _) => apply keeps_raise
         | |- keeps get_args => apply keeps_get_args
         | |- keeps get_config => apply keeps_get_config
         | |- keeps (set_config _) => apply keeps_set_config
         | |- keeps (bind _ _) => apply keeps_bind; [|intro]
         | |- keeps (if ?b then _ else _) => destruct b
         | |- keeps (match ?x with _ => _ end) => destruct x
         end.
Qed.

Lemma lang_step_frame lang (g g1 : Globals W Meta) r :
  lang_step lang g = (g1, r) ->
  world g1 = world g /\ args g1 = args g /\ trace g1 = trace g.
Proof. apply lang_step_keeps. Qed.

(** An expansion has at least one version to run. *)
Lemma lang_step_expand_nonempty lang (g g1 : Globals W Meta) versions :
  lang_step lang g = (g1, inr (Expand versions)) -> versions <> [].
Proof.
  unfold lang_step. intro H.
  apply bind_ok in H as (g0 & a & _ & H).
  destruct (Args.getattr a lang) as [|v0 vs0]; [discriminate H|].
  apply bind_ok in H as (g2 & vs & _ & H).
  destruct (1 <? List.length vs)%nat eqn:Hl.
  - injection H as _ <-. intros ->. discriminate Hl.
  - destruct vs as [|[s|n] more]; try discriminate H.
    destruct (PyStr.int (PyStr.replace "." "" s)); [|discriminate H].
    apply bind_ok in H as (g3 & c & _ & H).
    apply bind_ok in H as (g4 & u & _ & H).
    destruct (negb _ && _); discriminate H.
Qed.


Lemma for_langs_unsupported_all (rec : @Run W Meta) lang0 :
  (forall g, Args.getattr (args g) lang0 = [VStr "all"] ->
             error_without_event g (rec g)) ->
  all_versions lang0 = None ->
  forall langs g,
    In lang0 langs ->
    Args.getattr (args g) lang0 = [VStr "all"] ->
    error_without_event g (for_langs rec langs g).
Proof.
  intros Hrec Hnone langs.
  induction langs as [|lang more IH]; intros g Hin Hget; [destruct Hin|].
  cbn [for_langs].
  destruct (lang_step lang g) as [g1 [e|[|versions]]] eqn:Hstep.
  - cbn. destruct (lang_step_frame _ _ _ _ Hstep) as (_ & _ & Ht). eauto.
  - destruct (lang_step_frame _ _ _ _ Hstep) as (_ & Ha & Ht).
    destruct Hin as [->|Hin].
    + rewrite (lang_step_all_unsupported lang0 g Hget Hnone) in Hstep.
      discriminate Hstep.
    + specialize (IH g1 Hin). rewrite Ha in IH. specialize (IH Hget).
      unfold error_without_event in *.
      destruct (for_langs rec more g1) as [[g' r']|]; [|exact I].
      rewrite <- Ht. exact IH.
  - destruct (lang_step_frame _ _ _ _ Hstep) as (_ & Ha & Ht).
    assert (Hneq : lang <> lang0).
    { intros ->.
      rewrite (lang_step_all_unsupported lang0 g Hget Hnone) in Hstep.
      discriminate Hstep. }
    pose proof (lang_step_expand_nonempty _ _ _ _ Hstep) as Hne.
    destruct versions as [|ver more']; [congruence|].
    cbn [for_versions].
    assert (Hsub : error_without_event (with_lang g1 lang [VStr (ver_str ver)])
                     (rec (with_lang g1 lang [VStr (ver_str ver)]))).
    { apply Hrec. cbn. rewrite getattr_setattr_other by exact Hneq.
      rewrite Ha. exact Hget. }
    unfold error_without_event in *.
    destruct (rec (with_lang g1 lang [VStr (ver_str ver)])) as [[g2 r2]|];
      [|exact I].
    destruct Hsub as (Ht2 & e & ->). cbn in Ht2.
    split; [congruence|eauto].
Qed.

(** When an axis without known versions is asked for [all], a run that
    ends, whatever the other axes are, ends with an error and without
    any event: no index, no lock, no task. *)
Lemma unsupported_all_no_event depth :
  forall fuel (g : Globals W Meta),
    unsupported_all (args g) ->
    error_without_event g (execute E depth fuel g).
Proof.
  induction depth as [|depth IH]; intros fuel g Hall; [exact I|].
  destruct Hall as (lang0 & Hnone & Hget).
  cbn [execute]. unfold call.
  destruct (startup E (world g)) as [w1 [e|u]].
  - cbn. eauto.
  - pose proof (for_langs_unsupported_all (execute E depth fuel) lang0) as H.
    specialize (H (fun g0 Hg0 => IH fuel g0 (ex_intro _ lang0 (conj Hnone Hg0)))
                  Hnone all_langs
                  (mkGlobals w1 (config g) (args g) (trace g))).
    assert (Hin : In lang0 all_langs) by (destruct lang0; cbn; auto).
    specialize (H Hin Hget).
    unfold error_without_event in *.
    destruct (for_langs (execute E depth fuel) all_langs _) as [[g2 r2]|];
      [|exact I].
    destruct H as (Ht & e & ->). cbn in Ht. eauto.
Qed.

End AllSentinel.

Section AllExpansion.
Context {W Meta : Type} (E : Collab W Meta).

(** [execute] when the axis [lang] expands and the axes before it are
    accepted: the result is that of the loop over the versions. *)
Lemma execute_axis_expand depth fuel (g : Globals W Meta) w1 lang versions :
  startup E (world g) = (w1, inr tt) ->
  (forall l, earlier l lang -> accepted (args g) l) ->
  (forall c, lang_step lang (with_world_config g w1 c)
             = (with_world_config g w1 c, inr (Expand versions))) ->
  exists c1,
    execute E (S depth) fuel g
    = match for_versions (execute E depth fuel) lang versions versions
              (with_world_config g w1 c1) with
      | None => None
      | Some (g2, inl e) => Some (g2, inl e)
      | Some (g2, inr _) => Some (g2, inr tt)
      end.
Proof.
  intros Hs Hacc Hstep. destruct g as [w c a tr]. cbn in Hs.
  cbn [execute]. unfold call. cbn [world config args trace]. rewrite Hs.
  destruct (for_langs_reaches (execute E depth fuel) lang
              (mkGlobals w1 c a tr) Hacc) as (c1 & ->).
  exists c1. specialize (Hstep c1).
  unfold with_world_config in *. cbn [world args trace] in *.
  destruct lang; cbn [langs_from for_langs]; rewrite Hstep;
    destruct (for_versions _ _ _ _ _) as [[g2 [e|u]]|]; reflexivity.
Qed.

(** C5, as the code has it.  For a run whose axis [lang] is [all], the
    axes before it being accepted: when the axis has the known versions
    [vs], [execute] runs itself once per version, in their order, each
    time with that one version as the value of the axis; it returns when
    all these runs have returned, as many as there are versions, and it
    raises the error of the first run that raises, the versions after
    that one being left out.  When the axis has no known versions (perl,
    R), [execute] ends with the exit of [parser.error] and without any
    event, and so does, if it ends, any run in which such an axis is
    [all], whatever its other axes. *)
Theorem all_sentinel_expansion depth fuel (g : Globals W Meta) w1 lang :
  startup E (world g) = (w1, inr tt) ->
  (forall l, earlier l lang -> accepted (args g) l) ->
  Args.getattr (args g) lang = [VStr "all"] ->
  match all_versions lang with
  | Some vs =>
      exists c1,
        (forall g',
            execute E (S depth) fuel g = Some (g', inr tt)
            <-> sub_runs (execute E depth fuel) lang (map VInt vs) (map VInt vs)
                  (with_world_config g w1 c1) g')
        /\ (forall g' e,
               execute E (S depth) fuel g = Some (g', inl e)
               <-> failed_sub_run (execute E depth fuel) lang (map VInt vs)
                     (map VInt vs) (with_world_config g w1 c1) g' e)
        /\ (forall g',
               execute E (S depth) fuel g = Some (g', inr tt) ->
               exists starts : list (Globals W Meta),
                 List.length starts = List.length vs
                 /\ Forall2
                      (fun g0 ver =>
                         Args.getattr (args g0) lang = [VStr (ver_str ver)]
                         /\ exists g1 u, execute E depth fuel g0 = Some (g1, inr u))
                      starts (map VInt vs))
  | None =>
      (exists c',
          execute E (S depth) fuel g
          = Some (with_world_config g w1 c',
                  inl (SystemExit ("'all' is not supported for --" ++ lang_name lang))))
      /\ (forall depth' fuel' (g0 : Globals W Meta),
             unsupported_all (args g0) ->
             error_without_event g0 (execute E depth' fuel' g0))
  end.
Proof.
  intros Hs Hacc Hget.
  destruct (all_versions lang) as [vs|] eqn:Hvs.
  - destruct (execute_axis_expand depth fuel g w1 lang (map VInt vs) Hs Hacc)
      as (c1 & Hex).
    { intro c. apply lang_step_all; assumption. }
    exists c1.
    assert (Hret : forall g',
               execute E (S depth) fuel g = Some (g', inr tt)
               <-> sub_runs (execute E depth fuel) lang (map VInt vs) (map VInt vs)
                     (with_world_config g w1 c1) g').
    { intro g'. rewrite <- for_versions_returns, Hex.
      destruct (for_versions _ _ _ _ _) as [[g2 [e|[]]]|]; split;
        intro H; try discriminate H; try (injection H as <-); reflexivity. }
    split; [exact Hret|]. split.
    + intros g' e. rewrite <- for_versions_raises, Hex.
      destruct (for_versions _ _ _ _ _) as [[g2 [e2|[]]]|]; split;
        intro H; try discriminate H; try (injection H as <- <-); reflexivity.
    + intros g' H. apply Hret in H.
      destruct (sub_runs_count _ _ _ _ _ _ H) as (starts & Hlen & Hall).
      exists starts. split; [|exact Hall].
      rewrite Hlen. apply length_map.
  - split.
    + apply (execute_axis_error E depth fuel g w1 lang); try assumption.
      intro c. exists c.
      apply (lang_step_all_unsupported lang (with_world_config g w1 c) Hget Hvs).
    + intros depth' fuel' g0. apply unsupported_all_no_event.
Qed.

End AllExpansion.

Lemma all_sentinel_expansion_witness :
  exists c',
    execute Sim.collab 1 0
      (Sim.start Scenario2.single (Scenario3.one_perl "all" ["A"]))
    = Some (with_world_config
              (Sim.start Scenario2.single (Scenario3.one_perl "all" ["A"]))
              Scenario2.single c',
            inl (SystemExit "'all' is not supported for --perl")).
Proof.
  refine (proj1 (all_sentinel_expansion Sim.collab 0 0
    (Sim.start Scenario2.single (Scenario3.one_perl "all" ["A"]))
    Scenario2.single perl _ _ _)).
  - vm_compute; reflexivity.
  - intros l Hl. unfold earlier in Hl.
    destruct l; cbn in Hl; try lia; left; reflexivity.
  - vm_compute; reflexivity.
Defined.

(** C5 as stated fails when a run of the expansion fails: with
    [--python all] and a recipe whose build raises an error, the run for
    the first of the four versions ends the invocation; one run has
    reached its tasks, not four. *)
Lemma all_axis_stops_at_failed_sub_run :
  let r := execute Sim.collab 2 1
             (Sim.start Scenario3.broken (Scenario3.all_pythons ["A"])) in
  option_map (@List.length Z) (all_versions python) = Some 4
  /\ option_map snd r = Some (inl (RuntimeError "compiler crashed"))
  /\ option_map (fun x => Scenario3.locked_runs (trace (fst x))) r = Some 1
  /\ option_map (fun x => Config.CONDA_PY (config (fst x))) r = Some (Some 26%Z).
Proof. vm_compute. repeat split; reflexivity. Qed.

(** [--python all] on a recipe that builds: four runs, one per version. *)
Example all_pythons_four_runs :
  let r := execute Sim.collab 2 1
             (Sim.start Scenario2.single (Scenario3.all_pythons ["A"])) in
  option_map snd r = Some (inr tt)
  /\ option_map (fun x => Scenario3.locked_runs (trace (fst x))) r = Some 4
  /\ option_map (fun x => Sim.builds (trace (fst x))) r = Some ["A"; "A"; "A"; "A"]
  /\ option_map (fun x => Config.CONDA_PY (config (fst x))) r = Some (Some 34%Z).
Proof. vm_compute. repeat split; reflexivity. Qed.

(** ** The name of the dependency and the glob of its recipes *)

Lemma prefix_nil s : String.prefix "" s = true.
Proof. destruct s; reflexivity. Qed.

Lemma prefix_char a c s :
  String.prefix (String a "") (String c s) = Ascii.eqb a c.
Proof.
  cbn. destruct (ascii_dec a c) as [->|Hne].
  - rewrite prefix_nil, Ascii.eqb_refl. reflexivity.
  - symmetry. apply Ascii.eqb_neq. exact Hne.
Qed.

Lemma prefix_cons a s c t :
  String.prefix (String a s) (String c t) = Ascii.eqb a c && String.prefix s t.
Proof.
  cbn. destruct (ascii_dec a c) as [->|Hne].
  - rewrite Ascii.eqb_refl. reflexivity.
  - apply Ascii.eqb_neq in Hne. rewrite Hne. reflexivity.
Qed.

Lemma contains_char_cons a c s :
  PyStr.contains (String a "") (String c s)
  = Ascii.eqb a c || PyStr.contains (String a "") s.
Proof. cbn [PyStr.contains]. rewrite prefix_char. reflexivity. Qed.

Lemma contains_char_app a s t :
  PyStr.contains (String a "") (s ++ t)
  = PyStr.contains (String a "") s || PyStr.contains (String a "") t.
Proof.
  induction s as [|c s IH].
  - cbn [append]. destruct t; reflexivity.
  - cbn [append]. rewrite !contains_char_cons, IH, orb_assoc. reflexivity.
Qed.

Lemma append_cons_assoc acc c s :
  ((acc ++ String c "") ++ s = acc ++ String c s)%string.
Proof. induction acc as [|a acc IH]; cbn; [reflexivity|]. rewrite IH. reflexivity. Qed.

(** The first piece of a split on spaces is the text before the first
    space. *)
Lemma split_go_first name q acc :
  PyStr.contains " " name = false ->
  hd "" (PyStr.split_go " " (name ++ String " " q) 0 acc) = (acc ++ name)%string.
Proof.
  revert acc. induction name as [|c name IH]; intros acc H.
  - cbn. destruct (ascii_dec " " " ") as [_|Hn]; [|congruence].
    rewrite prefix_nil. cbn.
    induction acc as [|a acc IHa]; cbn; congruence.
  - rewrite contains_char_cons in H. apply orb_false_iff in H as [Hc Hn].
    cbn [append PyStr.split_go]. rewrite prefix_char, Hc.
    rewrite IH by exact Hn. apply append_cons_assoc.
Qed.

Lemma dep_name_token name q :
  PyStr.contains " " name = false ->
  dep_name (name ++ String " " q) = name.
Proof.
  intro H. unfold dep_name.
  rewrite contains_char_app, contains_char_cons. cbn [Ascii.eqb].
  rewrite orb_true_r. unfold PyStr.split.
  apply (split_go_first name q "" H).
Qed.

Lemma dep_name_whole field :
  PyStr.contains " " field = false -> dep_name field = field.
Proof. intro H. unfold dep_name. rewrite H. reflexivity. Qed.

Lemma no_magic_cons c s :
  Glob.has_magic (String c s) = false ->
  Ascii.eqb c "*" = false /\ Ascii.eqb c "?" = false /\ Ascii.eqb c "[" = false
  /\ Glob.has_magic s = false.
Proof.
  unfold Glob.has_magic. rewrite !contains_char_cons.
  rewrite (Ascii.eqb_sym c "*"), (Ascii.eqb_sym c "?"), (Ascii.eqb_sym c "[").
  destruct (Ascii.eqb "*" c), (Ascii.eqb "?" c), (Ascii.eqb "[" c);
    cbn [orb]; rewrite ?orb_true_r; intro H; try discriminate H;
    repeat split; exact H.
Qed.

(** A name without magic characters is translated character by
    character. *)
Lemma translate_go_plain dep rest :
  Glob.has_magic dep = false ->
  Glob.translate_go (dep ++ rest) 0
  = map Glob.ILit (list_ascii_of_string dep) ++ Glob.translate_go rest 0.
Proof.
  induction dep as [|c dep IH]; intro H; [reflexivity|].
  apply no_magic_cons in H as (H1 & H2 & H3 & H4).
  cbn [append Glob.translate_go list_ascii_of_string map app].
  rewrite H1, H2, H3, IH by exact H4. reflexivity.
Qed.

Lemma match_items_literals dep items name :
  Glob.match_items (map Glob.ILit (list_ascii_of_string dep) ++ items) name
  = String.prefix dep name
    && Glob.match_items items (Glob.drop (String.length dep) name).
Proof.
  revert name. induction dep as [|c dep IH]; intro name.
  - cbn. rewrite prefix_nil. destruct name; reflexivity.
  - destruct name as [|d name]; [reflexivity|].
    cbn [list_ascii_of_string map app Glob.match_items String.length Glob.drop].
    rewrite prefix_cons, IH, andb_assoc. reflexivity.
Qed.

Lemma match_star_nil t : Glob.match_items [Glob.IStar] t = true.
Proof.
  cbn. induction t as [|c t IH]; [reflexivity|].
  cbn. exact IH.
Qed.

Lemma match_version_items s :
  Glob.match_items Pattern.version_items s = Pattern.glob_suffix s.
Proof.
  unfold Pattern.version_items.
  destruct s as [|d [|c1 [|c2 s]]]; try reflexivity.
  - cbn. rewrite !andb_false_r. reflexivity.
  - cbn. rewrite !andb_false_r. reflexivity.
  - change (Glob.match_items
              [Glob.ILit "-"; Glob.IClass false "v0-9";
               Glob.IClass false "0-9."; Glob.IStar]
              (String d (String c1 (String c2 s))))
      with (Ascii.eqb "-" d
            && (xorb false (Glob.class_mem (list_ascii_of_string "v0-9") c1)
                && (xorb false (Glob.class_mem (list_ascii_of_string "0-9.") c2)
                    && Glob.match_items [Glob.IStar] s))).
    rewrite match_star_nil. cbn. unfold Pattern.is_digit.
    rewrite !orb_false_r, andb_true_r, andb_assoc. reflexivity.
Qed.

(** What [fnmatch] asks of a name against the pattern of line 392. *)
Lemma fnmatch_version dep name :
  Glob.has_magic dep = false ->
  Glob.fnmatch name (dep ++ "-[v0-9][0-9.]*")
  = Pattern.matches Pattern.glob_suffix dep name.
Proof.
  intro H. unfold Glob.fnmatch, Glob.translate, Pattern.matches.
  rewrite translate_go_plain by exact H.
  change (Glob.translate_go "-[v0-9][0-9.]*" 0) with Pattern.version_items.
  rewrite match_items_literals, match_version_items. reflexivity.
Qed.

(** A name accepted by the pattern is hidden when the pattern is. *)
Lemma matched_hidden dep name :
  Pattern.matches Pattern.glob_suffix dep name = true ->
  Glob.hidden name = Glob.hidden (dep ++ "-[v0-9][0-9.]*").
Proof.
  unfold Pattern.matches, Glob.hidden, PyStr.startswith. intro H.
  apply andb_true_iff in H as [Hp Hs].
  destruct dep as [|c dep].
  - cbn in Hs. destruct name as [|d [|c1 [|c2 s]]]; try discriminate Hs.
    apply andb_true_iff in Hs as [Hs _]. apply andb_true_iff in Hs as [Hs _].
    apply Ascii.eqb_eq in Hs. subst d. reflexivity.
  - destruct name as [|d name]; [discriminate Hp|].
    rewrite prefix_cons in Hp. apply andb_true_iff in Hp as [Hc _].
    apply Ascii.eqb_eq in Hc. subst d. cbn [append].
    rewrite !prefix_char. reflexivity.
Qed.

Lemma glob1_version names dep name :
  Glob.has_magic dep = false ->
  In name (Glob.glob1 names (dep ++ "-[v0-9][0-9.]*"))
  <-> In name names /\ Pattern.matches Pattern.glob_suffix dep name = true.
Proof.
  intro H. unfold Glob.glob1.
  destruct (Glob.hidden (dep ++ "-[v0-9][0-9.]*")) eqn:Hh.
  - rewrite filter_In, fnmatch_version by exact H. reflexivity.
  - rewrite !filter_In, fnmatch_version by exact H. split.
    + intros [[Hin _] Hm]. auto.
    + intros [Hin Hm]. split; [split; [exact Hin|]|exact Hm].
      rewrite (matched_hidden dep name Hm), Hh. reflexivity.
Qed.

Section Candidates.
Context {W Meta : Type} (E : Collab W Meta).

Lemma glob_version w dep :
  Pattern.plain dep ->
  glob E w (dep ++ "-[v0-9][0-9.]*")
  = Glob.glob1 (listdir_cwd E w) (dep ++ "-[v0-9][0-9.]*").
Proof.
  intros [Hm Hs]. unfold glob, Glob.has_magic.
  rewrite !contains_char_app, Hs.
  replace (PyStr.contains "[" "-[v0-9][0-9.]*") with true by reflexivity.
  rewrite !orb_true_r. reflexivity.
Qed.

(** C7, as the code has it.  The name of the dependency is the text
    before the first space of the package field (the whole field when it
    has no space).  For such a name without magic character and without
    slash, the candidates are exactly the entries of the current
    directory named by it followed by a dash, then by [v] or a digit,
    then by a digit or a dot, then by anything (the glob
    [<name>-[v0-9][0-9.]*]), and the name itself when that path
    exists. *)
Theorem candidates_match_glob w field :
  Pattern.plain (dep_name field) ->
  (forall name q,
      field = (name ++ String " " q)%string ->
      PyStr.contains " " name = false ->
      dep_name field = name)
  /\ (PyStr.contains " " field = false -> dep_name field = field)
  /\ (forall name,
         In name (find_recipes E w (dep_name field))
         <-> (In name (listdir_cwd E w)
              /\ Pattern.matches Pattern.glob_suffix (dep_name field) name = true)
             \/ (name = dep_name field
                 /\ path_exists E w (dep_name field) = true)).
Proof.
  intro Hplain. split; [|split].
  - intros name q -> Hn. apply dep_name_token. exact Hn.
  - apply dep_name_whole.
  - intro name. unfold find_recipes. rewrite (glob_version w _ Hplain).
    destruct (path_exists E w (dep_name field)).
    + rewrite in_app_iff, (glob1_version _ _ _ (proj1 Hplain)). cbn.
      split.
      * intros [H|[H|[]]]; [left; exact H|right; auto].
      * intros [H|[H _]]; [left; exact H|right; left; auto].
    + rewrite (glob1_version _ _ _ (proj1 Hplain)). split.
      * intro H. left. exact H.
      * intros [H|[_ H]]; [exact H|discriminate H].
Qed.

End Candidates.

Lemma candidates_match_glob_witness :
  In "foo-v2"
     (find_recipes Sim.collab Scenario4.foo_recipes (dep_name "foo >=1.0")).
Proof.
  apply (proj2 (proj2 (candidates_match_glob Sim.collab Scenario4.foo_recipes
                         "foo >=1.0"
                         (conj (eq_refl : Glob.has_magic (dep_name "foo >=1.0") = false)
                               (eq_refl : PyStr.contains "/" (dep_name "foo >=1.0") = false))))
           "foo-v2").
  left. split.
  - vm_compute. auto.
  - vm_compute. reflexivity.
Defined.

(** C7 as stated fails: the glob of the code is not the pattern
    [<name>-v?[0-9][0-9.]*].  For the dependency [foo >=1.0] and a
    directory that holds [foo-v.x] and [foo-1], the code finds [foo-v.x],
    which the pattern refuses, and does not find [foo-1], which the
    pattern accepts. *)
Lemma glob_is_not_the_stated_pattern :
  dep_name "foo >=1.0" = "foo"
  /\ find_recipes Sim.collab Scenario4.foo_dirs "foo" = ["foo-v.x"]
  /\ Pattern.matches Pattern.spec_suffix "foo" "foo-v.x" = false
  /\ Pattern.matches Pattern.spec_suffix "foo" "foo-1" = true
  /\ In "foo-1" (listdir_cwd Sim.collab Scenario4.foo_dirs)
  /\ Glob.fnmatch "foo-v.x" "foo-v?[0-9][0-9.]*" = false.
Proof. vm_compute. repeat split; auto. Qed.

(** The candidates in a directory of recipes, in the order found. *)
Example candidates_of_foo :
  find_recipes Sim.collab Scenario4.foo_recipes "foo"
  = ["foo-1.2"; "foo-v2"; "foo"].
Proof. vm_compute. reflexivity. Qed.

(** ** Fatal errors at the top level *)

(** The missing dependency without recipe, seen from [args_func]: the run
    exits with [Error: ...] after the one build of [A]; [B] is never
    attempted. *)
Example orphan_exit :
  option_map (fun r => (Sim.builds (trace (fst r)), snd r))
    (args_func Sim.collab 1 2
       (Sim.start Scenario.orphan (Sim.default_args ["A"; "B"])))
  = Some (["A"],
          inl (SystemExit
                 "Error: No packages found in current linux-64 channels matching: zlib")).
Proof. vm_compute. reflexivity. Qed.

(** The width error, seen from [args_func]: an exit with [Error: ...] and
    an empty trace. *)
Example wide_python_exit :
  option_map (fun r => (trace (fst r), snd r))
    (args_func Sim.collab 1 1
       (Sim.start Scenario2.single (Scenario3.wide_python ["A"])))
  = Some ([],
          inl (SystemExit "Error: CONDA_PY must be major.minor, like 3.4, not 310")).
Proof. vm_compute. reflexivity. Qed.

(** * Further properties of the code *)


(** ** Events of the work on one task *)

Section TaskEvents.
Context {W Meta : Type} (E : Collab W Meta).
Variable P : Event Meta -> Prop.
Hypothesis HP : forall e, task_event e -> P e.

Local Abbreviation emits_P m := (@emits_only W Meta P _ m).

Ltac task_events known :=
  repeat first [ emits_step | known ];
  try (apply HP; exact I).

Lemma requeue_task dep cands q : emits_P (requeue dep cands q).
Proof.
  revert q. induction cands as [|c cands IH]; intro q; cbn [requeue].
  - apply emits_only_ret.
  - apply emits_only_bind; [apply emits_only_emit, HP; exact I|intro; apply IH].
Qed.

Lemma handle_upload_task path : emits_P (handle_binstar_upload E path).
Proof. unfold handle_binstar_upload. task_events fail. Qed.

Lemma build_or_requeue_task m post arg rest :
  emits_P (build_or_requeue E m post arg rest).
Proof.
  unfold build_or_requeue.
  task_events ltac:(idtac; lazymatch goal with
                    | |- emits_only _ (requeue _ _ _) => apply requeue_task
                    end).
Qed.

Lemma finish_task m d nc bu rest already :
  emits_P (finish E m d nc bu rest already).
Proof.
  unfold finish.
  task_events ltac:(idtac; lazymatch goal with
                    | |- emits_only _ (handle_binstar_upload _ _) =>
                        apply handle_upload_task
                    end).
Qed.

Lemma full_build_task m arg d nc rest already :
  emits_P (full_build E m arg d nc rest already).
Proof.
  unfold full_build.
  task_events ltac:(idtac; lazymatch goal with
                    | |- emits_only _ (build_or_requeue _ _ _ _ _) =>
                        apply build_or_requeue_task
                    | |- emits_only _ (finish _ _ _ _ _ _ _) =>
                        apply finish_task
                    end).
Qed.

Lemma act_task m arg d nc index rest already :
  emits_P (act E m arg d nc index rest already).
Proof.
  unfold act.
  task_events ltac:(idtac; lazymatch goal with
                    | |- emits_only _ (full_build _ _ _ _ _ _ _) =>
                        apply full_build_task
                    | |- emits_only _ (finish _ _ _ _ _ _ _) =>
                        apply finish_task
                    end).
Qed.

Lemma resolve_task arg : emits_P (resolve E arg).
Proof. unfold resolve. task_events fail. Qed.

Lemma load_metadata_task d : emits_P (load_metadata E d).
Proof. unfold load_metadata. task_events fail. Qed.

Lemma iteration_task index arg rest already :
  emits_P (iteration E index arg rest already).
Proof.
  unfold iteration.
  task_events ltac:(idtac; lazymatch goal with
                    | |- emits_only _ (resolve _ _) => apply resolve_task
                    | |- emits_only _ (load_metadata _ _) =>
                        apply load_metadata_task
                    | |- emits_only _ (act _ _ _ _ _ _ _ _) => apply act_task
                    end).
Qed.

Lemma while_recipes_task fuel :
  forall index l g g' r,
    while_recipes E fuel index l g = Some (g', r) ->
    exists evs, trace g' = trace g ++ evs /\ Forall P evs.
Proof.
  induction fuel as [|fuel IH]; intros index [q already] g g' r H.
  - cbn in H. destruct q; [|discriminate H].
    injection H as <- <-. exists []. rewrite app_nil_r. auto.
  - cbn [while_recipes recipes already_built] in H.
    destruct q as [|arg rest].
    + injection H as <- <-. exists []. rewrite app_nil_r. auto.
    + destruct (iteration E index arg rest already g) as [g1 [e|l1]] eqn:Hi.
      * injection H as <- <-. exact (iteration_task _ _ _ _ _ _ _ Hi).
      * destruct (iteration_task _ _ _ _ _ _ _ Hi) as (e1 & T1 & F1).
        destruct (IH _ _ _ _ _ H) as (e2 & T2 & F2).
        exists (e1 ++ e2). rewrite T2, T1, app_assoc. split; [reflexivity|].
        apply Forall_app. auto.
Qed.

End TaskEvents.


(** ** Relations that the scheduler functions keep *)

Section PreservesFacts.
Context {W Meta : Type} (E : Collab W Meta).
Variable R : Globals W Meta -> Globals W Meta -> Prop.
Hypothesis R_refl : forall g, R g g.
Hypothesis R_trans : forall g1 g2 g3, R g1 g2 -> R g2 g3 -> R g1 g3.
Hypothesis R_world :
  forall g w, R g (mkGlobals w (config g) (args g) (trace g)).
Hypothesis R_trace :
  forall g tr, R g (mkGlobals (world g) (config g) (args g) tr).
Hypothesis R_noarch :
  forall g, R g (mkGlobals (world g) (Config.set_noarch (config g)) (args g) (trace g)).

Local Abbreviation preserves_R m := (@preserves W Meta R _ m).

Lemma preserves_ret {A} (a : A) : preserves_R (ret a).
Proof. intros g g' r [= <- _]. apply R_refl. Qed.

Lemma preserves_raise {A} e : preserves_R (@raise W Meta A e).
Proof. intros g g' r [= <- _]. apply R_refl. Qed.

Lemma preserves_ask {A} (f : W -> A) : preserves_R (ask f).
Proof. intros g g' r [= <- _]. apply R_refl. Qed.

Lemma preserves_get_args : preserves_R get_args.
Proof. intros g g' r [= <- _]. apply R_refl. Qed.

Lemma preserves_get_config : preserves_R get_config.
Proof. intros g g' r [= <- _]. apply R_refl. Qed.

Lemma preserves_call {A} (f : Eff W A) : preserves_R (call f).
Proof.
  intros g g' r. unfold call. destruct (f (world g)) as [w' r'].
  intros [= <- _]. apply R_world.
Qed.

Lemma preserves_emit e : preserves_R (emit e).
Proof. intros g g' r [= <- _]. apply R_trace. Qed.

Lemma preserves_set_noarch :
  preserves_R (c' <- get_config ;; set_config (Config.set_noarch c')).
Proof. intros g g' r [= <- _]. apply R_noarch. Qed.

Lemma preserves_bind {A B} (m : @M W Meta A) (k : A -> @M W Meta B) :
  preserves_R m -> (forall a, preserves_R (k a)) -> preserves_R (bind m k).
Proof.
  intros Hm Hk g g' r. unfold bind.
  destruct (m g) as [g1 [e|a]] eqn:E1.
  - intros [= <- _]. eapply Hm; eauto.
  - intro E2. eapply R_trans; [eapply Hm|eapply Hk]; eauto.
Qed.

Lemma preserves_catch {A} (m : @M W Meta A) (h : Exn -> @M W Meta A) :
  preserves_R m -> (forall e, preserves_R (h e)) -> preserves_R (catch m h).
Proof.
  intros Hm Hh g g' r. unfold catch.
  destruct (m g) as [g1 [e|a]] eqn:E1.
  - intro E2. eapply R_trans; [eapply Hm|eapply Hh]; eauto.
  - intros [= <- _]. eapply Hm; eauto.
Qed.

Ltac pres_step :=
  lazymatch goal with
  | |- preserves _ (ret _) => apply preserves_ret
  | |- preserves _ (raise _) => apply preserves_raise
  | |- preserves _ (ask _) => apply preserves_ask
  | |- preserves _ (call _) => apply preserves_call
  | |- preserves _ get_args => apply preserves_get_args
  | |- preserves _ get_config => apply preserves_get_config
  | |- preserves _ (emit _) => apply preserves_emit
  | |- preserves _ (when _ _) => unfold when; cbv iota
  | |- preserves _ (bind get_config (fun c => set_config (Config.set_noarch c))) =>
      apply preserves_set_noarch
  | |- preserves _ (bind _ _) => apply preserves_bind; [|intro]
  | |- preserves _ (catch _ _) => apply preserves_catch; [|intro]
  | |- preserves _ (if ?b then _ else _) => destruct b
  | |- preserves _ (match ?x with _ => _ end) => destruct x
  end.

Lemma resolve_preserves arg : preserves_R (resolve E arg).
Proof. unfold resolve. repeat pres_step. Qed.

Lemma load_metadata_preserves d : preserves_R (load_metadata E d).
Proof. unfold load_metadata. repeat pres_step. Qed.

(** The end of a pass that does not upload. *)
Lemma finish_preserves m d nc rest already :
  preserves_R (finish E m d nc false rest already).
Proof. unfold finish. repeat pres_step. Qed.

(** The modes that do not reach the full build. *)
Lemma act_preserves_without_build m arg d nc index rest already g g' r :
  without_build (args g) = true ->
  act E m arg d nc index rest already g = (g', r) ->
  R g g'.
Proof.
  unfold without_build. intros Hmode H. unfold act in H.
  unfold bind at 1 in H. unfold get_args at 1 in H. cbv beta iota in H.
  destruct (Args.check (args g)) eqn:Hc, (Args.output (args g)) eqn:Ho,
    (Args.test (args g)) eqn:Ht, (Args.source (args g)) eqn:Hs;
    try discriminate Hmode; cbv iota in H;
    revert H;
    match goal with
    | |- ?m g = _ -> _ =>
        assert (Hm : preserves_R m);
        [ repeat first
            [ pres_step
            | lazymatch goal with
              | |- preserves _ (finish _ _ _ _ false _ _) =>
                  apply finish_preserves
              end ]
        | apply Hm ]
    end.
Qed.

Lemma iteration_preserves_without_build index arg rest already g g' r :
  without_build (args g) = true ->
  (forall g1 g2, R g1 g2 -> args g2 = args g1) ->
  iteration E index arg rest already g = (g', r) ->
  R g g'.
Proof.
  intros Hmode Hargs H. unfold iteration in H. unfold bind at 1 in H.
  destruct (resolve E arg g) as [g1 [e|[|d nc]]] eqn:Hr.
  - injection H as <- <-. exact (resolve_preserves _ _ _ _ Hr).
  - injection H as <- <-. exact (resolve_preserves _ _ _ _ Hr).
  - pose proof (resolve_preserves _ _ _ _ Hr) as R1.
    unfold bind at 1 in H. unfold ask at 1 in H.
    destruct (negb (isdir E (world g1) d)).
    + injection H as <- <-. exact R1.
    + unfold bind at 1 in H.
      destruct (load_metadata E d g1) as [g2 [e|m]] eqn:Hm.
      * injection H as <- <-.
        exact (R_trans _ _ _ R1 (load_metadata_preserves _ _ _ _ Hm)).
      * pose proof (load_metadata_preserves _ _ _ _ Hm) as R2.
        pose proof (R_trans _ _ _ R1 R2) as R12.
        eapply R_trans; [exact R12|].
        eapply act_preserves_without_build; [|exact H].
        rewrite (Hargs _ _ R12). exact Hmode.
Qed.

(** *** The whole pass, for relations that the writes to [args] keep *)

Hypothesis R_build_mode :
  forall g, R g (mkGlobals (world g) (config g) (fst (build_mode (args g))) (trace g)).
Hypothesis R_no_yes :
  forall g, R g (mkGlobals (world g) (config g)
                   (Args.no_yes_no_dry_run (args g)) (trace g)).

Lemma handle_upload_preserves path : preserves_R (handle_binstar_upload E path).
Proof.
  intros g g' r H. unfold handle_binstar_upload in H.
  unfold bind at 1 in H. unfold get_args at 1 in H. cbv beta iota in H.
  destruct (Args.binstar_upload (args g)) as [b|].
  - revert H.
    match goal with
    | |- ?m g = _ -> _ =>
        assert (Hm : preserves_R m); [repeat pres_step|apply Hm]
    end.
  - unfold bind at 1 2 in H. unfold set_args at 1 in H. cbv beta iota in H.
    unfold ret at 1 in H. cbv beta iota in H. cbn [negb] in H.
    injection H as <- _.
    eapply R_trans; [apply R_no_yes|].
    exact (R_trace (mkGlobals (world g) (config g)
                      (Args.no_yes_no_dry_run (args g)) (trace g)) _).
Qed.

Lemma requeue_preserves dep cands q : preserves_R (requeue dep cands q).
Proof.
  revert q. induction cands as [|c cands IH]; intro q; cbn [requeue].
  - apply preserves_ret.
  - apply preserves_bind; [apply preserves_emit|intro; apply IH].
Qed.

Lemma build_or_requeue_preserves m post arg rest :
  preserves_R (build_or_requeue E m post arg rest).
Proof.
  unfold build_or_requeue.
  repeat first
    [ pres_step
    | lazymatch goal with
      | |- preserves _ (requeue _ _ _) => apply requeue_preserves
      end ].
Qed.

Lemma finish_preserves_all m d nc bu rest already :
  preserves_R (finish E m d nc bu rest already).
Proof.
  unfold finish.
  repeat first
    [ pres_step
    | lazymatch goal with
      | |- preserves _ (handle_binstar_upload _ _) =>
          apply handle_upload_preserves
      end ].
Qed.

Lemma full_build_preserves m arg d nc rest already :
  preserves_R (full_build E m arg d nc rest already).
Proof.
  intros g g' r H. unfold full_build in H.
  unfold bind at 1 2 in H. unfold get_args at 1, set_args at 1 in H.
  cbv beta iota zeta in H.
  eapply R_trans; [apply R_build_mode|].
  revert H.
  match goal with
  | |- ?m ?g1 = _ -> _ =>
      assert (Hm : preserves_R m);
      [ repeat first
          [ pres_step
          | lazymatch goal with
            | |- preserves _ (build_or_requeue _ _ _ _ _) =>
                apply build_or_requeue_preserves
            | |- preserves _ (finish _ _ _ _ _ _ _) =>
                apply finish_preserves_all
            end ]
      | apply Hm ]
  end.
Qed.

Lemma act_preserves m arg d nc index rest already :
  preserves_R (act E m arg d nc index rest already).
Proof.
  unfold act.
  repeat first
    [ pres_step
    | lazymatch goal with
      | |- preserves _ (full_build _ _ _ _ _ _ _) =>
          apply full_build_preserves
      | |- preserves _ (finish _ _ _ _ _ _ _) =>
          apply finish_preserves_all
      end ].
Qed.

Lemma iteration_preserves index arg rest already :
  preserves_R (iteration E index arg rest already).
Proof.
  unfold iteration.
  repeat first
    [ pres_step
    | lazymatch goal with
      | |- preserves _ (resolve _ _) => apply resolve_preserves
      | |- preserves _ (load_metadata _ _) => apply load_metadata_preserves
      | |- preserves _ (act _ _ _ _ _ _ _ _) => apply act_preserves
      end ].
Qed.

Lemma while_recipes_preserves fuel :
  forall index l g g' r,
    while_recipes E fuel index l g = Some (g', r) -> R g g'.
Proof.
  induction fuel as [|fuel IH]; intros index [q already] g g' r H.
  - cbn in H. destruct q; [|discriminate H]. injection H as <- _. apply R_refl.
  - cbn [while_recipes recipes already_built] in H.
    destruct q as [|arg rest].
    + injection H as <- _. apply R_refl.
    + destruct (iteration E index arg rest already g) as [g1 [e|l1]] eqn:Hi.
      * injection H as <- _. exact (iteration_preserves _ _ _ _ _ _ _ Hi).
      * eapply R_trans; [exact (iteration_preserves _ _ _ _ _ _ _ Hi)|].
        exact (IH _ _ _ _ _ H).
Qed.

End PreservesFacts.


(** ** What a pass returns *)

Section ReturnsFacts.
Context {W Meta : Type} (E : Collab W Meta).

Local Abbreviation returns Q m := (@returns W Meta _ Q m).

Lemma returns_ret {A} (Q : A -> Prop) a : Q a -> returns Q (ret a).
Proof. intros HQ g g' a' [= _ <-]. exact HQ. Qed.

Lemma returns_raise {A} (Q : A -> Prop) e : returns Q (raise e).
Proof. intros g g' a' H. discriminate H. Qed.

Lemma returns_bind_with {A B} (Q1 : A -> Prop) (Q : B -> Prop)
  (m : @M W Meta A) (k : A -> @M W Meta B) :
  returns Q1 m -> (forall a, Q1 a -> returns Q (k a)) -> returns Q (bind m k).
Proof.
  intros Hm Hk g g' b H. apply bind_ok in H as (g1 & a & H1 & H2).
  exact (Hk a (Hm _ _ _ H1) _ _ _ H2).
Qed.

Lemma returns_bind {A B} (Q : B -> Prop)
  (m : @M W Meta A) (k : A -> @M W Meta B) :
  (forall a, returns Q (k a)) -> returns Q (bind m k).
Proof.
  intro Hk. apply (returns_bind_with (fun _ => True)); [intros ? ? ? _; exact I|].
  intros a _. apply Hk.
Qed.

Lemma returns_catch {A} (Q : A -> Prop)
  (m : @M W Meta A) (h : Exn -> @M W Meta A) :
  returns Q m -> (forall e, returns Q (h e)) -> returns Q (catch m h).
Proof.
  intros Hm Hh g g' a. unfold catch.
  destruct (m g) as [g1 [e|a1]] eqn:E1; intro H.
  - exact (Hh e _ _ _ H).
  - injection H as <- <-. exact (Hm _ _ _ E1).
Qed.

Lemma requeue_returns dep cands q :
  returns (fun q' => q' = rev cands ++ q) (requeue dep cands q).
Proof.
  intros g g' q' H. rewrite requeue_eq in H. injection H as _ <-. reflexivity.
Qed.

(** The [try] around [build.build] leaves the deque as it was or puts the
    candidates and the task back on its left. *)
Lemma build_or_requeue_returns m post arg rest :
  returns (fun r => r = (false, rest)
                    \/ exists cands,
                         cands <> [] /\ r = (true, rev cands ++ arg :: rest))
          (build_or_requeue E m post arg rest).
Proof.
  unfold build_or_requeue.
  apply returns_bind; intro c. apply returns_bind; intro a.
  apply returns_bind; intros _.
  apply returns_catch.
  - apply returns_bind; intros _. apply returns_ret. left. reflexivity.
  - intros [error_str| | | | | |]; try apply returns_raise.
    destruct (is_missing_dependency error_str); [|apply returns_raise].
    destruct (nth_error (PyStr.split ": " error_str) 1) as [field|];
      [|apply returns_raise].
    apply returns_bind; intros [|c0 cands]; [apply returns_raise|].
    eapply returns_bind_with; [apply requeue_returns|].
    intros q ->. apply returns_ret. right.
    exists (c0 :: cands). split; [discriminate|reflexivity].
Qed.

Lemma finish_returns m d nc bu rest already :
  returns (fun l' => recipes l' = rest) (finish E m d nc bu rest already).
Proof.
  unfold finish. do 3 (apply returns_bind; intro). apply returns_ret. reflexivity.
Qed.

Lemma full_build_returns m arg d nc rest already :
  returns (deque_outcome arg rest already)
          (full_build E m arg d nc rest already).
Proof.
  unfold full_build.
  apply returns_bind; intro a. apply returns_bind; intros _.
  eapply returns_bind_with; [apply build_or_requeue_returns|].
  intros r [->|(cands & Hne & ->)]; cbn [fst snd].
  - do 3 (apply returns_bind; intro).
    intros g g' l' H. left. exact (finish_returns _ _ _ _ _ _ _ _ _ H).
  - apply returns_ret. right. exists cands. auto.
Qed.

Ltac returns_rest :=
  repeat lazymatch goal with
         | |- returns _ (ret _) => apply returns_ret; try left; reflexivity
         | |- returns _ (bind _ _) => apply returns_bind; intro
         | |- returns _ (if ?b then _ else _) => destruct b
         end.

Lemma act_returns m arg d nc index rest already :
  returns (deque_outcome arg rest already)
          (act E m arg d nc index rest already).
Proof.
  unfold act. returns_rest;
    try (intros g g' l' H; left; exact (finish_returns _ _ _ _ _ _ _ _ _ H)).
  apply full_build_returns.
Qed.

Lemma iteration_returns index arg rest already :
  returns (deque_outcome arg rest already)
          (iteration E index arg rest already).
Proof.
  unfold iteration. apply returns_bind; intros [|d nc].
  - apply returns_ret. left. reflexivity.
  - apply returns_bind; intro ok. destruct (negb ok); [apply returns_raise|].
    apply returns_bind; intro m. apply act_returns.
Qed.

(** In the modes without full build the task is always consumed. *)
Lemma act_returns_without_build m arg d nc index rest already g g' l' :
  without_build (args g) = true ->
  act E m arg d nc index rest already g = (g', inr l') ->
  recipes l' = rest.
Proof.
  unfold without_build. intros Hmode H. unfold act in H.
  unfold bind at 1 in H. unfold get_args at 1 in H. cbv beta iota in H.
  destruct (Args.check (args g)) eqn:Hc, (Args.output (args g)) eqn:Ho,
    (Args.test (args g)) eqn:Ht, (Args.source (args g)) eqn:Hs;
    try discriminate Hmode; cbv iota in H;
    revert H;
    match goal with
    | |- ?m g = _ -> _ =>
        assert (Hm : returns (fun l' => recipes l' = rest) m);
        [ returns_rest; apply finish_returns
        | apply Hm ]
    end.
Qed.

End ReturnsFacts.


(** ** The modes without full build *)

Section WithoutBuild.
Context {W Meta : Type} (E : Collab W Meta).

Ltac same_args_conditions :=
  try solve [ intros; cbn; auto; congruence ].

Lemma resolve_same_args arg (g g' : Globals W Meta) r :
  resolve E arg g = (g', r) -> args g' = args g.
Proof.
  apply (resolve_preserves E (fun g0 g1 => args g1 = args g0));
    same_args_conditions.
Qed.

Lemma load_metadata_same_args d (g g' : Globals W Meta) r :
  load_metadata E d g = (g', r) -> args g' = args g.
Proof.
  apply (load_metadata_preserves E (fun g0 g1 => args g1 = args g0));
    same_args_conditions.
Qed.

Lemma iteration_same_args_without_build index arg rest already g g' r :
  without_build (args g) = true ->
  iteration E index arg rest already g = (g', r) ->
  args g' = args g.
Proof.
  intro Hmode.
  apply (iteration_preserves_without_build E (fun g0 g1 => args g1 = args g0));
    same_args_conditions.
Qed.

Lemma iteration_returns_without_build index arg rest already g g' l' :
  without_build (args g) = true ->
  iteration E index arg rest already g = (g', inr l') ->
  recipes l' = rest.
Proof.
  intros Hmode H. unfold iteration in H.
  apply bind_ok in H as (g1 & [|d nc] & Hr & H).
  - injection H as _ <-. reflexivity.
  - apply bind_ok in H as (g1' & ok & Ha & H). injection Ha as <- <-.
    destruct (negb (isdir E (world g1) d)); [discriminate H|].
    apply bind_ok in H as (g2 & m & Hm & H).
    eapply act_returns_without_build; [|exact H].
    rewrite (load_metadata_same_args _ _ _ _ Hm), (resolve_same_args _ _ _ _ Hr).
    exact Hmode.
Qed.

(** X1.  Under [--check], [--output], [--test] or [--source] every pass
    consumes its task and leaves [args] as it is, so the loop ends within as
    many passes as the deque has tasks. *)
Theorem loop_ends_without_build fuel :
  forall index l (g : Globals W Meta),
    without_build (args g) = true ->
    List.length (recipes l) <= fuel ->
    exists g' r,
      while_recipes E fuel index l g = Some (g', r) /\ args g' = args g.
Proof.
  induction fuel as [|fuel IH]; intros index [q already] g Hmode Hlen;
    cbn [recipes] in Hlen.
  - destruct q; [|cbn in Hlen; lia]. exists g, (inr (mkLocals [] already)).
    split; reflexivity.
  - destruct q as [|arg rest].
    + exists g, (inr (mkLocals [] already)). split; reflexivity.
    + cbn [while_recipes recipes already_built].
      destruct (iteration E index arg rest already g) as [g1 [e|l1]] eqn:Hi.
      * exists g1, (inl e). split; [reflexivity|].
        exact (iteration_same_args_without_build _ _ _ _ _ _ _ Hmode Hi).
      * pose proof (iteration_same_args_without_build _ _ _ _ _ _ _ Hmode Hi) as Ha.
        pose proof (iteration_returns_without_build _ _ _ _ _ _ _ Hmode Hi) as Hq.
        destruct (IH index l1 g1) as (g' & r & Hw & Ha').
        { rewrite Ha. exact Hmode. }
        { rewrite Hq. cbn in Hlen. lia. }
        exists g', r. split; [exact Hw|congruence].
Qed.

(** X2.  A pass never drops nor reorders the tasks that wait: it consumes
    its task, or puts candidates before it. *)
Theorem pass_keeps_pending_tasks index arg rest already (g g' : Globals W Meta) l' :
  iteration E index arg rest already g = (g', inr l') ->
  deque_outcome arg rest already l'.
Proof. apply iteration_returns. Qed.

End WithoutBuild.


(** ** Passes that do not record their task *)

Section Unrecorded.
Context {W Meta : Type} (E : Collab W Meta).

Local Abbreviation post m Q := (@post W Meta _ m Q).
Local Abbreviation returns Q m := (@returns W Meta _ Q m).

Lemma post_bind_after {A B} (P : Event Meta -> Prop)
  (m : @M W Meta A) (k : A -> @M W Meta B) Q :
  emits_only P m ->
  (forall a, post (k a) Q) ->
  (forall e1 e2 b, Forall P e1 -> Q e2 b -> Q (e1 ++ e2) b) ->
  post (bind m k) Q.
Proof.
  intros Hm Hk HQ g g' b Hb.
  apply bind_ok in Hb as (g1 & a & H1 & H2).
  destruct (Hm _ _ _ H1) as (e1 & T1 & F1).
  destruct (Hk a _ _ _ H2) as (e2 & T2 & Q2).
  exists (e1 ++ e2). rewrite T2, T1, app_assoc. auto.
Qed.

Lemma post_of_returns {A} (Q' : A -> Prop) (Q : list (Event Meta) -> A -> Prop)
  (m : @M W Meta A) :
  emits_only (fun _ => True) m ->
  returns Q' m ->
  (forall evs a, Q' a -> Q evs a) ->
  post m Q.
Proof.
  intros He Hr HQ g g' a H.
  destruct (He _ _ _ H) as (evs & T & _). exists evs. split; [exact T|].
  apply HQ. exact (Hr _ _ _ H).
Qed.

Lemma finish_records m d nc bu rest already :
  returns (fun l' => already_built l' <> already)
          (finish E m d nc bu rest already).
Proof.
  unfold finish. do 3 (apply returns_bind; intro). apply returns_ret.
  cbn. intro H. apply (f_equal (@List.length string)) in H.
  rewrite length_app in H. cbn in H. lia.
Qed.


Lemma unrecorded_after already e1 e2 l' :
  Forall (@not_rmtree Meta) e1 ->
  unrecorded already e2 l' -> unrecorded already (e1 ++ e2) l'.
Proof. intros F1 H Ha. apply Forall_app. auto. Qed.

Lemma finish_unrecorded m d nc bu rest already :
  post (finish E m d nc bu rest already) (unrecorded already).
Proof.
  apply (post_of_returns (fun l' => already_built l' <> already)).
  - apply (emits_only_weaken (only_rmtree nc d)); [auto|apply finish_emits].
  - apply finish_records.
  - intros evs l' Hne Ha. contradiction.
Qed.

Ltac no_removal :=
  repeat first
    [ emits_step
    | lazymatch goal with
      | |- emits_only _ (build_or_requeue _ _ _ _ _) =>
          apply build_or_requeue_emits
      | |- emits_only _ (resolve _ _) => apply resolve_emits
      | |- emits_only _ (load_metadata _ _) => apply load_metadata_emits
      end ];
  try exact I; auto.

Ltac unrecorded_step :=
  lazymatch goal with
  | |- post (ret _) _ => apply post_ret; intros _; constructor
  | |- post (raise _) _ =>
      let Hr := fresh in intros ? ? ? Hr; discriminate Hr
  | |- post (finish _ _ _ _ _ _ _) _ => apply finish_unrecorded
  | |- post (bind _ _) _ =>
      apply (post_bind_after not_rmtree);
      [ no_removal | intro | intros; apply unrecorded_after; assumption ]
  | |- post (if ?b then _ else _) _ => destruct b
  | |- post (match ?x with _ => _ end) _ => destruct x
  end.

Lemma full_build_unrecorded m arg d nc rest already :
  post (full_build E m arg d nc rest already) (unrecorded already).
Proof. unfold full_build. repeat unrecorded_step. Qed.

Lemma act_unrecorded m arg d nc index rest already :
  post (act E m arg d nc index rest already) (unrecorded already).
Proof.
  unfold act.
  repeat first
    [ unrecorded_step
    | lazymatch goal with
      | |- post (full_build _ _ _ _ _ _ _) _ => apply full_build_unrecorded
      end ].
Qed.

(** X3.  A pass that returns without recording its task (a file that is
    ignored, [--check], a package that is skipped, [--output], a task put
    back behind its dependencies) removes no directory: what was unpacked
    for the task stays. *)
Theorem unrecorded_pass_removes_nothing
  index arg rest already (g g' : Globals W Meta) l' :
  iteration E index arg rest already g = (g', inr l') ->
  already_built l' = already ->
  exists evs, trace g' = trace g ++ evs /\ Forall not_rmtree evs.
Proof.
  intros H Ha.
  assert (Hp : post (iteration E index arg rest already) (unrecorded already)).
  { unfold iteration.
    repeat first
      [ unrecorded_step
      | lazymatch goal with
        | |- post (act _ _ _ _ _ _ _ _) _ => apply act_unrecorded
        end ]. }
  destruct (Hp _ _ _ H) as (evs & T & Q). exists evs. split; [exact T|].
  exact (Q Ha).
Qed.

End Unrecorded.


(** ** What the loop leaves as it is *)

Section LoopFrame.
Context {W Meta : Type} (E : Collab W Meta).

Lemma loop_frame_refl (g : Globals W Meta) : loop_frame g g.
Proof. repeat split; auto. Qed.

Lemma loop_frame_trans (g1 g2 g3 : Globals W Meta) :
  loop_frame g1 g2 -> loop_frame g2 g3 -> loop_frame g1 g3.
Proof.
  intros (A1 & B1 & C1) (A2 & B2 & C2). repeat split.
  - intro lang. rewrite A2. apply A1.
  - auto.
  - congruence.
Qed.

(** X4.  The loop over the tasks never writes a version key of [config],
    never sets [noarch] back to false, and writes no field of [args] but
    [notest], [binstar_upload], [yes] and [dry_run]. *)
Theorem loop_writes_little fuel index l (g g' : Globals W Meta) r :
  while_recipes E fuel index l g = Some (g', r) ->
  loop_frame g g'.
Proof.
  apply (while_recipes_preserves E loop_frame loop_frame_refl loop_frame_trans).
  - intros g0 w. repeat split; auto.
  - intros g0 tr. repeat split; auto.
  - intro g0. repeat split; auto;
      try (intro lang; destruct lang; reflexivity).
  - intro g0. repeat split; auto.
    cbn [args]. unfold build_mode.
    destruct (Args.build_only (args g0)); [reflexivity|].
    destruct (Args.post (args g0)); reflexivity.
  - intro g0. repeat split; auto.
Qed.

End LoopFrame.

(** ** The lock *)

Section Lock.
Context {W Meta : Type} (E : Collab W Meta).

Lemma lock_after_app held (a b : list (Event Meta)) :
  lock_after held (a ++ b)
  = match lock_after held a with
    | Some held' => lock_after held' b
    | None => None
    end.
Proof.
  revert held. induction a as [|e a IH]; intro held; [reflexivity|].
  destruct e; cbn [app lock_after]; try apply IH; destruct held; auto.
Qed.

Lemma lock_after_idle held (evs : list (Event Meta)) :
  Forall idle_event evs -> lock_after held evs = Some held.
Proof.
  induction 1 as [|e evs He _ IH]; [reflexivity|].
  destruct e; cbn in He; try contradiction; exact IH.
Qed.

Lemma lock_after_task (evs : list (Event Meta)) :
  Forall task_event evs -> lock_after true evs = Some true.
Proof.
  induction 1 as [|e evs He _ IH]; [reflexivity|].
  destruct e; cbn in He; try contradiction; exact IH.
Qed.

Lemma lock_balanced_refl (g : Globals W Meta) : lock_balanced g g.
Proof. exists []. rewrite app_nil_r. auto. Qed.

Lemma lock_balanced_trans (g1 g2 g3 : Globals W Meta) :
  lock_balanced g1 g2 -> lock_balanced g2 g3 -> lock_balanced g1 g3.
Proof.
  intros (e1 & T1 & L1) (e2 & T2 & L2). exists (e1 ++ e2).
  rewrite T2, T1, app_assoc. split; [reflexivity|].
  rewrite lock_after_app, L1. exact L2.
Qed.

Lemma lock_balanced_same_trace (g g' : Globals W Meta) :
  trace g' = trace g -> lock_balanced g g'.
Proof. intro H. exists []. rewrite app_nil_r. auto. Qed.

(** The loop under the lock: taken once, released once, whatever the
    loop does. *)
Lemma locked_loop_balanced fuel index (g g' : Globals W Meta) r :
  locked_loop E fuel index g = Some (g', r) -> lock_balanced g g'.
Proof.
  unfold locked_loop, bind, call, emit.
  destruct (lock_acquire E (config g) (world g)) as [w1 [e|u]]; cbn.
  - intros [= <- _]. apply lock_balanced_same_trace. reflexivity.
  - destruct (while_recipes E fuel index _ _) as [[g2 [e|l2]]|] eqn:Hw;
      intro H; try discriminate H; injection H as <- _;
      destruct (while_recipes_task E task_event (fun _ h => h) _ _ _ _ _ _ Hw)
        as (evs & T & F);
      exists ([EvLocked] ++ evs ++ [EvUnlocked]);
      (split;
       [ cbn [unlock trace]; rewrite T; cbn [trace];
         rewrite <- !app_assoc; reflexivity
       | cbn [app lock_after]; rewrite lock_after_app, (lock_after_task _ F);
         reflexivity ]).
Qed.

Lemma prepare_index_balanced (g g' : Globals W Meta) r :
  prepare_index E g = (g', r) -> lock_balanced g g'.
Proof.
  intro H.
  assert (He : emits_only (@idle_event Meta) (prepare_index E)).
  { unfold prepare_index. repeat emits_step. exact I. }
  destruct (He _ _ _ H) as (evs & T & F). exists evs. split; [exact T|].
  apply lock_after_idle. exact F.
Qed.

Lemma for_versions_balanced (rec : @Run W Meta) lang versions :
  (forall g g' r, rec g = Some (g', r) -> lock_balanced g g') ->
  forall todo g g' r,
    for_versions rec lang versions todo g = Some (g', r) -> lock_balanced g g'.
Proof.
  intros Hrec todo. induction todo as [|ver more IH]; intros g g' r H; cbn in H.
  - injection H as <- _. apply lock_balanced_refl.
  - destruct (rec (with_lang g lang [VStr (ver_str ver)]))
      as [[g1 [e|u]]|] eqn:Hr; try discriminate H.
    + injection H as <- _. exact (Hrec _ _ _ Hr).
    + eapply lock_balanced_trans; [exact (Hrec _ _ _ Hr)|].
      exact (IH _ _ _ H).
Qed.

Lemma for_langs_balanced (rec : @Run W Meta) :
  (forall g g' r, rec g = Some (g', r) -> lock_balanced g g') ->
  forall langs g g' r,
    for_langs rec langs g = Some (g', r) -> lock_balanced g g'.
Proof.
  intros Hrec langs. induction langs as [|lang more IH]; intros g g' r H;
    cbn [for_langs] in H.
  - injection H as <- _. apply lock_balanced_refl.
  - destruct (lang_step lang g) as [g1 [e|[|versions]]] eqn:Hs;
      destruct (lang_step_frame _ _ _ _ Hs) as (_ & _ & Ht);
      pose proof (lock_balanced_same_trace g g1 Ht) as B1.
    + injection H as <- _. exact B1.
    + eapply lock_balanced_trans; [exact B1|]. exact (IH _ _ _ H).
    + destruct (for_versions rec lang versions versions g1)
        as [[g2 [e|u]]|] eqn:Hv; try discriminate H;
        injection H as <- _;
        (eapply lock_balanced_trans;
         [exact B1|exact (for_versions_balanced rec lang versions Hrec _ _ _ _ Hv)]).
Qed.

(** X5.  In every run of [execute] that ends, with a result or with an
    error, and in all the runs that it makes of itself: the lock is released
    after each time it is taken, it is never taken while held, and every
    unpacking, build, test, source fetch, removal and upload is made while
    it is held; printing and the update of the index are not bound to it. *)
Theorem lock_released_and_never_nested depth :
  forall fuel (g g' : Globals W Meta) r,
    execute E depth fuel g = Some (g', r) -> lock_balanced g g'.
Proof.
  induction depth as [|depth IH]; intros fuel g g' r H; [discriminate H|].
  cbn [execute] in H. unfold call in H.
  destruct (startup E (world g)) as [w1 [e|u]].
  - injection H as <- _. apply lock_balanced_same_trace. reflexivity.
  - destruct (for_langs (execute E depth fuel) all_langs _)
      as [[g2 [e|[|]]]|] eqn:Hl; try discriminate H;
      pose proof (for_langs_balanced (execute E depth fuel) (IH fuel) _ _ _ _ Hl)
        as B2;
      assert (B2' : lock_balanced g g2)
        by (destruct B2 as (evs & T & L); exists evs; auto).
    + injection H as <- _. exact B2'.
    + injection H as <- _. exact B2'.
    + destruct (prepare_index E g2) as [g3 [e|index]] eqn:Hp.
      * injection H as <- _.
        exact (lock_balanced_trans _ _ _ B2' (prepare_index_balanced _ _ _ Hp)).
      * eapply lock_balanced_trans; [exact B2'|].
        eapply lock_balanced_trans; [exact (prepare_index_balanced _ _ _ Hp)|].
        exact (locked_loop_balanced _ _ _ _ _ H).
Qed.

End Lock.


(** ** Errors of a pass *)

Lemma append_nil_r (s : string) : (s ++ "")%string = s.
Proof. induction s as [|c s IH]; cbn; [reflexivity|]. rewrite IH. reflexivity. Qed.

(** A text without the separator is the one piece of its split. *)
Lemma split_without_separator sep s acc :
  PyStr.contains sep s = false ->
  PyStr.split_go sep s 0 acc = [(acc ++ s)%string].
Proof.
  revert acc. induction s as [|c s IH]; intros acc H.
  - cbn. rewrite append_nil_r. reflexivity.
  - cbn [PyStr.contains] in H. apply orb_false_iff in H as [Hp Hc].
    cbn [PyStr.split_go]. rewrite Hp, IH by exact Hc.
    rewrite append_cons_assoc. reflexivity.
Qed.

Section PassErrors.
Context {W Meta : Type} (E : Collab W Meta).

Lemma full_build_raises m arg d nc rest already (g : Globals W Meta) w4 e :
  build_build E (config g) (fst (build_mode (args g))) (snd (build_mode (args g)))
    m (world g) = (w4, inl e) ->
  recoverable e = false ->
  full_build E m arg d nc rest already g = (after_build g w4 m, inl e).
Proof.
  intros Hb Hrec. destruct g as [w c a tr]; cbn in *.
  unfold full_build, build_or_requeue, bind, get_args, set_args, get_config,
    emit, catch, call, ask, ret, raise; cbn.
  rewrite Hb; cbn.
  destruct e; cbn in Hrec; try rewrite Hrec; reflexivity.
Qed.

Lemma full_build_index_error m arg d nc rest already (g : Globals W Meta) w4
  error_str :
  build_build E (config g) (fst (build_mode (args g))) (snd (build_mode (args g)))
    m (world g) = (w4, inl (RuntimeError error_str)) ->
  is_missing_dependency error_str = true ->
  PyStr.contains ": " error_str = false ->
  full_build E m arg d nc rest already g = (after_build g w4 m, inl IndexError).
Proof.
  intros Hb Hm Hc. destruct g as [w c a tr]; cbn in *.
  unfold full_build, build_or_requeue, bind, get_args, set_args, get_config,
    emit, catch, call, ask, ret, raise; cbn.
  rewrite Hb; cbn. rewrite Hm. unfold PyStr.split.
  rewrite (split_without_separator _ _ _ Hc). reflexivity.
Qed.

(** X6.  Any error of [build.build] other than that of a missing dependency
    ends the pass and the loop with that same error: it is neither retried
    nor swallowed, and the tasks that wait are not attempted. *)
Theorem other_build_errors_are_fatal
  index arg rest already (g : Globals W Meta) d nc m g2 w3 w4 e fuel :
  resolves_to E arg g d nc m g2 ->
  passes_checks E index already m g2 w3 ->
  full_build_selected (args g2) ->
  build_build E (config g2) (fst (build_mode (args g2)))
    (snd (build_mode (args g2))) m w3 = (w4, inl e) ->
  recoverable e = false ->
  while_recipes E (S fuel) index (mkLocals (arg :: rest) already) g
  = Some (after_build (with_world g2 w3) w4 m, inl e).
Proof.
  intros Hr Hp Hs Hb Hrec.
  cbn [while_recipes recipes already_built].
  rewrite (iteration_act E _ _ _ _ _ _ _ _ _ Hr).
  rewrite (act_full_build E _ _ _ _ _ _ _ _ _ Hp Hs).
  rewrite (full_build_raises m arg d nc rest already (with_world g2 w3) w4 e);
    [reflexivity|exact Hb|exact Hrec].
Qed.

(** X7.  The error of a missing dependency whose text has no [": "]: the
    search for the name of the package raises [IndexError], which ends the
    loop. *)
Theorem missing_dependency_without_colon
  index arg rest already (g : Globals W Meta) d nc m g2 w3 w4 error_str fuel :
  resolves_to E arg g d nc m g2 ->
  passes_checks E index already m g2 w3 ->
  full_build_selected (args g2) ->
  build_build E (config g2) (fst (build_mode (args g2)))
    (snd (build_mode (args g2))) m w3 = (w4, inl (RuntimeError error_str)) ->
  is_missing_dependency error_str = true ->
  PyStr.contains ": " error_str = false ->
  while_recipes E (S fuel) index (mkLocals (arg :: rest) already) g
  = Some (after_build (with_world g2 w3) w4 m, inl IndexError).
Proof.
  intros Hr Hp Hs Hb Hm Hc.
  cbn [while_recipes recipes already_built].
  rewrite (iteration_act E _ _ _ _ _ _ _ _ _ Hr).
  rewrite (act_full_build E _ _ _ _ _ _ _ _ _ Hp Hs).
  rewrite (full_build_index_error m arg d nc rest already (with_world g2 w3) w4
             error_str); [reflexivity|exact Hb|exact Hm|exact Hc].
Qed.

(** X8.  A task that is no file and whose path is no directory ends the loop
    with the exit [Error: no such directory]; nothing is printed and the
    tasks that wait are not attempted. *)
Theorem missing_directory_is_fatal index arg rest already (g : Globals W Meta) fuel :
  isfile E (world g) arg = false ->
  isdir E (world g) (abspath E (world g) arg) = false ->
  while_recipes E (S fuel) index (mkLocals (arg :: rest) already) g
  = Some (g, inl (SystemExit ("Error: no such directory: "
                              ++ abspath E (world g) arg))).
Proof.
  intros Hf Hd. cbn [while_recipes recipes already_built].
  unfold iteration, resolve, bind, ask, ret, raise.
  rewrite Hf. cbn. rewrite Hd. reflexivity.
Qed.

(** X9.  Metadata that does not parse: the message of the parser goes to the
    standard error and the loop ends with the exit status 1; any other error
    of [MetaData] ends the loop as it is. *)
Theorem unparsable_metadata_is_fatal
  index arg rest already (g g1 : Globals W Meta) d nc w2 e fuel :
  resolve E arg g = (g1, inr (RecipeDir d nc)) ->
  isdir E (world g1) d = true ->
  MetaData E (config g1) d (world g1) = (w2, inl e) ->
  while_recipes E (S fuel) index (mkLocals (arg :: rest) already) g
  = Some
      (match e with
       | YamlParsingError msg =>
           (with_events (with_world g1 w2) [EvStderr msg], inl (SystemExit "1"))
       | _ => (with_world g1 w2, inl e)
       end).
Proof.
  intros Hr Hd Hm. cbn [while_recipes recipes already_built].
  unfold iteration. unfold bind at 1. rewrite Hr.
  unfold bind at 1. unfold ask at 1. rewrite Hd. cbn [negb].
  destruct g1 as [w c a tr]; cbn in *.
  unfold load_metadata, bind, get_config, catch, call, emit, raise; cbn.
  rewrite Hm; cbn.
  destruct e; reflexivity.
Qed.

(** X10.  A file that is no archive is ignored with a notice: the pass
    changes nothing else, and the loop goes on with the tasks that wait. *)
Theorem non_recipe_file_is_ignored index arg rest already (g : Globals W Meta) fuel :
  isfile E (world g) arg = true ->
  is_archive arg = false ->
  while_recipes E (S fuel) index (mkLocals (arg :: rest) already) g
  = while_recipes E fuel index (mkLocals rest already)
      (with_events g [EvPrint ("Ignoring non-recipe: " ++ arg)]).
Proof.
  intros Hf Ha. cbn [while_recipes recipes already_built].
  unfold iteration, resolve, bind, ask, ret, emit.
  rewrite Hf, Ha. reflexivity.
Qed.

End PassErrors.


(** ** The end of a full build *)

Section BuildEnd.
Context {W Meta : Type} (E : Collab W Meta).

(** X11.  Under [--build-only] and under [--post], a build that succeeds is
    followed by no test and by no upload, whatever [args] said of them: the
    pass prints the instructions for a later upload and records the package,
    and [args] keeps [notest] set and [binstar_upload] unset for the tasks
    that follow. *)
Theorem build_only_and_post_skip_test_and_upload
  index arg rest already (g : Globals W Meta) d nc m g2 w3 w4 w5 :
  resolves_to E arg g d nc m g2 ->
  passes_checks E index already m g2 w3 ->
  full_build_selected (args g2) ->
  Args.build_only (args g2) || Args.post (args g2) = true ->
  build_build E (config g2) (fst (build_mode (args g2)))
    (snd (build_mode (args g2))) m w3 = (w4, inr tt) ->
  cleaned E d nc w4 w5 ->
  iteration E index arg rest already g
  = (mkGlobals w5 (config g2) (Args.no_test_no_upload (args g2))
       (trace g2
        ++ EvBuild m (Some (negb (Args.build_only (args g2))))
           :: (if nc then [EvRmtree d] else [])
        ++ [EvPrint (no_upload_message (bldpkg_path E (config g2) m))]),
     inr (mkLocals rest (already ++ [pkg_fn E (config g2) m]))).
Proof.
  intros Hr Hp Hs Hmode Hb Hcl.
  rewrite (iteration_act E _ _ _ _ _ _ _ _ _ Hr).
  rewrite (act_full_build E _ _ _ _ _ _ _ _ _ Hp Hs).
  destruct g2 as [w c a tr]; cbn in *.
  unfold full_build, build_or_requeue, finish, handle_binstar_upload, with_world,
    bind, get_args, set_args, get_config, emit, catch, call, ask, ret, raise,
    when; cbn.
  unfold build_mode in *.
  destruct (Args.build_only a); cbn in *.
  - rewrite Hb; cbn. destruct nc; cbn in *.
    + rewrite Hcl; cbn. rewrite <- ?app_assoc; cbn. reflexivity.
    + subst w5. rewrite <- ?app_assoc; cbn. reflexivity.
  - rewrite Hmode in *. cbn in *. rewrite Hb; cbn. destruct nc; cbn in *.
    + rewrite Hcl; cbn. rewrite <- ?app_assoc; cbn. reflexivity.
    + subst w5. rewrite <- ?app_assoc; cbn. reflexivity.
Qed.

(** X12.  When an upload is asked for and the [anaconda] command is not
    found, the pass of a build that has succeeded, been tested and cleaned
    up ends with an exit after the instructions for a later upload are
    printed: the package is built but not recorded in [already_built]. *)
Theorem upload_without_anaconda_is_fatal
  index arg rest already (g : Globals W Meta) d nc m g2 w3 w4 w5 w6 evs :
  resolves_to E arg g d nc m g2 ->
  passes_checks E index already m g2 w3 ->
  full_build_selected (args g2) ->
  Args.build_only (args g2) = false ->
  Args.post (args g2) = false ->
  Args.binstar_upload (args g2) = Some true ->
  build_build E (config g2) (args g2) None m w3 = (w4, inr tt) ->
  tested E (args g2) (config g2) m w4 w5 evs ->
  cleaned E d nc w5 w6 ->
  find_executable E w6 "anaconda" = None ->
  exists status,
    PyStr.contains "cannot locate anaconda command" status = true
    /\ iteration E index arg rest already g
       = (mkGlobals w6 (config g2) (args g2)
            (trace g2 ++ EvBuild m None :: evs
             ++ (if nc then [EvRmtree d] else [])
             ++ [EvPrint (no_upload_message (bldpkg_path E (config g2) m))]),
          inl (SystemExit status)).
Proof.
  intros Hr Hp Hs Hbo Hpo Hup Hb Ht Hcl Hfind.
  exists "Error: cannot locate anaconda command (required for upload)".
  split; [vm_compute; reflexivity|].
  {
    rewrite (iteration_act E _ _ _ _ _ _ _ _ _ Hr).
    rewrite (act_full_build E _ _ _ _ _ _ _ _ _ Hp Hs).
    destruct g2 as [w c a tr]; cbn in *.
    unfold full_build, build_or_requeue, finish, handle_binstar_upload, with_world,
      bind, get_args, set_args, get_config, emit, catch, call, ask, ret, raise,
      when, build_mode; cbn.
    rewrite Hbo, Hpo; cbn. rewrite Hb; cbn.
    unfold tested in Ht. destruct (Args.notest a); cbn in *.
    - destruct Ht as [-> ->]. destruct nc; cbn in *.
      + rewrite Hcl; cbn. rewrite Hup; cbn. rewrite Hfind; cbn.
        rewrite <- ?app_assoc; cbn. reflexivity.
      + subst w6. rewrite Hup; cbn. rewrite Hfind; cbn.
        rewrite <- ?app_assoc; cbn. reflexivity.
    - destruct Ht as [Ht ->]. rewrite Ht; cbn. destruct nc; cbn in *.
      + rewrite Hcl; cbn. rewrite Hup; cbn. rewrite Hfind; cbn.
        rewrite <- ?app_assoc; cbn. reflexivity.
      + subst w6. rewrite Hup; cbn. rewrite Hfind; cbn.
        rewrite <- ?app_assoc; cbn. reflexivity.
  }
Qed.

End BuildEnd.


(** ** The modes that only look *)

Section Quiet.
Context {W Meta : Type} (E : Collab W Meta).

Local Abbreviation returns Q m := (@returns W Meta _ Q m).

Ltac quiet_events :=
  repeat emits_step; try exact I.

Lemma resolve_quiet arg : emits_only (@quiet_event Meta) (resolve E arg).
Proof. unfold resolve. quiet_events. Qed.

Lemma load_metadata_quiet d : emits_only (@quiet_event Meta) (load_metadata E d).
Proof. unfold load_metadata. quiet_events. Qed.

Lemma act_quiet m arg d nc index rest already (g g' : Globals W Meta) r :
  Args.check (args g) || Args.output (args g) = true ->
  act E m arg d nc index rest already g = (g', r) ->
  (exists evs, trace g' = trace g ++ evs /\ Forall quiet_event evs)
  /\ (forall l', r = inr l' -> already_built l' = already).
Proof.
  intros Hmode H. unfold act in H.
  unfold bind at 1 in H. unfold get_args at 1 in H. cbv beta iota in H.
  destruct (Args.check (args g)) eqn:Hc, (Args.output (args g)) eqn:Ho;
    try discriminate Hmode; cbv iota in H;
    revert H;
    match goal with
    | |- ?m g = _ -> _ =>
        assert (Hm : emits_only (@quiet_event Meta) m) by quiet_events;
        assert (Hv : returns (fun l' => already_built l' = already) m)
          by (repeat lazymatch goal with
                     | |- returns _ (ret _) => apply returns_ret; reflexivity
                     | |- returns _ (bind _ _) => apply returns_bind; intro
                     | |- returns _ (if ?b then _ else _) => destruct b
                     end);
        intro H; split;
        [ exact (Hm _ _ _ H) | intros l' ->; exact (Hv _ _ _ H) ]
    end.
Qed.

Lemma iteration_quiet index arg rest already (g g' : Globals W Meta) r :
  Args.check (args g) || Args.output (args g) = true ->
  iteration E index arg rest already g = (g', r) ->
  (exists evs, trace g' = trace g ++ evs /\ Forall quiet_event evs)
  /\ (forall l', r = inr l' -> already_built l' = already).
Proof.
  intros Hmode H. unfold iteration in H. unfold bind at 1 in H.
  destruct (resolve E arg g) as [g1 [e|[|d nc]]] eqn:Hr.
  - injection H as <- <-. split; [exact (resolve_quiet _ _ _ _ Hr)|discriminate].
  - injection H as <- <-. split; [exact (resolve_quiet _ _ _ _ Hr)|].
    intros l' [= <-]. reflexivity.
  - destruct (resolve_quiet _ _ _ _ Hr) as (e1 & T1 & F1).
    unfold bind at 1 in H. unfold ask at 1 in H.
    destruct (negb (isdir E (world g1) d)).
    + injection H as <- <-. split; [eauto|discriminate].
    + unfold bind at 1 in H.
      destruct (load_metadata E d g1) as [g2 [e|m]] eqn:Hm.
      * injection H as <- <-.
        destruct (load_metadata_quiet _ _ _ _ Hm) as (e2 & T2 & F2).
        split; [|discriminate].
        exists (e1 ++ e2). rewrite T2, T1, app_assoc. split; [reflexivity|].
        apply Forall_app; split; assumption.
      * destruct (load_metadata_quiet _ _ _ _ Hm) as (e2 & T2 & F2).
        destruct (act_quiet m arg d nc index rest already g2 g' r) as [(e3 & T3 & F3) Hv].
        { rewrite (load_metadata_same_args E _ _ _ _ Hm),
            (resolve_same_args E _ _ _ _ Hr). exact Hmode. }
        { exact H. }
        split; [|exact Hv].
        exists (e1 ++ e2 ++ e3). rewrite T3, T2, T1, <- !app_assoc.
        split; [reflexivity|].
        apply Forall_app; split; [exact F1|apply Forall_app; split; assumption].
Qed.

(** X13.  Under [--check] and under [--output] the loop does nothing but
    unpack and print: no build, no test, no source fetch, no upload, no
    removal (what it unpacked stays), and [already_built] is left as it is.
    *)
Theorem check_and_output_only_look fuel :
  forall index l (g g' : Globals W Meta) r,
    Args.check (args g) || Args.output (args g) = true ->
    while_recipes E fuel index l g = Some (g', r) ->
    (exists evs, trace g' = trace g ++ evs /\ Forall quiet_event evs)
    /\ (forall l', r = inr l' -> already_built l' = already_built l).
Proof.
  induction fuel as [|fuel IH]; intros index [q already] g g' r Hmode H.
  - cbn in H. destruct q; [|discriminate H]. injection H as <- <-.
    split; [exists []; rewrite app_nil_r; auto|intros l' [= <-]; reflexivity].
  - cbn [while_recipes recipes already_built] in H.
    destruct q as [|arg rest].
    + injection H as <- <-.
      split; [exists []; rewrite app_nil_r; auto|intros l' [= <-]; reflexivity].
    + assert (Hwb : without_build (args g) = true).
      { unfold without_build. apply orb_true_iff in Hmode as [->| ->];
          rewrite ?orb_true_r; reflexivity. }
      destruct (iteration E index arg rest already g) as [g1 [e|l1]] eqn:Hi.
      * injection H as <- <-.
        destruct (iteration_quiet _ _ _ _ _ _ _ Hmode Hi) as [He _].
        split; [exact He|discriminate].
      * destruct (iteration_quiet _ _ _ _ _ _ _ Hmode Hi) as [(e1 & T1 & F1) Hv].
        pose proof (iteration_same_args_without_build E _ _ _ _ _ _ _ Hwb Hi) as Ha.
        destruct (IH index l1 g1 g' r) as [(e2 & T2 & F2) Hv2];
          [rewrite Ha; exact Hmode|exact H|].
        split.
        -- exists (e1 ++ e2). rewrite T2, T1, app_assoc. split; [reflexivity|].
           apply Forall_app; split; assumption.
        -- intros l' Hl. rewrite (Hv2 l' Hl). cbn. exact (Hv l1 eq_refl).
Qed.

End Quiet.

(** ** The top level *)

Section TopLevel.
Context {W Meta : Type} (E : Collab W Meta).

(** X14.  [args_func] never ends with a [RuntimeError], but the one of the
    recursion depth; it never ends well when [execute] has raised; and when
    it ends with an exit, that is the exit of [execute] itself or the
    [RuntimeError] of [execute] with [Error: ] before its text. *)
Theorem args_func_reports_runtime_errors depth fuel (g g' : Globals W Meta) r :
  args_func E depth fuel g = Some (g', r) ->
  (forall msg, r = inl (RuntimeError msg) ->
     PyStr.contains "maximum recursion depth exceeded" msg = true)
  /\ (forall u, r = inr u -> execute E depth fuel g = Some (g', inr tt))
  /\ (forall status,
         r = inl (SystemExit status) ->
         execute E depth fuel g = Some (g', inl (SystemExit status))
         \/ exists msg,
              status = ("Error: " ++ msg)%string
              /\ execute E depth fuel g = Some (g', inl (RuntimeError msg))).
Proof.
  unfold args_func.
  destruct (execute E depth fuel g) as [[g1 [e|u]]|]; intro H; [| |discriminate H].
  - destruct e as [msg|status|msg| | | |cls msg].
    + destruct (PyStr.contains "maximum recursion depth exceeded" msg) eqn:Hc.
      * injection H as <- <-. cbn. repeat split.
        -- intros msg' [= <-]. exact Hc.
        -- discriminate.
        -- discriminate.
      * injection H as <- <-. repeat split; try discriminate.
        intros status [= <-]. right. exists msg. auto.
    + injection H as <- <-. repeat split; try discriminate.
      intros status' [= <-]. left. reflexivity.
    + injection H as <- <-. cbn. repeat split; discriminate.
    + injection H as <- <-. cbn. repeat split; discriminate.
    + injection H as <- <-. cbn. repeat split; discriminate.
    + injection H as <- <-. cbn. repeat split; discriminate.
    + unfold print_issue_message, when, bind, emit, ret, raise in H.
      cbn [class_name] in H.
      destruct (negb (PyStr.mem cls ["ScannerError"; "ParserError"]));
        injection H as <- <-; repeat split; discriminate.
  - destruct u. injection H as <- <-. repeat split; discriminate.
Qed.

(** X15.  Under [--skip-existing] a task whose package is in the index that
    was read before the loop is skipped with a notice: no build, and the
    deque and [already_built] are left as they are. *)
Theorem package_in_index_is_skipped
  index arg rest already (g : Globals W Meta) d nc m g2 w3 :
  resolves_to E arg g d nc m g2 ->
  Args.check (args g2) = false ->
  check_fields E m (world g2) = (w3, inr tt) ->
  Args.skip_existing (args g2) = true ->
  In (pkg_fn E (config g2) m) index ->
  iteration E index arg rest already g
  = (skipped E g2 w3 m, inr (mkLocals rest already)).
Proof.
  intros Hr Hc Hf Hs Hin.
  rewrite (iteration_act E _ _ _ _ _ _ _ _ _ Hr).
  apply act_skips; try assumption.
  apply orb_true_iff. left. apply mem_In. exact Hin.
Qed.

End TopLevel.

(** ** The completers *)

Lemma completion_stored {W Meta : Type} lang s v (g : Globals W Meta) :
  PyStr.int (PyStr.replace "." "" s) = Some v ->
  negb (String.length (PyStr.str v) =? 2)%nat && two_digit_axis lang = false ->
  (forall vs, all_versions lang = Some vs -> In v vs /\ s = tenth v) ->
  Args.getattr (args g) lang = [VStr s] ->
  exists v,
    PyStr.int (PyStr.replace "." "" s) = Some v
    /\ lang_step lang g = (with_version g lang v, inr Next)
    /\ (forall vs, all_versions lang = Some vs -> In v vs /\ s = tenth v).
Proof.
  intros Hv Hw Htab Hget. exists v. split; [exact Hv|]. split; [|exact Htab].
  rewrite (lang_step_single lang s v g Hget Hv), Hw. reflexivity.
Qed.

(** X16.  Each version that the completers offer for an axis is taken by the
    loop over the axes without error: [all] expands to the known versions,
    and any other completion is stored in [config] as the integer of its
    digits, for python and numpy the entry of [all_versions] that it was
    made from. *)
Theorem completions_are_accepted {W Meta : Type} lang s (g : Globals W Meta) :
  In s (completions lang) ->
  Args.getattr (args g) lang = [VStr s] ->
  (s = "all"
   /\ exists vs, all_versions lang = Some vs
                 /\ lang_step lang g = (g, inr (Expand (map VInt vs))))
  \/ (exists v,
         PyStr.int (PyStr.replace "." "" s) = Some v
         /\ lang_step lang g = (with_version g lang v, inr Next)
         /\ (forall vs, all_versions lang = Some vs -> In v vs /\ s = tenth v)).
Proof.
  intros Hin Hget.
  assert (Hall : forall l, all_versions lang = Some l ->
                 s = "all" ->
                 exists vs, all_versions lang = Some vs
                   /\ lang_step lang g = (g, inr (Expand (map VInt vs)))).
  { intros l Hl ->. exists l. split; [exact Hl|].
    apply lang_step_all; assumption. }
  destruct lang; cbn in Hin; try contradiction.
  - destruct Hin as [<-|Hin]; [left; split; [reflexivity|]; eapply Hall; reflexivity|].
    right.
    repeat (destruct Hin as [<-|Hin];
            [ eapply completion_stored;
              [ vm_compute; reflexivity | vm_compute; reflexivity
              | intros vs [= <-]; split; [cbn; tauto|vm_compute; reflexivity]
              | exact Hget ] | ]).
    contradiction.
  - destruct Hin as [<-|Hin]; [left; split; [reflexivity|]; eapply Hall; reflexivity|].
    right.
    repeat (destruct Hin as [<-|Hin];
            [ eapply completion_stored;
              [ vm_compute; reflexivity | vm_compute; reflexivity
              | intros vs [= <-]; split; [cbn; tauto|vm_compute; reflexivity]
              | exact Hget ] | ]).
    contradiction.
  - right.
    repeat (destruct Hin as [<-|Hin];
            [ eapply completion_stored;
              [ vm_compute; reflexivity | vm_compute; reflexivity
              | intros vs Hvs; discriminate Hvs
              | exact Hget ] | ]).
    contradiction.
Qed.

(** ** The index *)

Section Index.
Context {W Meta : Type} (E : Collab W Meta).

Lemma index_untouched_refl (g : Globals W Meta) : index_untouched g g.
Proof. split; [reflexivity|]. intros _. exists []. rewrite app_nil_r. auto. Qed.

Lemma index_untouched_trans (g1 g2 g3 : Globals W Meta) :
  index_untouched g1 g2 -> index_untouched g2 g3 -> index_untouched g1 g3.
Proof.
  intros [A1 T1] [A2 T2]. split; [congruence|].
  intro Hs. destruct (T1 Hs) as (e1 & E1 & F1).
  destruct (T2 ltac:(congruence)) as (e2 & E2 & F2).
  exists (e1 ++ e2). rewrite E2, E1, app_assoc. split; [reflexivity|].
  apply Forall_app; split; assumption.
Qed.

Lemma index_untouched_same (g g' : Globals W Meta) :
  args g' = args g -> trace g' = trace g -> index_untouched g g'.
Proof.
  intros Ha Ht. split; [rewrite Ha; reflexivity|].
  intros _. exists []. rewrite app_nil_r. auto.
Qed.

Lemma with_lang_index_untouched (g : Globals W Meta) lang vs :
  index_untouched g (with_lang g lang vs).
Proof.
  split; [destruct lang; reflexivity|].
  intros _. exists []. cbn. rewrite app_nil_r. auto.
Qed.

Lemma while_recipes_skip_existing fuel index l (g g' : Globals W Meta) r :
  while_recipes E fuel index l g = Some (g', r) ->
  Args.skip_existing (args g') = Args.skip_existing (args g).
Proof.
  apply (while_recipes_preserves E
           (fun g0 g1 : Globals W Meta =>
              Args.skip_existing (args g1) = Args.skip_existing (args g0))).
  - reflexivity.
  - intros g1 g2 g3 H1 H2. congruence.
  - reflexivity.
  - reflexivity.
  - reflexivity.
  - intro g0. cbn [args]. unfold build_mode.
    destruct (Args.build_only (args g0)); [reflexivity|].
    destruct (Args.post (args g0)); reflexivity.
  - reflexivity.
Qed.

Lemma locked_loop_index_untouched fuel index (g g' : Globals W Meta) r :
  locked_loop E fuel index g = Some (g', r) -> index_untouched g g'.
Proof.
  unfold locked_loop, bind, call, emit.
  destruct (lock_acquire E (config g) (world g)) as [w1 [e|u]]; cbn.
  - intros [= <- _]. apply index_untouched_same; reflexivity.
  - destruct (while_recipes E fuel index _ _) as [[g2 [e|l2]]|] eqn:Hw;
      intro H; try discriminate H; injection H as <- _;
      destruct (while_recipes_task E not_index
                  ltac:(intros [] He; try exact I; destruct He) _ _ _ _ _ _ Hw)
        as (evs & T & F);
      pose proof (while_recipes_skip_existing _ _ _ _ _ _ Hw) as Hreq;
      cbn in Hreq;
      (split; [exact Hreq|]);
      intros _; exists ([EvLocked] ++ evs ++ [EvUnlocked]);
      (split;
       [ cbn [unlock trace]; rewrite T; cbn [trace];
         rewrite <- !app_assoc; reflexivity
       | repeat (apply Forall_app; split); auto; repeat constructor ]).
Qed.

Lemma prepare_index_untouched (g g' : Globals W Meta) r :
  prepare_index E g = (g', r) -> index_untouched g g'.
Proof.
  unfold prepare_index, bind, get_args, get_config, emit, call, ret.
  destruct (Args.skip_existing (args g)) eqn:Hs.
  - intro H. split; [|congruence].
    cbn in H.
    destruct (update_index E (config g) (world g)) as [w1 [e|u]]; cbn in H.
    + injection H as <- _. reflexivity.
    + destruct (get_build_index E (config g) (args g) w1) as [w2 [e|i]];
        injection H as <- _; reflexivity.
  - intros [= <- _]. apply index_untouched_refl.
Qed.

Lemma for_versions_index_untouched (rec : @Run W Meta) lang versions :
  (forall g g' r, rec g = Some (g', r) -> index_untouched g g') ->
  forall todo g g' r,
    for_versions rec lang versions todo g = Some (g', r) -> index_untouched g g'.
Proof.
  intros Hrec todo. induction todo as [|ver more IH]; intros g g' r H; cbn in H.
  - injection H as <- _. apply index_untouched_refl.
  - destruct (rec (with_lang g lang [VStr (ver_str ver)]))
      as [[g1 [e|u]]|] eqn:Hr; try discriminate H.
    + injection H as <- _.
      exact (index_untouched_trans _ _ _ (with_lang_index_untouched _ _ _)
               (Hrec _ _ _ Hr)).
    + eapply index_untouched_trans; [apply with_lang_index_untouched|].
      eapply index_untouched_trans; [exact (Hrec _ _ _ Hr)|].
      eapply index_untouched_trans; [apply with_lang_index_untouched|].
      exact (IH _ _ _ H).
Qed.

Lemma for_langs_index_untouched (rec : @Run W Meta) :
  (forall g g' r, rec g = Some (g', r) -> index_untouched g g') ->
  forall langs g g' r,
    for_langs rec langs g = Some (g', r) -> index_untouched g g'.
Proof.
  intros Hrec langs. induction langs as [|lang more IH]; intros g g' r H;
    cbn [for_langs] in H.
  - injection H as <- _. apply index_untouched_refl.
  - destruct (lang_step lang g) as [g1 [e|[|versions]]] eqn:Hs;
      destruct (lang_step_frame _ _ _ _ Hs) as (_ & Ha & Ht);
      pose proof (index_untouched_same g g1 Ha Ht) as B1.
    + injection H as <- _. exact B1.
    + eapply index_untouched_trans; [exact B1|]. exact (IH _ _ _ H).
    + destruct (for_versions rec lang versions versions g1)
        as [[g2 [e|u]]|] eqn:Hv; try discriminate H;
        injection H as <- _;
        (eapply index_untouched_trans;
         [exact B1
         |exact (for_versions_index_untouched rec lang versions Hrec _ _ _ _ Hv)]).
Qed.

(** X17.  The index is updated only under [--skip-existing]: in a run of
    [execute] that ends, and in all the runs that it makes of itself,
    [--skip-existing] stays as it was given and, without it, no update of
    the index takes place. *)
Theorem index_updated_only_under_skip_existing depth :
  forall fuel (g g' : Globals W Meta) r,
    execute E depth fuel g = Some (g', r) -> index_untouched g g'.
Proof.
  induction depth as [|depth IH]; intros fuel g g' r H; [discriminate H|].
  cbn [execute] in H. unfold call in H.
  destruct (startup E (world g)) as [w1 [e|u]].
  - injection H as <- _. apply index_untouched_same; reflexivity.
  - destruct (for_langs (execute E depth fuel) all_langs _)
      as [[g2 [e|[|]]]|] eqn:Hl; try discriminate H;
      pose proof (for_langs_index_untouched (execute E depth fuel) (IH fuel)
                    _ _ _ _ Hl) as B2;
      assert (B2' : index_untouched g g2) by exact B2.
    + injection H as <- _. exact B2'.
    + injection H as <- _. exact B2'.
    + destruct (prepare_index E g2) as [g3 [e|index]] eqn:Hp.
      * injection H as <- _.
        exact (index_untouched_trans _ _ _ B2' (prepare_index_untouched _ _ _ Hp)).
      * eapply index_untouched_trans; [exact B2'|].
        eapply index_untouched_trans; [exact (prepare_index_untouched _ _ _ Hp)|].
        exact (locked_loop_index_untouched _ _ _ _ _ H).
Qed.

End Index.

(** ** The further properties in the concrete world *)

Lemma pass_keeps_pending_tasks_witness :
  deque_outcome "A" ["B"] [] (mkLocals ["c"; "A"; "B"] []).
Proof.
  apply (pass_keeps_pending_tasks Sim.collab [] "A" ["B"] []
           (Sim.start Scenario.abc (Sim.default_args ["A"; "B"]))
           (fst (iteration Sim.collab [] "A" ["B"] []
                   (Sim.start Scenario.abc (Sim.default_args ["A"; "B"]))))).
  vm_compute; reflexivity.
Defined.

Lemma loop_ends_without_build_witness :
  exists g' r,
    while_recipes Sim.collab 2 [] (mkLocals ["A"; "A"] [])
      (Sim.start Scenario2.single (Scenario2.test_args ["A"; "A"]))
    = Some (g', r)
    /\ args g' = args (Sim.start Scenario2.single (Scenario2.test_args ["A"; "A"])).
Proof.
  apply (loop_ends_without_build Sim.collab 2 [] (mkLocals ["A"; "A"] [])
           (Sim.start Scenario2.single (Scenario2.test_args ["A"; "A"]))).
  - vm_compute; reflexivity.
  - exact (le_n 2).
Defined.

Lemma unrecorded_pass_removes_nothing_witness :
  exists evs,
    trace (fst (iteration Sim.collab [] "A.tar" [] []
                  (Sim.start Scenario5.archive_needs_c (Sim.default_args ["A.tar"]))))
    = trace (Sim.start Scenario5.archive_needs_c (Sim.default_args ["A.tar"])) ++ evs
    /\ Forall not_rmtree evs.
Proof.
  apply (unrecorded_pass_removes_nothing Sim.collab [] "A.tar" [] []
           (Sim.start Scenario5.archive_needs_c (Sim.default_args ["A.tar"]))
           _ (mkLocals ["c"; "A.tar"] [])).
  - vm_compute; reflexivity.
  - reflexivity.
Defined.

Lemma loop_writes_little_witness :
  exists g' r,
    while_recipes Sim.collab 2 [] (mkLocals ["A"] [])
      (Sim.start Scenario2.single (Scenario5.build_only_args ["A"]))
    = Some (g', r)
    /\ Args.notest (args g') = true
    /\ loop_frame (Sim.start Scenario2.single (Scenario5.build_only_args ["A"])) g'.
Proof.
  eexists; eexists. split; [vm_compute; reflexivity|].
  split; [reflexivity|].
  refine (loop_writes_little Sim.collab 2 [] (mkLocals ["A"] []) _ _ _ _).
  vm_compute; reflexivity.
Defined.

Lemma lock_released_and_never_nested_witness :
  exists g' r,
    execute Sim.collab 2 2
      (Sim.start Scenario2.single (Scenario3.all_pythons ["A"]))
    = Some (g', r)
    /\ Scenario3.locked_runs (trace g') = 4
    /\ lock_balanced (Sim.start Scenario2.single (Scenario3.all_pythons ["A"])) g'.
Proof.
  eexists; eexists. split; [vm_compute; reflexivity|].
  split; [vm_compute; reflexivity|].
  refine (lock_released_and_never_nested Sim.collab 2 2 _ _ _ _).
  vm_compute; reflexivity.
Defined.

Lemma other_build_errors_are_fatal_witness :
  while_recipes Sim.collab 2 [] (mkLocals ["A.tar"; "B"] [])
    (Sim.start Scenario2.broken_archive (Sim.default_args ["A.tar"; "B"]))
  = Some
      (mkGlobals Scenario2.broken_archive Sim.default_config
         (Sim.default_args ["A.tar"; "B"])
         [EvUnpack "A.tar";
          EvBuild (Sim.mkRecipe "/tmp/A.tar" "a" []
                     (Some (RuntimeError "compiler crashed"))) None],
       inl (RuntimeError "compiler crashed")).
Proof.
  refine (other_build_errors_are_fatal Sim.collab [] "A.tar" ["B"] []
    (Sim.start Scenario2.broken_archive (Sim.default_args ["A.tar"; "B"]))
    "/tmp/A.tar" true
    (Sim.mkRecipe "/tmp/A.tar" "a" [] (Some (RuntimeError "compiler crashed")))
    (mkGlobals Scenario2.broken_archive Sim.default_config
       (Sim.default_args ["A.tar"; "B"]) [EvUnpack "A.tar"])
    Scenario2.broken_archive Scenario2.broken_archive
    (RuntimeError "compiler crashed") 1 _ _ _ _ _).
  - exists (mkGlobals Scenario2.broken_archive Sim.default_config
              (Sim.default_args ["A.tar"; "B"]) [EvUnpack "A.tar"]).
    repeat split; vm_compute; reflexivity.
  - repeat split; vm_compute; reflexivity.
  - repeat split; vm_compute; reflexivity.
  - vm_compute; reflexivity.
  - vm_compute; reflexivity.
Defined.

Lemma missing_dependency_without_colon_witness :
  while_recipes Sim.collab 2 [] (mkLocals ["A"; "B"] [])
    (Sim.start Scenario5.no_colon (Sim.default_args ["A"; "B"]))
  = Some
      (mkGlobals Scenario5.no_colon Sim.default_config
         (Sim.default_args ["A"; "B"])
         [EvBuild (Sim.mkRecipe "A" "a" []
                     (Some (RuntimeError "No packages found"))) None],
       inl IndexError).
Proof.
  refine (missing_dependency_without_colon Sim.collab [] "A" ["B"] []
    (Sim.start Scenario5.no_colon (Sim.default_args ["A"; "B"]))
    "A" false
    (Sim.mkRecipe "A" "a" [] (Some (RuntimeError "No packages found")))
    (Sim.start Scenario5.no_colon (Sim.default_args ["A"; "B"]))
    Scenario5.no_colon Scenario5.no_colon "No packages found" 1 _ _ _ _ _ _).
  - exists (Sim.start Scenario5.no_colon (Sim.default_args ["A"; "B"])).
    repeat split; vm_compute; reflexivity.
  - repeat split; vm_compute; reflexivity.
  - repeat split; vm_compute; reflexivity.
  - vm_compute; reflexivity.
  - vm_compute; reflexivity.
  - vm_compute; reflexivity.
Defined.

Lemma missing_directory_is_fatal_witness :
  while_recipes Sim.collab 2 [] (mkLocals ["nowhere"; "B"] [])
    (Sim.start Scenario.abc (Sim.default_args ["nowhere"; "B"]))
  = Some (Sim.start Scenario.abc (Sim.default_args ["nowhere"; "B"]),
          inl (SystemExit "Error: no such directory: nowhere")).
Proof.
  refine (missing_directory_is_fatal Sim.collab [] "nowhere" ["B"] []
    (Sim.start Scenario.abc (Sim.default_args ["nowhere"; "B"])) 1 _ _).
  - vm_compute; reflexivity.
  - vm_compute; reflexivity.
Defined.

Lemma unparsable_metadata_is_fatal_witness :
  while_recipes Scenario5.bad_yaml 2 [] (mkLocals ["A"; "B"] [])
    (Sim.start Scenario2.single (Sim.default_args ["A"; "B"]))
  = Some
      (mkGlobals Scenario2.single Sim.default_config (Sim.default_args ["A"; "B"])
         [EvStderr "Error: Invalid yaml in A"],
       inl (SystemExit "1")).
Proof.
  refine (unparsable_metadata_is_fatal Scenario5.bad_yaml [] "A" ["B"] []
    (Sim.start Scenario2.single (Sim.default_args ["A"; "B"]))
    (Sim.start Scenario2.single (Sim.default_args ["A"; "B"]))
    "A" false Scenario2.single
    (YamlParsingError "Error: Invalid yaml in A") 1 _ _ _).
  - vm_compute; reflexivity.
  - vm_compute; reflexivity.
  - vm_compute; reflexivity.
Defined.

Lemma non_recipe_file_is_ignored_witness :
  while_recipes Sim.collab 2 [] (mkLocals ["README.txt"; "B"] [])
    (Sim.start Scenario5.readme (Sim.default_args ["README.txt"; "B"]))
  = while_recipes Sim.collab 1 [] (mkLocals ["B"] [])
      (mkGlobals Scenario5.readme Sim.default_config
         (Sim.default_args ["README.txt"; "B"])
         [EvPrint "Ignoring non-recipe: README.txt"]).
Proof.
  refine (non_recipe_file_is_ignored Sim.collab [] "README.txt" ["B"] []
    (Sim.start Scenario5.readme (Sim.default_args ["README.txt"; "B"])) 1 _ _).
  - vm_compute; reflexivity.
  - vm_compute; reflexivity.
Defined.

Lemma build_only_and_post_skip_test_and_upload_witness :
  iteration Sim.collab [] "A" [] []
    (Sim.start Scenario2.single (Scenario5.build_only_args ["A"]))
  = (mkGlobals (Sim.mkWorld [Sim.mkRecipe "A" "a" [] None] [] ["A"] ["a"])
       Sim.default_config
       (Args.no_test_no_upload (Scenario5.build_only_args ["A"]))
       [EvBuild (Sim.mkRecipe "A" "a" [] None) (Some false);
        EvPrint (no_upload_message "/bld/a.tar.bz2")],
     inr (mkLocals [] ["a.tar.bz2"])).
Proof.
  refine (build_only_and_post_skip_test_and_upload Sim.collab [] "A" [] []
    (Sim.start Scenario2.single (Scenario5.build_only_args ["A"]))
    "A" false (Sim.mkRecipe "A" "a" [] None)
    (Sim.start Scenario2.single (Scenario5.build_only_args ["A"]))
    Scenario2.single
    (Sim.mkWorld [Sim.mkRecipe "A" "a" [] None] [] ["A"] ["a"])
    (Sim.mkWorld [Sim.mkRecipe "A" "a" [] None] [] ["A"] ["a"]) _ _ _ _ _ _).
  - exists (Sim.start Scenario2.single (Scenario5.build_only_args ["A"])).
    repeat split; vm_compute; reflexivity.
  - repeat split; vm_compute; reflexivity.
  - repeat split; vm_compute; reflexivity.
  - vm_compute; reflexivity.
  - vm_compute; reflexivity.
  - vm_compute; reflexivity.
Defined.

Lemma upload_without_anaconda_is_fatal_witness :
  exists status,
    PyStr.contains "cannot locate anaconda command" status = true
    /\ iteration Sim.collab [] "A" [] []
         (Sim.start Scenario2.single (Scenario5.upload_args ["A"]))
       = (mkGlobals (Sim.mkWorld [Sim.mkRecipe "A" "a" [] None] [] ["A"] ["a"])
            Sim.default_config (Scenario5.upload_args ["A"])
            [EvBuild (Sim.mkRecipe "A" "a" [] None) None;
             EvTest (Sim.mkRecipe "A" "a" [] None);
             EvPrint (no_upload_message "/bld/a.tar.bz2")],
          inl (SystemExit status)).
Proof.
  refine (upload_without_anaconda_is_fatal Sim.collab [] "A" [] []
    (Sim.start Scenario2.single (Scenario5.upload_args ["A"]))
    "A" false (Sim.mkRecipe "A" "a" [] None)
    (Sim.start Scenario2.single (Scenario5.upload_args ["A"]))
    Scenario2.single
    (Sim.mkWorld [Sim.mkRecipe "A" "a" [] None] [] ["A"] ["a"])
    (Sim.mkWorld [Sim.mkRecipe "A" "a" [] None] [] ["A"] ["a"])
    (Sim.mkWorld [Sim.mkRecipe "A" "a" [] None] [] ["A"] ["a"])
    [EvTest (Sim.mkRecipe "A" "a" [] None)] _ _ _ _ _ _ _ _ _ _).
  - exists (Sim.start Scenario2.single (Scenario5.upload_args ["A"])).
    repeat split; vm_compute; reflexivity.
  - repeat split; vm_compute; reflexivity.
  - repeat split; vm_compute; reflexivity.
  - vm_compute; reflexivity.
  - vm_compute; reflexivity.
  - vm_compute; reflexivity.
  - vm_compute; reflexivity.
  - split; vm_compute; reflexivity.
  - vm_compute; reflexivity.
  - vm_compute; reflexivity.
Defined.

Lemma check_and_output_only_look_witness :
  exists g' r,
    while_recipes Sim.collab 2 [] (mkLocals ["A.tar"] [])
      (Sim.start Scenario2.good_archive (Scenario5.check_args ["A.tar"]))
    = Some (g', r)
    /\ (exists evs,
           trace g'
           = trace (Sim.start Scenario2.good_archive (Scenario5.check_args ["A.tar"]))
             ++ evs
           /\ Forall quiet_event evs)
    /\ (forall l', r = inr l' -> already_built l' = []).
Proof.
  eexists; eexists. split; [vm_compute; reflexivity|].
  refine (check_and_output_only_look Sim.collab 2 [] (mkLocals ["A.tar"] [])
            (Sim.start Scenario2.good_archive (Scenario5.check_args ["A.tar"]))
            _ _ _ _).
  - vm_compute; reflexivity.
  - vm_compute; reflexivity.
Defined.

Lemma args_func_reports_runtime_errors_witness :
  exists msg,
    execute Sim.collab 1 1
      (Sim.start Scenario2.single (Scenario3.wide_python ["A"]))
    = Some (mkGlobals Scenario2.single
              (Config.set Sim.default_config python 310)
              (Scenario3.wide_python ["A"]) [],
            inl (RuntimeError msg))
    /\ args_func Sim.collab 1 1
         (Sim.start Scenario2.single (Scenario3.wide_python ["A"]))
       = Some (mkGlobals Scenario2.single
                 (Config.set Sim.default_config python 310)
                 (Scenario3.wide_python ["A"]) [],
               inl (SystemExit ("Error: " ++ msg))).
Proof.
  assert (H : args_func Sim.collab 1 1
                (Sim.start Scenario2.single (Scenario3.wide_python ["A"]))
              = Some (mkGlobals Scenario2.single
                        (Config.set Sim.default_config python 310)
                        (Scenario3.wide_python ["A"]) [],
                      inl (SystemExit
                             "Error: CONDA_PY must be major.minor, like 3.4, not 310")))
    by (vm_compute; reflexivity).
  destruct (args_func_reports_runtime_errors Sim.collab 1 1 _ _ _ H)
    as (_ & _ & Hexit).
  destruct (Hexit _ eq_refl) as [He|(msg & Hs & He)].
  - vm_compute in He. discriminate He.
  - exists msg. split; [exact He|]. rewrite <- Hs. exact H.
Defined.

Lemma package_in_index_is_skipped_witness :
  iteration Sim.collab ["a.tar.bz2"] "A" [] []
    (Sim.start Scenario2.single (Scenario2.skip_args ["A"]))
  = (mkGlobals Scenario2.single Sim.default_config (Scenario2.skip_args ["A"])
       [EvPrint "a is already built, skipping."],
     inr (mkLocals [] [])).
Proof.
  refine (package_in_index_is_skipped Sim.collab ["a.tar.bz2"] "A" [] []
    (Sim.start Scenario2.single (Scenario2.skip_args ["A"]))
    "A" false (Sim.mkRecipe "A" "a" [] None)
    (Sim.start Scenario2.single (Scenario2.skip_args ["A"]))
    Scenario2.single _ _ _ _ _).
  - exists (Sim.start Scenario2.single (Scenario2.skip_args ["A"])).
    repeat split; vm_compute; reflexivity.
  - vm_compute; reflexivity.
  - vm_compute; reflexivity.
  - vm_compute; reflexivity.
  - left. reflexivity.
Defined.

Lemma completions_are_accepted_witness :
  @lang_step Sim.World Sim.Recipe python
    (mkGlobals Scenario2.single Sim.default_config
       (Args.setattr (Sim.default_args ["A"]) python [VStr "2.7"]) [])
  = (mkGlobals Scenario2.single (Config.set Sim.default_config python 27)
       (Args.setattr (Sim.default_args ["A"]) python [VStr "2.7"]) [],
     inr Next).
Proof.
  destruct (@completions_are_accepted Sim.World Sim.Recipe python "2.7"
              (mkGlobals Scenario2.single Sim.default_config
                 (Args.setattr (Sim.default_args ["A"]) python [VStr "2.7"]) []))
    as [[Hall _]|(v & Hv & Hstep & _)].
  - vm_compute. tauto.
  - vm_compute; reflexivity.
  - discriminate Hall.
  - vm_compute in Hv. injection Hv as <-. exact Hstep.
Defined.

Lemma index_updated_only_under_skip_existing_witness :
  exists g' r,
    execute Sim.collab 1 2 (Sim.start Scenario2.single (Sim.default_args ["A"]))
    = Some (g', r)
    /\ index_untouched (Sim.start Scenario2.single (Sim.default_args ["A"])) g'.
Proof.
  eexists; eexists. split; [vm_compute; reflexivity|].
  refine (index_updated_only_under_skip_existing Sim.collab 1 2 _ _ _ _).
  vm_compute; reflexivity.
Defined.
